(** * khmer_pdf: a shallow embedding of the PDF toolbox and its properties

    The repository is a browser toolbox that orchestrates pdf.js (page
    rasterisation) and pdf-lib (document assembly).  This development
    embeds

    - [src/lib/compress-helper] (the preset table, [renderAndCompressPage],
      [compressPDF]),
    - [src/routes/optimize/compress-pdf.tsx] ([compressionOptions],
      [handleCompressPDF], [compressPDFs]),
    - [src/routes/organize/merge-pdf.tsx] ([mergePDFs]),
    - the rotate route ([rotateFile], [rotateAllFiles], [resetRotation],
      [resetAllRotations]) and the organize route ([rotatePage]),

    and proves the properties the specification states about them.

    Conventions.  JavaScript [number]s that hold sizes and quality knobs
    are rationals ([Q]); the decimal literals of the source are the same
    decimal literals here, and only comparisons and copies are performed on
    them.  Page counts and indices are [nat].  Rotation angles are [Z] and
    the JavaScript remainder [%] is [Z.rem] (truncated, sign of the
    dividend).  An [await] is sequencing; a rejected promise is a thrown
    exception. *)

From Stdlib Require Import String ZArith QArith Qround Bool Lia Arith List.
From Stdlib Require Import Sorted.
From Stdlib Require Import Permutation.
From Stdlib.Strings Require Import Byte.
From Stdlib Require Import Decimal DecimalString.
Import ListNotations.

Set Implicit Arguments.

(** ** JavaScript control flow: exceptions over mutable state

    A computation runs on a state [S] and either returns a value or throws.
    The state reached is kept in both cases: a [catch] handler sees every
    mutation the [try] block made before the exception. *)

Inductive result (A : Type) : Type :=
| Ok (a : A)
| Throw (e : string).

Arguments Ok {A} a.
Arguments Throw {A} e.

Definition M (S A : Type) : Type := S -> result A * S.

Definition ret {S A : Type} (a : A) : M S A := fun s => (Ok a, s).

Definition throw {S A : Type} (e : string) : M S A := fun s => (Throw e, s).

Definition bind {S A B : Type} (c : M S A) (k : A -> M S B) : M S B :=
  fun s =>
    match c s with
    | (Ok a, s') => k a s'
    | (Throw e, s') => (Throw e, s')
    end.

Definition tryCatch {S A : Type} (body : M S A) (handler : string -> M S A)
  : M S A :=
  fun s =>
    match body s with
    | (Ok a, s') => (Ok a, s')
    | (Throw e, s') => handler e s'
    end.

Definition modify {S : Type} (f : S -> S) : M S unit := fun s => (Ok tt, f s).

Definition gets {S A : Type} (f : S -> A) : M S A := fun s => (Ok (f s), s).

Definition lift {S A : Type} (r : result A) : M S A := fun s => (r, s).

Definition liftOption {S A : Type} (o : option A) (e : string) : M S A :=
  match o with
  | Some a => ret a
  | None => throw e
  end.

Declare Scope js_scope.
Delimit Scope js_scope with js.
Notation "x <- c ;; k" := (bind c (fun x => k))
  (at level 61, c at next level, right associativity) : js_scope.
Notation "c ;;; k" := (bind c (fun _ => k))
  (at level 61, right associativity) : js_scope.

(** [for (const a of l) { f a }] *)
Fixpoint forEach {S A : Type} (l : list A) (f : A -> M S unit) : M S unit :=
  match l with
  | [] => ret tt
  | a :: l' => bind (f a) (fun _ => forEach l' f)
  end.

(** [`${n}`] for a non-negative integer. *)
Definition Number_toString (n : nat) : string :=
  NilZero.string_of_uint (Nat.to_uint n).

Definition BigNumber_toString (n : N) : string :=
  NilZero.string_of_uint (N.to_uint n).

(** ** Browser and library objects *)

Definition Uint8Array : Type := list byte.

(** A DOM [File]; [file.arrayBuffer()] yields [file_data]. *)
Record File : Type := {
  file_name : string;
  file_size : nat;
  file_data : Uint8Array
}.

Record Blob : Type := {
  blob_type : string;
  blob_data : Uint8Array
}.

(** *** pdf.js *)

Record PageViewport : Type := {
  viewport_width : Q;
  viewport_height : Q
}.

(** [getViewport s] is [page.getViewport({ scale: s })]; [render v] tells
    whether the promise of [page.render({ ..., viewport: v })] resolves. *)
Record PDFPageProxy : Type := {
  getViewport : Q -> PageViewport;
  render : PageViewport -> bool
}.

(** [getPage n] is [None] when the promise of [pdfDocument.getPage(n)]
    rejects. *)
Record PDFDocumentProxy : Type := {
  numPages : nat;
  getPage : nat -> option PDFPageProxy
}.

(** *** pdf-lib *)

Inductive ImageFormat : Type := jpeg | png.

Record PDFImage : Type := {
  image_format : ImageFormat;
  image_bytes : Uint8Array
}.

(** The options object of [page.drawImage(image, { x, y, width, height })]. *)
Record DrawImageOptions : Type := {
  di_x : Q;
  di_y : Q;
  di_width : Q;
  di_height : Q
}.

Inductive PDFOperator : Type :=
| DrawObject (image : PDFImage) (options : DrawImageOptions)
| RawOperator (code : Uint8Array).

Record PDFPage : Type := {
  page_size : Q * Q;
  page_rotation : Z;
  page_operators : list PDFOperator
}.

Record PDFDocument : Type := {
  doc_images : list PDFImage;
  doc_pages : list PDFPage
}.

(** [{ useObjectStreams?: boolean, addDefaultPage?: boolean }]; an absent
    field is [None] and [save] defaults it to [true]. *)
Record SaveOptions : Type := {
  useObjectStreams : option bool;
  addDefaultPage : option bool
}.

Inductive Writer : Type := PDFStreamWriter | PDFWriter.

(** *** What the collaborators answer

    The parsers, the rasteriser, the image encoder and the serialiser are
    black boxes.  Each is a function of what the code passes to it.  The
    DOM calls made while one page is processed ([getContext] and [toBlob]
    on the canvas created for it) are indexed by that page, so that their
    answers may differ from one loop iteration to the next.  [None] and
    [false] stand for a rejected promise, a thrown exception or a [null]
    result, as the comment on each field says. *)
Record Collaborators : Type := {
  (* pdfjsLib.getDocument({ data }).promise; None: rejects *)
  getDocument : Uint8Array -> option PDFDocumentProxy;
  (* canvas.getContext('2d') is not null *)
  canvas_getContext : PDFPageProxy -> bool;
  (* the blob canvas.toBlob(callback, type, quality) hands to its callback
     once the page has been rendered at the viewport; None: null *)
  canvas_toBlob : PDFPageProxy -> PageViewport -> string -> Q -> option Blob;
  (* newPdfDoc.embedJpg(bytes) / embedPng(bytes) accepts the bytes *)
  embedJpg_accepts : Uint8Array -> bool;
  embedPng_accepts : Uint8Array -> bool;
  (* PDFDocument.load(arrayBuffer); None: throws *)
  PDFDocument_load : Uint8Array -> option PDFDocument;
  (* Writer.forContext(...).serializeToBuffer(); None: throws *)
  serializeToBuffer : Writer -> PDFDocument -> option Uint8Array;
  (* Date.now() *)
  Date_now : N
}.

(** What the code can be observed to do: calls into the collaborators,
    console output, dialogs and downloads, in program order. *)
Inductive Event : Type :=
| EvGetDocument (data : Uint8Array)
| EvLoad (data : Uint8Array)
| EvEmbedJpg (bytes : Uint8Array)
| EvEmbedPng (bytes : Uint8Array)
| EvProgress (current total : nat)
| EvSave (doc : PDFDocument) (options : SaveOptions)
| EvConsoleError (message : string)
| EvAlert (message : string)
| EvDownload (filename : string) (content : Uint8Array).

(** ** pdf-lib's document operations *)

Definition PDFDocument_create : PDFDocument :=
  {| doc_images := []; doc_pages := [] |}.

(** [PageSizes.A4], the size of the page [addPage()] makes without
    argument. *)
Definition PageSizes_A4 : Q * Q := (595.28, 841.89)%Q.

Definition blankPage (size : Q * Q) : PDFPage :=
  {| page_size := size; page_rotation := 0; page_operators := [] |}.

(** [doc.addPage([w, h])]: the new page is last; the handle returned is
    its index. *)
Definition addPage (size : Q * Q) (doc : PDFDocument) : nat * PDFDocument :=
  (length (doc_pages doc),
   {| doc_images := doc_images doc;
      doc_pages := doc_pages doc ++ [blankPage size] |}).

(** [doc.addPage(page)] with a page object. *)
Definition addPageObject (page : PDFPage) (doc : PDFDocument) : PDFDocument :=
  {| doc_images := doc_images doc; doc_pages := doc_pages doc ++ [page] |}.

Fixpoint alter {A : Type} (f : A -> A) (i : nat) (l : list A) : list A :=
  match l, i with
  | [], _ => []
  | a :: l', O => f a :: l'
  | a :: l', S i' => a :: alter f i' l'
  end.

(** [page.drawImage(image, options)] on the page behind a handle. *)
Definition drawImage (handle : nat) (image : PDFImage)
  (options : DrawImageOptions) (doc : PDFDocument) : PDFDocument :=
  {| doc_images := doc_images doc;
     doc_pages :=
       alter (fun p =>
                {| page_size := page_size p;
                   page_rotation := page_rotation p;
                   page_operators :=
                     page_operators p ++ [DrawObject image options] |})
             handle (doc_pages doc) |}.

Definition embedImage (image : PDFImage) (doc : PDFDocument) : PDFDocument :=
  {| doc_images := doc_images doc ++ [image]; doc_pages := doc_pages doc |}.

(** [doc.getPageIndices()] is [range(0, doc.getPageCount())]. *)
Definition getPageIndices (doc : PDFDocument) : list nat :=
  seq 0 (length (doc_pages doc)).

(** [dest.copyPages(src, indices)]: the pages of [src] at the indices, in
    the order of the indices; an index without a page throws. *)
Fixpoint copyPages (src : PDFDocument) (indices : list nat)
  : option (list PDFPage) :=
  match indices with
  | [] => Some []
  | i :: rest =>
      match nth_error (doc_pages src) i, copyPages src rest with
      | Some p, Some ps => Some (p :: ps)
      | _, _ => None
      end
  end.

Definition withDefault (o : option bool) : bool :=
  match o with
  | Some b => b
  | None => true
  end.

(** The document [doc.save(options)] hands to the writer: a default A4
    page is added when [addDefaultPage] holds and there is no page. *)
Definition prepareForSave (options : SaveOptions) (doc : PDFDocument)
  : PDFDocument :=
  if withDefault (addDefaultPage options) && (length (doc_pages doc) =? 0)%nat
  then snd (addPage PageSizes_A4 doc)
  else doc.

Definition writerFor (options : SaveOptions) : Writer :=
  if withDefault (useObjectStreams options) then PDFStreamWriter
  else PDFWriter.

(** [doc.save(options)]: the document as prepared, and the bytes the
    writer makes of it ([None]: the writer throws). *)
Definition PDFDocument_save (env : Collaborators) (options : SaveOptions)
  (doc : PDFDocument) : PDFDocument * option Uint8Array :=
  let prepared := prepareForSave options doc in
  (prepared, serializeToBuffer env (writerFor options) prepared).

(** [page.setRotation(degrees(angle))]: pdf-lib asserts that the angle is
    a multiple of 90 and throws otherwise. *)
Definition setRotation (angle : Z) (page : PDFPage) : option PDFPage :=
  if (Z.rem angle 90 =? 0)%Z
  then Some {| page_size := page_size page;
               page_rotation := angle;
               page_operators := page_operators page |}
  else None.

(** The pdf-lib page, under a name the routes do not reuse. *)
Definition LibPage : Type := PDFPage.

(** ** JavaScript arrays *)

(** [array.findIndex(pred)]; [None] is [-1]. *)
Fixpoint findIndex {A : Type} (pred : A -> bool) (l : list A) : option nat :=
  match l with
  | [] => None
  | a :: l' => if pred a then Some O else option_map S (findIndex pred l')
  end.

(** What [array.splice(i, 1)] leaves in the array. *)
Definition spliceOut {A : Type} (i : nat) (l : list A) : list A :=
  firstn i l ++ skipn (S i) l.

(** The array after [array.splice(i, 0, x)]; an [i] beyond the end
    inserts at the end. *)
Definition spliceIn {A : Type} (i : nat) (x : A) (l : list A) : list A :=
  firstn i l ++ x :: skipn i l.

(** [Math.max(...l)]; [None] is the [-Infinity] of an empty list. *)
Definition Math_max (l : list nat) : option nat :=
  match l with
  | [] => None
  | a :: l' => Some (fold_left Nat.max l' a)
  end.

(** ** src/lib/compress-helper *)

Inductive CompressionMode : Type := extreme | normal | less.

Record CompressionSettings : Type := {
  imageQuality : Q;
  scale : Q;
  format : ImageFormat
}.

Definition compressionSettings (mode : CompressionMode) : CompressionSettings :=
  match mode with
  | extreme => {| imageQuality := 0.3; scale := 0.5; format := jpeg |}
  | normal => {| imageQuality := 0.6; scale := 0.7; format := jpeg |}
  | less => {| imageQuality := 0.85; scale := 0.9; format := jpeg |}
  end.

Definition mimeType (f : ImageFormat) : string :=
  match f with
  | jpeg => "image/jpeg"
  | png => "image/png"
  end.


(** [renderAndCompressPage(page, settings)].  The canvas takes its width
    and height from the viewport; the width and height returned are the
    viewport's. *)
Definition renderAndCompressPage (env : Collaborators) (page : PDFPageProxy)
  (settings : CompressionSettings) : result (Blob * Q * Q) :=
  let viewport := getViewport page (scale settings) in
  if negb (canvas_getContext env page)
  then Throw "Failed to get canvas context"
  else if negb (render page viewport)
  then Throw "page.render rejected"
  else
    match canvas_toBlob env page viewport (mimeType (format settings))
            (imageQuality settings) with
    | None => Throw "Failed to create blob from canvas"
    | Some blob =>
        Ok (blob, viewport_width viewport, viewport_height viewport)
    end.

(** The state [compressPDF] runs on: the state of its caller, which only
    the progress callback touches, the document under construction, and
    the events so far. *)
Record CompressState (W : Type) : Type := {
  caller : W;
  newPdfDoc : PDFDocument;
  events : list Event
}.

Section CompressHelper.

Variable W : Type.
Variable env : Collaborators.

Definition emit (ev : Event) : M (CompressState W) unit :=
  modify (fun s =>
            {| caller := caller s;
               newPdfDoc := newPdfDoc s;
               events := events s ++ [ev] |}).

Definition onDoc (f : PDFDocument -> PDFDocument) : M (CompressState W) unit :=
  modify (fun s =>
            {| caller := caller s;
               newPdfDoc := f (newPdfDoc s);
               events := events s |}).

Definition embedJpg (bytes : Uint8Array) : M (CompressState W) PDFImage :=
  (emit (EvEmbedJpg bytes) ;;;
   if embedJpg_accepts env bytes
   then
     let image := {| image_format := jpeg; image_bytes := bytes |} in
     onDoc (embedImage image) ;;; ret image
   else throw "embedJpg threw")%js.

Definition embedPng (bytes : Uint8Array) : M (CompressState W) PDFImage :=
  (emit (EvEmbedPng bytes) ;;;
   if embedPng_accepts env bytes
   then
     let image := {| image_format := png; image_bytes := bytes |} in
     onDoc (embedImage image) ;;; ret image
   else throw "embedPng threw")%js.

Definition newPdfDoc_addPage (size : Q * Q) : M (CompressState W) nat :=
  (handle <- gets (fun s => fst (addPage size (newPdfDoc s))) ;;
   onDoc (fun d => snd (addPage size d)) ;;;
   ret handle)%js.

(** [onProgress?.(current, total)]: nothing when the caller gave no
    callback; otherwise the callback runs on the caller's state and may
    throw. *)
Definition callProgress (onProgress : option (nat -> nat -> M W unit))
  (current total : nat) : M (CompressState W) unit :=
  match onProgress with
  | None => ret tt
  | Some callback =>
      (emit (EvProgress current total) ;;;
       fun s =>
         let (r, w) := callback current total (caller s) in
         (r, {| caller := w;
                newPdfDoc := newPdfDoc s;
                events := events s |}))%js
  end.

(** [await newPdfDoc.save(options)] *)
Definition newPdfDoc_save (options : SaveOptions)
  : M (CompressState W) Uint8Array :=
  (receiver <- gets (fun s => newPdfDoc s) ;;
   emit (EvSave receiver options) ;;;
   fun s =>
     let (prepared, bytes) := PDFDocument_save env options (newPdfDoc s) in
     (match bytes with
      | Some b => Ok b
      | None => Throw "save threw"
      end,
      {| caller := caller s; newPdfDoc := prepared; events := events s |}))%js.

(** The body of the page loop: the [try] block and its [catch]. *)
Definition processPage (settings : CompressionSettings)
  (pdfDocument : PDFDocumentProxy)
  (onProgress : option (nat -> nat -> M W unit))
  (totalPages pageNum : nat) : M (CompressState W) unit :=
  tryCatch
    (page <- liftOption (getPage pdfDocument pageNum) "getPage rejected" ;;
     rendered <- lift (renderAndCompressPage env page settings) ;;
     let '(blob, width, height) := rendered in
     let imageBytes := blob_data blob in
     image <- match format settings with
              | jpeg => embedJpg imageBytes
              | png => embedPng imageBytes
              end ;;
     newPage <- newPdfDoc_addPage (width, height) ;;
     onDoc (drawImage newPage image
              {| di_x := 0; di_y := 0;
                 di_width := width; di_height := height |}) ;;;
     callProgress onProgress pageNum totalPages)%js
    (fun _ =>
       emit (EvConsoleError
               ("Error processing page " ++ Number_toString pageNum ++ ":"))).

(** [compressPDF(pdfFile, mode = 'normal', onProgress)] *)
Definition compressPDF (pdfFile : File) (mode : option CompressionMode)
  (onProgress : option (nat -> nat -> M W unit))
  : M (CompressState W) Uint8Array :=
  let settings :=
    compressionSettings (match mode with Some m => m | None => normal end) in
  let arrayBuffer := file_data pdfFile in
  (emit (EvGetDocument arrayBuffer) ;;;
   pdfDocument <- liftOption (getDocument env arrayBuffer)
                    "getDocument rejected" ;;
   onDoc (fun _ => PDFDocument_create) ;;;
   let totalPages := numPages pdfDocument in
   forEach (seq 1 totalPages)
     (processPage settings pdfDocument onProgress totalPages) ;;;
   newPdfDoc_save
     {| useObjectStreams := Some true; addDefaultPage := Some false |})%js.

(** A call of [compressPDF] from caller state [w]. *)
Definition run_compressPDF (pdfFile : File) (mode : option CompressionMode)
  (onProgress : option (nat -> nat -> M W unit)) (w : W)
  : result Uint8Array * CompressState W :=
  compressPDF pdfFile mode onProgress
    {| caller := w; newPdfDoc := PDFDocument_create; events := [] |}.

End CompressHelper.

(** [x.toFixed(2)] for a number that is [num / den] exactly: the integer
    nearest to a hundred times the number, the larger one on a tie, is
    written with a point before its last two digits. *)
Definition hundredths (num den : N) : N := ((200 * num + den) / (2 * den))%N.

Definition showHundredths (n : N) : string :=
  BigNumber_toString (n / 100)
  ++ "."
  ++ (if (n mod 100 <? 10)%N then "0" else "")
  ++ BigNumber_toString (n mod 100).

(** [formatFileSize(bytes)], for the size of a file: an integer below
    2^53, which the divisions by 1024 and by 1024 * 1024 leave exact. *)
Definition formatFileSize (bytes : N) : string :=
  if (bytes <? 1024)%N then BigNumber_toString bytes ++ " B"
  else if (bytes <? 1024 * 1024)%N
  then showHundredths (hundredths bytes 1024) ++ " KB"
  else showHundredths (hundredths bytes (1024 * 1024)) ++ " MB".

(** [try { body } finally { fin }] *)
Definition tryFinally {S A : Type} (body : M S A) (fin : M S unit) : M S A :=
  fun s =>
    match body s with
    | (r, s') =>
        match fin s' with
        | (Ok _, s'') => (r, s'')
        | (Throw e, s'') => (Throw e, s'')
        end
    end.

(** ** src/routes/optimize/compress-pdf.tsx *)

Module CompressRoute.

Inductive Status : Type := pending | processing | completed | error.

Record PDFFile : Type := {
  id : string;
  file : File;
  name : string;
  size : nat;
  compressedSize : option nat;
  status : Status;
  progress : option nat
}.

Record CompressionOption : Type := {
  mode : CompressionMode;
  label : string;
  description : string;
  quality : string;
  compression : string;
  option_imageQuality : Q
}.

Definition compressionOptions : list CompressionOption :=
  [ {| mode := extreme; label := "Extreme";
       description := "Maximum compression"; quality := "Lower quality";
       compression := "High compression"; option_imageQuality := 0.3 |};
    {| mode := normal; label := "Normal";
       description := "Balanced compression"; quality := "Good quality";
       compression := "Good compression"; option_imageQuality := 0.6 |};
    {| mode := less; label := "Less";
       description := "Light compression"; quality := "High quality";
       compression := "Less compression"; option_imageQuality := 0.85 |} ].

(** The component's state, with the events it has caused. *)
Record State : Type := {
  pdfFiles : list PDFFile;
  isProcessing : bool;
  compressionMode : CompressionMode;
  log : list Event
}.

Definition setPdfFiles (f : list PDFFile -> list PDFFile) : M State unit :=
  modify (fun st =>
            {| pdfFiles := f (pdfFiles st);
               isProcessing := isProcessing st;
               compressionMode := compressionMode st;
               log := log st |}).

Definition setIsProcessing (b : bool) : M State unit :=
  modify (fun st =>
            {| pdfFiles := pdfFiles st;
               isProcessing := b;
               compressionMode := compressionMode st;
               log := log st |}).

Definition logEvents (evs : list Event) : M State unit :=
  modify (fun st =>
            {| pdfFiles := pdfFiles st;
               isProcessing := isProcessing st;
               compressionMode := compressionMode st;
               log := log st ++ evs |}).

(** [{ ...f, status }] *)
Definition withStatus (s : Status) (f : PDFFile) : PDFFile :=
  {| id := id f; file := file f; name := name f; size := size f;
     compressedSize := compressedSize f; status := s;
     progress := progress f |}.

(** [{ ...f, progress }] *)
Definition withProgress (p : nat) (f : PDFFile) : PDFFile :=
  {| id := id f; file := file f; name := name f; size := size f;
     compressedSize := compressedSize f; status := status f;
     progress := Some p |}.

(** [{ ...f, compressedSize, status: 'completed' }] *)
Definition withCompleted (n : nat) (f : PDFFile) : PDFFile :=
  {| id := id f; file := file f; name := name f; size := size f;
     compressedSize := Some n; status := completed;
     progress := progress f |}.

(** [prev.map((f) => (f.id === target ? g(f) : f))] *)
Definition mapMatching (target : string) (g : PDFFile -> PDFFile)
  (prev : list PDFFile) : list PDFFile :=
  map (fun f => if String.eqb (id f) target then g f else f) prev.

Section Route.

Variable env : Collaborators.

(** [Math.floor((current / total) * 100)], a floating-point computation
    left to the JavaScript engine. *)
Variable percent : nat -> nat -> nat.

Definition handleCompressPDF (currentMode : CompressionMode)
  (pdfFile : PDFFile) : M State Uint8Array :=
  fun st =>
    let (r, cs) :=
      run_compressPDF env (file pdfFile) (Some currentMode)
        (Some (fun current total =>
                 let progress := percent current total in
                 setPdfFiles (mapMatching (id pdfFile)
                                (withProgress progress))))
        st in
    match logEvents (events cs) (caller cs) with
    | (_, st') => (r, st')
    end.

(** One turn of [for (let i = 0; i < pdfFiles.length; i++)], with
    [pdfFile = pdfFiles[i]].  The download (a [Blob], an object URL and a
    click on a temporary link) is one event. *)
Definition compressOne (currentMode : CompressionMode) (pdfFile : PDFFile)
  : M State unit :=
  (setPdfFiles (mapMatching (id pdfFile) (withStatus processing)) ;;;
   tryCatch
     (compressedBytes <- handleCompressPDF currentMode pdfFile ;;
      let compressedSize := length compressedBytes in
      setPdfFiles (mapMatching (id pdfFile) (withCompleted compressedSize)) ;;;
      logEvents [EvDownload ("compressed-" ++ name pdfFile) compressedBytes])
     (fun _ =>
        logEvents [EvConsoleError
                     ("Error compressing " ++ name pdfFile ++ ":")] ;;;
        setPdfFiles (mapMatching (id pdfFile) (withStatus error))))%js.

(** [compressPDFs]: [pdfFiles] and [compressionMode] are the values of the
    render in which the handler was created. *)
Definition compressPDFs : M State unit :=
  fun st0 =>
    let pdfFiles0 := pdfFiles st0 in
    let currentMode := compressionMode st0 in
    if (length pdfFiles0 =? 0)%nat
    then
      logEvents [EvAlert "Please select at least 1 PDF file to compress"] st0
    else
      (setIsProcessing true ;;;
       tryFinally
         (forEach pdfFiles0 (compressOne currentMode))
         (setIsProcessing false))%js st0.

End Route.

End CompressRoute.

(** ** src/routes/organize/merge-pdf.tsx *)

Module MergeRoute.

Record PDFFile : Type := {
  id : string;
  file : File;
  name : string;
  size : nat
}.

Record State : Type := {
  pdfFiles : list PDFFile;
  isProcessing : bool;
  log : list Event
}.

Definition setPdfFiles (f : list PDFFile -> list PDFFile) : M State unit :=
  modify (fun st =>
            {| pdfFiles := f (pdfFiles st);
               isProcessing := isProcessing st;
               log := log st |}).

Definition setIsProcessing (b : bool) : M State unit :=
  modify (fun st =>
            {| pdfFiles := pdfFiles st;
               isProcessing := b;
               log := log st |}).

Definition logEvents (evs : list Event) : M State unit :=
  modify (fun st =>
            {| pdfFiles := pdfFiles st;
               isProcessing := isProcessing st;
               log := log st ++ evs |}).

Section Route.

Variable env : Collaborators.

(** One turn of [for (const pdfFile of pdfFiles)], on the local
    [mergedPdf]. *)
Definition mergeOne (mergedPdf : PDFDocument) (pdfFile : PDFFile)
  : M State PDFDocument :=
  (let arrayBuffer := file_data (file pdfFile) in
   logEvents [EvLoad arrayBuffer] ;;;
   pdf <- liftOption (PDFDocument_load env arrayBuffer) "load threw" ;;
   copiedPages <- liftOption (copyPages pdf (getPageIndices pdf))
                    "copyPages threw" ;;
   ret (fold_left (fun doc page => addPageObject page doc)
          copiedPages mergedPdf))%js.

Fixpoint mergeAll (mergedPdf : PDFDocument) (todo : list PDFFile)
  : M State PDFDocument :=
  match todo with
  | [] => ret mergedPdf
  | pdfFile :: rest =>
      bind (mergeOne mergedPdf pdfFile) (fun merged => mergeAll merged rest)
  end.

Definition mergePDFs : M State unit :=
  fun st0 =>
    let pdfFiles0 := pdfFiles st0 in
    if (length pdfFiles0 <? 2)%nat
    then logEvents [EvAlert "Please select at least 2 PDF files to merge"] st0
    else
      (setIsProcessing true ;;;
       tryFinally
         (tryCatch
            (mergedPdf <- mergeAll PDFDocument_create pdfFiles0 ;;
             let options :=
               {| useObjectStreams := None; addDefaultPage := None |} in
             logEvents [EvSave mergedPdf options] ;;;
             mergedPdfBytes <-
               liftOption (snd (PDFDocument_save env options mergedPdf))
                 "save threw" ;;
             logEvents
               [EvDownload
                  ("merged-" ++ BigNumber_toString (Date_now env) ++ ".pdf")
                  mergedPdfBytes] ;;;
             setPdfFiles (fun _ => []))
            (fun _ =>
               logEvents
                 [EvConsoleError "Error merging PDFs:";
                  EvAlert
                    "An error occurred while merging PDFs. Please try again."]))
         (setIsProcessing false))%js st0.

End Route.

Inductive MoveDirection : Type := up | down.

(** [addFiles(files)]; the identifier
    [`${file.name}-${Date.now()}-${Math.random()}`] is left to the
    browser. *)
Definition addFiles (freshId : File -> string) (files : list File)
  (prev : list PDFFile) : list PDFFile :=
  prev ++
  map (fun f => {| id := freshId f; file := f; name := file_name f;
                   size := file_size f |}) files.

Definition removeFile (target : string) (prev : list PDFFile) : list PDFFile :=
  filter (fun f => negb (String.eqb (id f) target)) prev.

(** [moveFile(index, direction)]: the list of the next render.  [None]:
    [index] is not the index of an entry while [targetIndex] is, so that
    the exchange writes [undefined] into the list; the buttons pass the
    index of an entry. *)
Definition moveFile (index : nat) (direction : MoveDirection)
  (pdfFiles : list PDFFile) : option (list PDFFile) :=
  let newFiles := pdfFiles in
  let targetIndex :=
    match direction with
    | up => (Z.of_nat index - 1)%Z
    | down => (Z.of_nat index + 1)%Z
    end in
  if ((targetIndex <? 0) || (targetIndex >=? Z.of_nat (length newFiles)))%Z
  then Some pdfFiles
  else
    match nth_error newFiles index,
          nth_error newFiles (Z.to_nat targetIndex) with
    | Some atIndex, Some atTarget =>
        Some
          (alter (fun _ => atTarget) index
             (alter (fun _ => atIndex) (Z.to_nat targetIndex) newFiles))
    | _, _ => None
    end.

End MergeRoute.

(** ** The rotate route (second module of merge-pdf.tsx) *)

Module RotateRoute.

Inductive Status : Type := pending | processing | completed | error.

Record PDFFile : Type := {
  id : string;
  file : File;
  name : string;
  size : nat;
  rotation : Z;
  status : Status;
  pageCount : option nat;
  previewUrl : option string
}.

Inductive RotateDirection : Type := clockwise | counterclockwise.

(** [{ ...file, rotation: r }] *)
Definition withRotation (r : Z) (f : PDFFile) : PDFFile :=
  {| id := id f; file := file f; name := name f; size := size f;
     rotation := r; status := status f; pageCount := pageCount f;
     previewUrl := previewUrl f |}.

(** [{ ...f, status }] *)
Definition withStatus (s : Status) (f : PDFFile) : PDFFile :=
  {| id := id f; file := file f; name := name f; size := size f;
     rotation := rotation f; status := s; pageCount := pageCount f;
     previewUrl := previewUrl f |}.

Section Route.

Variable env : Collaborators.

(** The identifier [`${file.name}-${Date.now()}-${Math.random()}`] and the
    data URL of [generatePreview(file)], both left to the browser. *)
Variable freshId : File -> string.
Variable generatePreview : File -> option string.

(** [addFiles(files)]: a file that does not load is skipped. *)
Definition addFiles (files : list File) (prev : list PDFFile) : list PDFFile :=
  prev ++
  flat_map
    (fun f =>
       match PDFDocument_load env (file_data f) with
       | Some pdf =>
           [ {| id := freshId f; file := f; name := file_name f;
                size := file_size f; rotation := 0; status := pending;
                pageCount := Some (length (doc_pages pdf));
                previewUrl := generatePreview f |} ]
       | None => []
       end)
    files.

End Route.

Definition removeFile (target : string) (prev : list PDFFile) : list PDFFile :=
  filter (fun f => negb (String.eqb (id f) target)) prev.

Definition rotateFile (target : string) (direction : RotateDirection)
  (prev : list PDFFile) : list PDFFile :=
  map (fun f =>
         if String.eqb (id f) target
         then
           let change :=
             match direction with
             | clockwise => 90
             | counterclockwise => -90
             end%Z in
           let newRotation := Z.rem (rotation f + change + 360) 360 in
           withRotation newRotation f
         else f)
      prev.

Definition rotateAllFiles (direction : RotateDirection)
  (prev : list PDFFile) : list PDFFile :=
  map (fun f =>
         let change :=
           match direction with
           | clockwise => 90
           | counterclockwise => -90
           end%Z in
         let newRotation := Z.rem (rotation f + change + 360) 360 in
         withRotation newRotation f)
      prev.

Definition resetRotation (target : string) (prev : list PDFFile)
  : list PDFFile :=
  map (fun f => if String.eqb (id f) target then withRotation 0 f else f) prev.

Definition resetAllRotations (prev : list PDFFile) : list PDFFile :=
  map (fun f => withRotation 0 f) prev.

(** The status updates of [processRotations]. *)
Definition markStatus (target : string) (s : Status) (prev : list PDFFile)
  : list PDFFile :=
  map (fun f => if String.eqb (id f) target then withStatus s f else f) prev.

Record State : Type := {
  pdfFiles : list PDFFile;
  isProcessing : bool;
  log : list Event
}.

Definition setPdfFiles (f : list PDFFile -> list PDFFile) : M State unit :=
  modify (fun st =>
            {| pdfFiles := f (pdfFiles st);
               isProcessing := isProcessing st;
               log := log st |}).

Definition setIsProcessing (b : bool) : M State unit :=
  modify (fun st =>
            {| pdfFiles := pdfFiles st;
               isProcessing := b;
               log := log st |}).

Definition logEvents (evs : list Event) : M State unit :=
  modify (fun st =>
            {| pdfFiles := pdfFiles st;
               isProcessing := isProcessing st;
               log := log st ++ evs |}).

(** [pages.forEach((page) => page.setRotation(degrees(
    page.getRotation().angle + rotation)))]; [None] when a call throws. *)
Fixpoint rotatePages (pending : Z) (pages : list LibPage)
  : option (list LibPage) :=
  match pages with
  | [] => Some []
  | page :: rest =>
      let currentRotation := page_rotation page in
      let newRotation := (currentRotation + pending)%Z in
      match setRotation newRotation page, rotatePages pending rest with
      | Some rotated, Some others => Some (rotated :: others)
      | _, _ => None
      end
  end.

Section Processing.

Variable env : Collaborators.

Definition rotatePDF (pdfFile : PDFFile) : M State Uint8Array :=
  (let arrayBuffer := file_data (file pdfFile) in
   logEvents [EvLoad arrayBuffer] ;;;
   pdfDoc <- liftOption (PDFDocument_load env arrayBuffer) "load threw" ;;
   pages <- liftOption (rotatePages (rotation pdfFile) (doc_pages pdfDoc))
              "setRotation threw" ;;
   let rotatedDoc :=
     {| doc_images := doc_images pdfDoc; doc_pages := pages |} in
   let options := {| useObjectStreams := None; addDefaultPage := None |} in
   logEvents [EvSave rotatedDoc options] ;;;
   liftOption (snd (PDFDocument_save env options rotatedDoc)) "save threw")%js.

(** One turn of [for (const pdfFile of pdfFiles)] in
    [processRotations]. *)
Definition rotateOne (pdfFile : PDFFile) : M State unit :=
  if (rotation pdfFile =? 0)%Z
  then setPdfFiles (markStatus (id pdfFile) completed)
  else
    (setPdfFiles (markStatus (id pdfFile) processing) ;;;
     tryCatch
       (rotatedBytes <- rotatePDF pdfFile ;;
        setPdfFiles (markStatus (id pdfFile) completed) ;;;
        logEvents [EvDownload ("rotated-" ++ name pdfFile) rotatedBytes])
       (fun _ =>
          logEvents [EvConsoleError
                       ("Error rotating " ++ name pdfFile ++ ":")] ;;;
          setPdfFiles (markStatus (id pdfFile) error)))%js.

Definition processRotations : M State unit :=
  fun st0 =>
    let pdfFiles0 := pdfFiles st0 in
    if (length pdfFiles0 =? 0)%nat
    then logEvents [EvAlert "Please select at least 1 PDF file to rotate"] st0
    else
      let filesToRotate :=
        filter (fun f => negb (rotation f =? 0)%Z) pdfFiles0 in
      if (length filesToRotate =? 0)%nat
      then
        logEvents
          [EvAlert "Please rotate at least one PDF file before processing"]
          st0
      else
        (setIsProcessing true ;;;
         tryFinally (forEach pdfFiles0 rotateOne) (setIsProcessing false))%js
          st0.

End Processing.

End RotateRoute.

(** ** The organize route *)

Module OrganizeRoute.

Record PDFPage : Type := {
  id : string;
  pageNumber : nat;
  rotation : Z;
  previewUrl : option string;
  isDeleted : bool
}.

Record PDFFileData : Type := {
  file_id : string;
  file : File;
  name : string;
  size : nat;
  pages : list PDFPage;
  isLoading : bool
}.

Inductive Direction : Type := cw | ccw.

Definition withPages (ps : list PDFPage) (d : PDFFileData) : PDFFileData :=
  {| file_id := file_id d; file := file d; name := name d; size := size d;
     pages := ps; isLoading := isLoading d |}.

(** The pages [loadPdfFile] builds, one for [i = 1 .. pageCount]. *)
Definition loadedPages (pageId : nat -> string)
  (preview : nat -> option string) (pageCount : nat) : list PDFPage :=
  map (fun i =>
         {| id := pageId i; pageNumber := i; rotation := 0;
            previewUrl := preview i; isDeleted := false |})
      (seq 1 pageCount).

(** [rotatePage(pageId, direction)] on the state [pdfFile]. *)
Definition rotatePage (pageId : string) (direction : Direction)
  (pdfFile : option PDFFileData) : option PDFFileData :=
  match pdfFile with
  | None => None
  | Some prev =>
      Some
        (withPages
           (map (fun page =>
                   if String.eqb (id page) pageId
                   then
                     let change :=
                       match direction with cw => 90 | ccw => -90 end%Z in
                     let newRotation :=
                       Z.rem (rotation page + change + 360) 360 in
                     {| id := id page; pageNumber := pageNumber page;
                        rotation := newRotation;
                        previewUrl := previewUrl page;
                        isDeleted := isDeleted page |}
                   else page)
                (pages prev))
           prev)
  end.

Definition setDeleted (pageId : string) (b : bool)
  (pdfFile : option PDFFileData) : option PDFFileData :=
  match pdfFile with
  | None => None
  | Some prev =>
      Some
        (withPages
           (map (fun page =>
                   if String.eqb (id page) pageId
                   then
                     {| id := id page; pageNumber := pageNumber page;
                        rotation := rotation page;
                        previewUrl := previewUrl page;
                        isDeleted := b |}
                   else page)
                (pages prev))
           prev)
  end.

Definition deletePage (pageId : string) := setDeleted pageId true.
Definition restorePage (pageId : string) := setDeleted pageId false.

Record State : Type := {
  pdfFile : option PDFFileData;
  isProcessing : bool;
  draggedPageId : option string;
  dragOverPageId : option string;
  log : list Event
}.

Definition setPdfFile (f : option PDFFileData -> option PDFFileData)
  : M State unit :=
  modify (fun st =>
            {| pdfFile := f (pdfFile st);
               isProcessing := isProcessing st;
               draggedPageId := draggedPageId st;
               dragOverPageId := dragOverPageId st;
               log := log st |}).

Definition setIsProcessing (b : bool) : M State unit :=
  modify (fun st =>
            {| pdfFile := pdfFile st;
               isProcessing := b;
               draggedPageId := draggedPageId st;
               dragOverPageId := dragOverPageId st;
               log := log st |}).

Definition logEvents (evs : list Event) : M State unit :=
  modify (fun st =>
            {| pdfFile := pdfFile st;
               isProcessing := isProcessing st;
               draggedPageId := draggedPageId st;
               dragOverPageId := dragOverPageId st;
               log := log st ++ evs |}).

(** [setDraggedPageId(null); setDragOverPageId(null)] *)
Definition clearDrag (st : State) : State :=
  {| pdfFile := pdfFile st;
     isProcessing := isProcessing st;
     draggedPageId := None;
     dragOverPageId := None;
     log := log st |}.

Definition handlePageDragStart (pageId : string) (st : State) : State :=
  {| pdfFile := pdfFile st;
     isProcessing := isProcessing st;
     draggedPageId := Some pageId;
     dragOverPageId := dragOverPageId st;
     log := log st |}.

(** The update [handlePageDrop] passes to [setPdfFile], on a file. *)
Definition reorderPages (dragged target : string) (prev : PDFFileData)
  : PDFFileData :=
  let pages0 := pages prev in
  match findIndex (fun p => String.eqb (id p) dragged) pages0,
        findIndex (fun p => String.eqb (id p) target) pages0 with
  | Some draggedIndex, Some targetIndex =>
      match nth_error pages0 draggedIndex with
      | Some draggedPage =>
          withPages
            (spliceIn targetIndex draggedPage (spliceOut draggedIndex pages0))
            prev
      | None => prev
      end
  | _, _ => prev
  end.

(** [handlePageDrop(e, targetPageId)]; [!draggedPageId] holds of [null]
    and of the empty string. *)
Definition handlePageDrop (targetPageId : string) (st : State) : State :=
  match draggedPageId st with
  | None => clearDrag st
  | Some dragged =>
      if String.eqb dragged "" || String.eqb dragged targetPageId
      then clearDrag st
      else
        clearDrag
          {| pdfFile := option_map (reorderPages dragged targetPageId)
                          (pdfFile st);
             isProcessing := isProcessing st;
             draggedPageId := draggedPageId st;
             dragOverPageId := dragOverPageId st;
             log := log st |}
  end.

(** The pages [handleAddPages] makes for a new file of [pageCount]
    pages.  [None]: the list has no page and the new file has one, so
    that [Math.max()] is [-Infinity] and the numbers made are no page
    numbers. *)
Definition addedPages (pageId : nat -> string)
  (preview : nat -> option string) (existing : list PDFPage)
  (pageCount : nat) : option (list PDFPage) :=
  match pageCount, Math_max (map pageNumber existing) with
  | O, _ => Some []
  | _, Some currentMaxPage =>
      Some
        (map (fun i =>
                {| id := pageId (currentMaxPage + i)%nat;
                   pageNumber := (currentMaxPage + i)%nat;
                   rotation := 0;
                   previewUrl := preview i;
                   isDeleted := false |})
           (seq 1 pageCount))
  | _, None => None
  end.

(** The page [processPDF] adds for an entry of the list: the copy of the
    original page [pageNumber - 1], turned by the pending rotation when
    there is one.  [None]: [copyPages] or [setRotation] throws. *)
Definition copyActivePage (originalPdf : PDFDocument) (page : PDFPage)
  : option LibPage :=
  match pageNumber page with
  | O => None
  | S index =>
      match copyPages originalPdf [index] with
      | Some [copiedPage] =>
          if (rotation page =? 0)%Z
          then Some copiedPage
          else
            let currentRotation := page_rotation copiedPage in
            setRotation (currentRotation + rotation page) copiedPage
      | _ => None
      end
  end.

(** [for (const page of activePages)] on the local [newPdf]. *)
Fixpoint organizeAll (originalPdf newPdf : PDFDocument)
  (activePages : list PDFPage) : option PDFDocument :=
  match activePages with
  | [] => Some newPdf
  | page :: rest =>
      match copyActivePage originalPdf page with
      | Some copiedPage =>
          organizeAll originalPdf (addPageObject copiedPage newPdf) rest
      | None => None
      end
  end.

Section Saving.

Variable env : Collaborators.

(** [loadPdfFile(file)].  The identifiers, which embed [Date.now()], and
    the previews of [generatePagePreview], which never throws, are left
    to the browser. *)
Definition loadPdfFile (fileId : string) (pageId : nat -> string)
  (preview : nat -> option string) (file0 : File) : M State unit :=
  tryCatch
    (let arrayBuffer := file_data file0 in
     logEvents [EvLoad arrayBuffer] ;;;
     pdfDoc <- liftOption (PDFDocument_load env arrayBuffer) "load threw" ;;
     let pageCount := length (doc_pages pdfDoc) in
     let fileData :=
       {| file_id := fileId; file := file0; name := file_name file0;
          size := file_size file0; pages := []; isLoading := true |} in
     setPdfFile (fun _ => Some fileData) ;;;
     setPdfFile
       (option_map
          (fun prev =>
             {| file_id := file_id prev; file := file prev;
                name := name prev; size := size prev;
                pages := loadedPages pageId preview pageCount;
                isLoading := false |})))%js
    (fun _ =>
       logEvents
         [EvConsoleError "Error loading PDF:";
          EvAlert "Error loading PDF file. Please try again."]).

(** [handleAddPages(e)] with [e.target.files[0] = newFile].  [None] as
    for [addedPages]. *)
Definition handleAddPages (pageId : nat -> string)
  (preview : nat -> option string) (newFile : File) (st : State)
  : option State :=
  match pdfFile st with
  | None => Some st
  | Some pdfFile0 =>
      let arrayBuffer := file_data newFile in
      match PDFDocument_load env arrayBuffer with
      | None =>
          Some
            (snd (logEvents
                    [EvLoad arrayBuffer;
                     EvConsoleError "Error adding pages:";
                     EvAlert "Error adding pages. Please try again."] st))
      | Some pdfDoc =>
          let pageCount := length (doc_pages pdfDoc) in
          match addedPages pageId preview (pages pdfFile0) pageCount with
          | None => None
          | Some newPages =>
              Some
                (snd ((logEvents [EvLoad arrayBuffer] ;;;
                       setPdfFile
                         (option_map
                            (fun prev =>
                               withPages (pages prev ++ newPages) prev)))%js
                        st))
          end
      end
  end.

Definition processPDF : M State unit :=
  fun st0 =>
    match pdfFile st0 with
    | None => (Ok tt, st0)
    | Some pdfFile0 =>
        let activePages :=
          filter (fun p => negb (isDeleted p)) (pages pdfFile0) in
        if (length activePages =? 0)%nat
        then
          logEvents
            [EvAlert "No pages to save. Please keep at least one page."] st0
        else
          (setIsProcessing true ;;;
           tryFinally
             (tryCatch
                (let arrayBuffer := file_data (file pdfFile0) in
                 logEvents [EvLoad arrayBuffer] ;;;
                 originalPdf <-
                   liftOption (PDFDocument_load env arrayBuffer)
                     "load threw" ;;
                 newPdf <-
                   liftOption
                     (organizeAll originalPdf PDFDocument_create activePages)
                     "copyPages or setRotation threw" ;;
                 let options :=
                   {| useObjectStreams := None; addDefaultPage := None |} in
                 logEvents [EvSave newPdf options] ;;;
                 pdfBytes <-
                   liftOption (snd (PDFDocument_save env options newPdf))
                     "save threw" ;;
                 logEvents
                   [EvDownload ("organized-" ++ name pdfFile0) pdfBytes] ;;;
                 setPdfFile (fun _ => None))
                (fun _ =>
                   logEvents
                     [EvConsoleError "Error processing PDF:";
                      EvAlert "Error processing PDF. Please try again."]))
             (setIsProcessing false))%js st0
    end.

End Saving.

End OrganizeRoute.

(** * The vocabulary of the properties *)

(** ** Reading the events *)

Definition progressCalls (evs : list Event) : list (nat * nat) :=
  flat_map (fun e => match e with
                     | EvProgress c t => [(c, t)]
                     | _ => []
                     end) evs.

Definition saveCalls (evs : list Event) : list (PDFDocument * SaveOptions) :=
  flat_map (fun e => match e with
                     | EvSave d o => [(d, o)]
                     | _ => []
                     end) evs.

Definition embedPngCalls (evs : list Event) : list Uint8Array :=
  flat_map (fun e => match e with
                     | EvEmbedPng b => [b]
                     | _ => []
                     end) evs.

(** The documents opened, by pdf.js or by pdf-lib. *)
Definition openedDocuments (evs : list Event) : list Uint8Array :=
  flat_map (fun e => match e with
                     | EvGetDocument d => [d]
                     | EvLoad d => [d]
                     | _ => []
                     end) evs.

Definition downloads (evs : list Event) : list (string * Uint8Array) :=
  flat_map (fun e => match e with
                     | EvDownload n c => [(n, c)]
                     | _ => []
                     end) evs.

(** The events one turn of the page loop can cause. *)
Definition pageEvent (e : Event) : Prop :=
  match e with
  | EvEmbedJpg _ | EvEmbedPng _ | EvProgress _ _ | EvConsoleError _ => True
  | _ => False
  end.

(** ** What one page contributes *)

(** The image and the dimensions with which the [try] block reaches
    [addPage], if it does: the page is fetched, rendered and encoded, and
    the encoded bytes are embedded. *)
Definition pageResult (env : Collaborators) (settings : CompressionSettings)
  (pdfDocument : PDFDocumentProxy) (pageNum : nat)
  : option (PDFImage * Q * Q) :=
  match getPage pdfDocument pageNum with
  | None => None
  | Some page =>
      match renderAndCompressPage env page settings with
      | Throw _ => None
      | Ok (blob, w, h) =>
          if match format settings with
             | jpeg => embedJpg_accepts env (blob_data blob)
             | png => embedPng_accepts env (blob_data blob)
             end
          then Some ({| image_format := format settings;
                        image_bytes := blob_data blob |}, w, h)
          else None
      end
  end.

Definition pageSucceeds (env : Collaborators) (settings : CompressionSettings)
  (pdfDocument : PDFDocumentProxy) (pageNum : nat) : bool :=
  match pageResult env settings pdfDocument pageNum with
  | Some _ => true
  | None => false
  end.

(** The output page that shows an image at the given dimensions. *)
Definition imagePage (r : PDFImage * Q * Q) : PDFPage :=
  let '(image, w, h) := r in
  {| page_size := (w, h);
     page_rotation := 0;
     page_operators :=
       [DrawObject image
          {| di_x := 0; di_y := 0; di_width := w; di_height := h |}] |}.

(** The results of the pages that succeed, in the order of [pageNums]. *)
Definition pageResults (env : Collaborators) (settings : CompressionSettings)
  (pdfDocument : PDFDocumentProxy) (pageNums : list nat)
  : list (PDFImage * Q * Q) :=
  flat_map (fun p => match pageResult env settings pdfDocument p with
                     | Some r => [r]
                     | None => []
                     end) pageNums.

Definition selectedMode (mode : option CompressionMode) : CompressionMode :=
  match mode with
  | Some m => m
  | None => normal
  end.

(** What the pages [pageNums] do to a state: one image page is appended
    per page that succeeds, progress is reported for exactly those pages,
    and the caller's state keeps a property [Inv] that it had. *)
Definition loopEffect (W : Type) (env : Collaborators)
  (settings : CompressionSettings) (pdfDocument : PDFDocumentProxy)
  (onProgress : option (nat -> nat -> M W unit)) (totalPages : nat)
  (Inv : W -> Prop) (pageNums : list nat) (s s' : CompressState W) : Prop :=
  doc_pages (newPdfDoc s') =
    doc_pages (newPdfDoc s)
    ++ map imagePage (pageResults env settings pdfDocument pageNums)
  /\ doc_images (newPdfDoc s') =
       doc_images (newPdfDoc s)
       ++ map (fun r => fst (fst r))
            (pageResults env settings pdfDocument pageNums)
  /\ (Inv (caller s) -> Inv (caller s'))
  /\ exists evs,
       events s' = events s ++ evs
       /\ Forall pageEvent evs
       /\ progressCalls evs =
            match onProgress with
            | Some _ =>
                map (fun p => (p, totalPages))
                  (filter (pageSucceeds env settings pdfDocument) pageNums)
            | None => []
            end
       /\ (format settings = jpeg -> embedPngCalls evs = []).

(** The document [compressPDF] has built when it calls [save]. *)
Definition compressedDocument (env : Collaborators)
  (mode : option CompressionMode) (pdfDocument : PDFDocumentProxy)
  : PDFDocument :=
  let results :=
    pageResults env (compressionSettings (selectedMode mode)) pdfDocument
      (seq 1 (numPages pdfDocument)) in
  {| doc_images := map (fun r => fst (fst r)) results;
     doc_pages := map imagePage results |}.

Definition compressSaveOptions : SaveOptions :=
  {| useObjectStreams := Some true; addDefaultPage := Some false |}.

(** What [compressPDF] returns or throws for a file; the callback and the
    caller's state have no part in it. *)
Definition compressResult (env : Collaborators) (pdfFile : File)
  (mode : option CompressionMode) : result Uint8Array :=
  fst (run_compressPDF env pdfFile mode
         (@None (nat -> nat -> M unit unit)) tt).

(** A page is rendered and encoded: it is fetched and
    [renderAndCompressPage] returns. *)
Definition rendersAndEncodes (env : Collaborators)
  (settings : CompressionSettings) (pdfDocument : PDFDocumentProxy)
  (pageNum : nat) : bool :=
  match getPage pdfDocument pageNum with
  | None => false
  | Some page =>
      match renderAndCompressPage env page settings with
      | Ok _ => true
      | Throw _ => false
      end
  end.

(** The embedder takes every image the encoder makes of the document. *)
Definition embedderAccepts (env : Collaborators)
  (settings : CompressionSettings) (pdfDocument : PDFDocumentProxy) : Prop :=
  forall pageNum page blob w h,
    getPage pdfDocument pageNum = Some page ->
    renderAndCompressPage env page settings = Ok (blob, w, h) ->
    match format settings with
    | jpeg => embedJpg_accepts env (blob_data blob)
    | png => embedPng_accepts env (blob_data blob)
    end = true.

(** Output page [pg] is the image page made from input page [p]. *)
Definition pageFrom (env : Collaborators) (settings : CompressionSettings)
  (pdfDocument : PDFDocumentProxy) (p : nat) (pg : PDFPage) : Prop :=
  exists r,
    pageResult env settings pdfDocument p = Some r /\ pg = imagePage r.



(** The angles a pending rotation takes. *)
Definition quarterTurn (r : Z) : Prop :=
  r = 0%Z \/ r = 90%Z \/ r = 180%Z \/ r = 270%Z.

(** ** Concrete inputs *)

(** A US-letter page that renders. *)
Definition letterPage : PDFPageProxy :=
  {| getViewport := fun s =>
       {| viewport_width := 612 * s; viewport_height := 792 * s |};
     render := fun _ => true |}.

(** A page whose render promise rejects. *)
Definition brokenPage : PDFPageProxy :=
  {| getViewport := fun s =>
       {| viewport_width := 612 * s; viewport_height := 792 * s |};
     render := fun _ => false |}.

(** Three pages, the second unrenderable. *)
Definition sampleDocument : PDFDocumentProxy :=
  {| numPages := 3;
     getPage := fun n =>
       match n with
       | 1%nat | 3%nat => Some letterPage
       | 2%nat => Some brokenPage
       | _ => None
       end |}.

Definition onePage : PDFPage :=
  {| page_size := (612, 792)%Q; page_rotation := 0;
     page_operators := [RawOperator []] |}.

Definition otherPage : PDFPage :=
  {| page_size := (595, 842)%Q; page_rotation := 90;
     page_operators := [RawOperator [x01]] |}.

(** A browser in which the empty byte buffer is no document, a buffer
    that starts with a zero byte is a document without pages, and every
    other buffer is [sampleDocument] for pdf.js and a two-page document
    for pdf-lib. *)
Definition sampleBrowser : Collaborators :=
  {| getDocument := fun data =>
       match data with
       | [] => None
       | _ => Some sampleDocument
       end;
     canvas_getContext := fun _ => true;
     canvas_toBlob := fun _ _ type _ =>
       Some {| blob_type := type; blob_data := [xff; xd8] |};
     embedJpg_accepts := fun _ => true;
     embedPng_accepts := fun _ => true;
     PDFDocument_load := fun data =>
       match data with
       | [] => None
       | x00 :: _ => Some PDFDocument_create
       | _ => Some {| doc_images := []; doc_pages := [onePage; otherPage] |}
       end;
     serializeToBuffer := fun _ doc =>
       Some (repeat x25 (length (doc_pages doc)));
     Date_now := 1700000000000 |}.

(** [sampleBrowser] without a 2D context: [getContext] answers [null]
    for every canvas, so that no page is rendered. *)
Definition blindBrowser : Collaborators :=
  {| getDocument := getDocument sampleBrowser;
     canvas_getContext := fun _ => false;
     canvas_toBlob := canvas_toBlob sampleBrowser;
     embedJpg_accepts := embedJpg_accepts sampleBrowser;
     embedPng_accepts := embedPng_accepts sampleBrowser;
     PDFDocument_load := PDFDocument_load sampleBrowser;
     serializeToBuffer := serializeToBuffer sampleBrowser;
     Date_now := Date_now sampleBrowser |}.

Definition sampleFile : File :=
  {| file_name := "scan.pdf"; file_size := 1; file_data := [x25] |}.

Definition emptyFile : File :=
  {| file_name := "empty.pdf"; file_size := 0; file_data := [] |}.

(** A file that holds a document without pages, such as the one
    [compressPDF] returns when no page of its input survives. *)
Definition pagelessFile : File :=
  {| file_name := "blank.pdf"; file_size := 1; file_data := [x00] |}.

(** A progress callback that does nothing. *)
Definition ignoreProgress : nat -> nat -> M unit unit := fun _ _ => ret tt.

Module CompressRouteTerms.

Import CompressRoute.

(** The identifier and the status of each entry of the file list. *)
Definition view (l : list PDFFile) : list (string * Status) :=
  map (fun f => (id f, status f)) l.

Definition setView (target : string) (s : Status) (p : string * Status)
  : string * Status :=
  if String.eqb (fst p) target then (fst p, s) else p.

(** The status in which the batch loop leaves a file. *)
Definition finalStatus (env : Collaborators) (currentMode : CompressionMode)
  (f : PDFFile) : Status :=
  match compressResult env (file f) (Some currentMode) with
  | Ok _ => completed
  | Throw _ => error
  end.

(** The download the batch loop offers for a file. *)
Definition offered (env : Collaborators) (currentMode : CompressionMode)
  (f : PDFFile) : list (string * Uint8Array) :=
  match compressResult env (file f) (Some currentMode) with
  | Ok bytes => [(("compressed-" ++ name f)%string, bytes)]
  | Throw _ => []
  end.

(** A batch of two: a file that is no document, then a file that is. *)
Definition sampleBatch : State :=
  {| pdfFiles :=
       [ {| id := "empty.pdf-1"; file := emptyFile; name := "empty.pdf";
            size := 0; compressedSize := None; status := pending;
            progress := None |};
         {| id := "scan.pdf-2"; file := sampleFile; name := "scan.pdf";
            size := 1; compressedSize := None; status := pending;
            progress := None |} ];
     isProcessing := false;
     compressionMode := normal;
     log := [] |}.

Definition wholePercent (current total : nat) : nat :=
  (current * 100 / total)%nat.

(** The identifier and the recorded output size of each entry of the
    file list. *)
Definition sizeView (l : list PDFFile) : list (string * option nat) :=
  map (fun f => (id f, compressedSize f)) l.

(** The output size with which the batch loop leaves a file. *)
Definition finalSize (env : Collaborators) (currentMode : CompressionMode)
  (f : PDFFile) : option nat :=
  match compressResult env (file f) (Some currentMode) with
  | Ok bytes => Some (length bytes)
  | Throw _ => compressedSize f
  end.

(** What one turn of the batch loop, for the file [f], does to an entry
    of [sizeView]. *)
Definition recordSize (env : Collaborators) (currentMode : CompressionMode)
  (f : PDFFile) (p : string * option nat) : string * option nat :=
  match compressResult env (file f) (Some currentMode) with
  | Ok bytes =>
      if String.eqb (fst p) (id f) then (fst p, Some (length bytes)) else p
  | Throw _ => p
  end.

End CompressRouteTerms.

Module MergeRouteTerms.

Import MergeRoute.

(** [save()] without argument. *)
Definition defaultSaveOptions : SaveOptions :=
  {| useObjectStreams := None; addDefaultPage := None |}.

(** Each file loads as the document next to it. *)
Definition loadAs (env : Collaborators) (files : list PDFFile)
  (docs : list PDFDocument) : Prop :=
  Forall2 (fun f d => PDFDocument_load env (file_data (file f)) = Some d)
    files docs.

(** The documents [save] is called on, as it hands them to the writer. *)
Definition writtenDocuments (evs : list Event) : list PDFDocument :=
  map (fun c => prepareForSave (snd c) (fst c)) (saveCalls evs).

(** Two files that load as documents without pages. *)
Definition pagelessSelection : State :=
  {| pdfFiles :=
       [ {| id := "blank.pdf-1"; file := pagelessFile; name := "blank.pdf";
            size := 1 |};
         {| id := "blank.pdf-2"; file := pagelessFile; name := "blank.pdf";
            size := 1 |} ];
     isProcessing := false;
     log := [] |}.

(** Two files that load as two-page documents. *)
Definition sampleSelection : State :=
  {| pdfFiles :=
       [ {| id := "scan.pdf-1"; file := sampleFile; name := "scan.pdf";
            size := 1 |};
         {| id := "scan.pdf-2"; file := sampleFile; name := "scan.pdf";
            size := 1 |} ];
     isProcessing := false;
     log := [] |}.

(** Three files of which the second is no document. *)
Definition brokenSelection : State :=
  {| pdfFiles :=
       [ {| id := "scan.pdf-1"; file := sampleFile; name := "scan.pdf";
            size := 1 |};
         {| id := "empty.pdf-2"; file := emptyFile; name := "empty.pdf";
            size := 0 |};
         {| id := "scan.pdf-3"; file := sampleFile; name := "scan.pdf";
            size := 1 |} ];
     isProcessing := false;
     log := [] |}.

End MergeRouteTerms.

(** A compress route with nothing selected. *)
Definition nothingSelected : CompressRoute.State :=
  {| CompressRoute.pdfFiles := [];
     CompressRoute.isProcessing := false;
     CompressRoute.compressionMode := normal;
     CompressRoute.log := [] |}.

(** A merge route with a single file selected. *)
Definition oneSelected : MergeRoute.State :=
  {| MergeRoute.pdfFiles :=
       [ {| MergeRoute.id := "scan.pdf-1"; MergeRoute.file := sampleFile;
            MergeRoute.name := "scan.pdf"; MergeRoute.size := 1 |} ];
     MergeRoute.isProcessing := false;
     MergeRoute.log := [] |}.

Module RotateRouteTerms.

Import RotateRoute.

Section Reachable.

Variable env : Collaborators.
Variable freshId : File -> string.
Variable generatePreview : File -> option string.

(** The file lists the rotate route can hold: it starts empty, and every
    handler maps one list to the next. *)
Inductive reachable : list PDFFile -> Prop :=
| reach_initial : reachable []
| reach_addFiles files prev :
    reachable prev ->
    reachable (addFiles env freshId generatePreview files prev)
| reach_removeFile target prev :
    reachable prev -> reachable (removeFile target prev)
| reach_rotateFile target direction prev :
    reachable prev -> reachable (rotateFile target direction prev)
| reach_rotateAllFiles direction prev :
    reachable prev -> reachable (rotateAllFiles direction prev)
| reach_resetRotation target prev :
    reachable prev -> reachable (resetRotation target prev)
| reach_resetAllRotations prev :
    reachable prev -> reachable (resetAllRotations prev)
| reach_markStatus target s prev :
    reachable prev -> reachable (markStatus target s prev).

End Reachable.

(** The amount a turn adds before the remainder is taken. *)
Definition turnOf (direction : RotateDirection) : Z :=
  match direction with clockwise => 90 | counterclockwise => -90 end.


(** What [rotatePDF] returns or throws for an entry; the state has no
    part in it. *)
Definition rotateResult (env : Collaborators) (f : PDFFile)
  : result Uint8Array :=
  fst (rotatePDF env f {| pdfFiles := []; isProcessing := false; log := [] |}).

(** The identifier and the status of each entry of the file list. *)
Definition view (l : list PDFFile) : list (string * Status) :=
  map (fun f => (id f, status f)) l.

Definition setView (target : string) (s : Status) (p : string * Status)
  : string * Status :=
  if String.eqb (fst p) target then (fst p, s) else p.

(** The status in which [processRotations] leaves an entry. *)
Definition finalStatus (env : Collaborators) (f : PDFFile) : Status :=
  if (rotation f =? 0)%Z then completed
  else
    match rotateResult env f with
    | Ok _ => completed
    | Throw _ => error
    end.

(** The download [processRotations] offers for an entry. *)
Definition offered (env : Collaborators) (f : PDFFile)
  : list (string * Uint8Array) :=
  if (rotation f =? 0)%Z then []
  else
    match rotateResult env f with
    | Ok bytes => [(("rotated-" ++ name f)%string, bytes)]
    | Throw _ => []
    end.

(** A page turned by a pending rotation. *)
Definition turned (pending : Z) (page : LibPage) : LibPage :=
  {| page_size := page_size page;
     page_rotation := page_rotation page + pending;
     page_operators := page_operators page |}.

(** An unrotated file, a file turned clockwise, and a turned file that is
    no document. *)
Definition rotateSelection : State :=
  {| pdfFiles :=
       [ {| id := "a.pdf-1"; file := sampleFile; name := "a.pdf"; size := 1;
            rotation := 0; status := pending; pageCount := Some 2%nat;
            previewUrl := None |};
         {| id := "b.pdf-2"; file := sampleFile; name := "b.pdf"; size := 1;
            rotation := 90; status := pending; pageCount := Some 2%nat;
            previewUrl := None |};
         {| id := "c.pdf-3"; file := emptyFile; name := "c.pdf"; size := 0;
            rotation := 180; status := pending; pageCount := None;
            previewUrl := None |} ];
     isProcessing := false;
     log := [] |}.

End RotateRouteTerms.

Module OrganizeRouteTerms.

Import OrganizeRoute.

(** The states the organize route can hold: no file, a file with the
    pages [loadPdfFile] made for it, and what the page handlers make of
    these.  [handleAddPages] numbers the new pages by the list of the
    render in which it was started, [d0], and appends them to the list it
    finds when its previews are done, [d]. *)
Inductive reachable : option PDFFileData -> Prop :=
| reach_nothing : reachable None
| reach_loaded d pageId preview pageCount :
    pages d = loadedPages pageId preview pageCount -> reachable (Some d)
| reach_rotatePage pageId direction s :
    reachable s -> reachable (rotatePage pageId direction s)
| reach_deletePage pageId s :
    reachable s -> reachable (deletePage pageId s)
| reach_restorePage pageId s :
    reachable s -> reachable (restorePage pageId s)
| reach_handlePageDrop dragged target s :
    reachable s -> reachable (option_map (reorderPages dragged target) s)
| reach_handleAddPages pageId preview pageCount d0 d newPages :
    reachable (Some d0) ->
    reachable (Some d) ->
    addedPages pageId preview (pages d0) pageCount = Some newPages ->
    reachable (Some (withPages (pages d ++ newPages) d)).

(** The amount a turn adds before the remainder is taken. *)
Definition turnOf (direction : Direction) : Z :=
  match direction with cw => 90 | ccw => -90 end.


(** The active entry [page] is written as [copied]: the original page
    of its number, turned by its pending rotation. *)
Definition writtenAs (originalPdf : PDFDocument) (page : PDFPage)
  (copied : LibPage) : Prop :=
  exists index source,
    pageNumber page = S index
    /\ nth_error (doc_pages originalPdf) index = Some source
    /\ copied = RotateRouteTerms.turned (rotation page) source.

(** The entries [processPDF] writes. *)
Definition activePagesOf (d : PDFFileData) : list PDFPage :=
  filter (fun p => negb (isDeleted p)) (pages d).

(** The events of a [processPDF] that fails after it has opened the
    file. *)
Definition failedSave (d : PDFFileData) : list Event :=
  [EvLoad (file_data (file d));
   EvConsoleError "Error processing PDF:";
   EvAlert "Error processing PDF. Please try again."].

(** The organize route before a file is chosen. *)
Definition emptyRoute : State :=
  {| pdfFile := None; isProcessing := false; draggedPageId := None;
     dragOverPageId := None; log := [] |}.

Definition samplePageId (i : nat) : string :=
  ("page-" ++ Number_toString i)%string.

(** The organize route once [sampleFile] is loaded. *)
Definition loadedRoute : State :=
  snd (loadPdfFile sampleBrowser "scan.pdf-0" samplePageId (fun _ => None)
         sampleFile emptyRoute).

(** [sampleFile] as the organize route holds it, listed with
    [pageCount] pages. *)
Definition scannedFile (pageCount : nat) : PDFFileData :=
  {| file_id := "scan.pdf-0"; file := sampleFile; name := "scan.pdf";
     size := 1; pages := loadedPages samplePageId (fun _ => None) pageCount;
     isLoading := false |}.

(** The organize route with the file [d] and nothing in progress. *)
Definition routeWith (d : option PDFFileData) : State :=
  {| pdfFile := d; isProcessing := false; draggedPageId := None;
     dragOverPageId := None; log := [] |}.

(** [loadedRoute] after its first page is deleted and its second page is
    turned clockwise. *)
Definition editedRoute : State :=
  routeWith (rotatePage "page-2" cw (deletePage "page-1" (pdfFile loadedRoute))).

(** [loadedRoute] after both of its pages are deleted. *)
Definition clearedRoute : State :=
  routeWith (deletePage "page-1" (deletePage "page-2" (pdfFile loadedRoute))).

(** The document pdf-lib reads from [sampleFile]. *)
Definition twoPages : PDFDocument :=
  {| doc_images := []; doc_pages := [onePage; otherPage] |}.

End OrganizeRouteTerms.

(** * Properties *)

(** ** Lists *)

Lemma alter_last (A : Type) (f : A -> A) (l : list A) (a : A) :
  alter f (length l) (l ++ [a]) = l ++ [f a].
Proof.
  induction l as [|b l IH]; simpl; [reflexivity|].
  now rewrite IH.
Qed.

Lemma drawImage_new_page (images : list PDFImage) (pages : list PDFPage)
  (image : PDFImage) (w h : Q) :
  drawImage (length pages) image
    {| di_x := 0; di_y := 0; di_width := w; di_height := h |}
    {| doc_images := images; doc_pages := pages ++ [blankPage (w, h)] |}
  = {| doc_images := images;
       doc_pages := pages ++ [imagePage (image, w, h)] |}.
Proof.
  unfold drawImage; simpl.
  now rewrite alter_last.
Qed.

Lemma progressCalls_app (a b : list Event) :
  progressCalls (a ++ b) = progressCalls a ++ progressCalls b.
Proof. apply flat_map_app. Qed.

Lemma saveCalls_app (a b : list Event) :
  saveCalls (a ++ b) = saveCalls a ++ saveCalls b.
Proof. apply flat_map_app. Qed.

Lemma embedPngCalls_app (a b : list Event) :
  embedPngCalls (a ++ b) = embedPngCalls a ++ embedPngCalls b.
Proof. apply flat_map_app. Qed.

Lemma openedDocuments_app (a b : list Event) :
  openedDocuments (a ++ b) = openedDocuments a ++ openedDocuments b.
Proof. apply flat_map_app. Qed.

Lemma downloads_app (a b : list Event) :
  downloads (a ++ b) = downloads a ++ downloads b.
Proof. apply flat_map_app. Qed.

Lemma pageEvent_saveCalls (evs : list Event) :
  Forall pageEvent evs -> saveCalls evs = [].
Proof.
  induction 1 as [|e evs He _ IH]; [reflexivity|].
  destruct e; simpl in *; try contradiction; exact IH.
Qed.

Lemma pageEvent_openedDocuments (evs : list Event) :
  Forall pageEvent evs -> openedDocuments evs = [].
Proof.
  induction 1 as [|e evs He _ IH]; [reflexivity|].
  destruct e; simpl in *; try contradiction; exact IH.
Qed.

Lemma pageEvent_downloads (evs : list Event) :
  Forall pageEvent evs -> downloads evs = [].
Proof.
  induction 1 as [|e evs He _ IH]; [reflexivity|].
  destruct e; simpl in *; try contradiction; exact IH.
Qed.

(** The two ways a turn of the loop ends: the page was skipped, or it was
    appended. *)
Ltac page_effect :=
  eexists; split; [reflexivity|]; simpl; rewrite ?app_nil_r;
  split; [reflexivity|]; split; [reflexivity|]; split; [now auto|];
  eexists; split; [rewrite <- ?app_assoc; reflexivity|];
  split; [repeat constructor|]; split.

Ltac page_skipped :=
  page_effect;
  [ match goal with
    | |- context [match ?o with Some _ => _ | None => _ end] =>
        destruct o; reflexivity
    | _ => reflexivity
    end
  | intros; try reflexivity; try discriminate ].

Ltac page_appended :=
  page_effect; [reflexivity | intros; try reflexivity; try discriminate].

(** ** The page loop *)

Section PageLoop.

Variable W : Type.
Variable env : Collaborators.
Variable settings : CompressionSettings.
Variable pdfDocument : PDFDocumentProxy.
Variable onProgress : option (nat -> nat -> M W unit).
Variable totalPages : nat.

(** A property of the caller's state that every call of the callback
    keeps. *)
Variable Inv : W -> Prop.
Hypothesis callback_keeps :
  forall callback c t w,
    onProgress = Some callback -> Inv w -> Inv (snd (callback c t w)).

Lemma processPage_effect (pageNum : nat) (s : CompressState W) :
  exists s',
    processPage env settings pdfDocument onProgress totalPages pageNum s
    = (Ok tt, s')
    /\ loopEffect env settings pdfDocument onProgress totalPages Inv
         [pageNum] s s'.
Proof.
  unfold loopEffect, pageResults, pageSucceeds, pageResult, processPage,
    tryCatch, bind, liftOption, lift, ret, throw.
  simpl.
  destruct (getPage pdfDocument pageNum) as [page|]; simpl.
  2:{ page_skipped. }
  destruct (renderAndCompressPage env page settings) as [[[blob w] h]|msg];
    simpl.
  2:{ page_skipped. }
  destruct (format settings) eqn:Hformat; simpl;
    unfold embedJpg, embedPng, bind, emit, onDoc, modify, ret, throw; simpl.
  - destruct (embedJpg_accepts env (blob_data blob)); simpl.
    2:{ page_skipped. }
    unfold newPdfDoc_addPage, callProgress, bind, gets, onDoc, emit, modify,
      ret; simpl.
    rewrite drawImage_new_page.
    destruct onProgress as [callback|] eqn:Hcb; simpl.
    2:{ page_appended. }
    unfold bind, emit, modify; simpl.
    pose proof (callback_keeps pageNum totalPages (w := caller s) eq_refl)
      as Hkeeps.
    destruct (callback pageNum totalPages (caller s)) as [[[]|msg] w'];
      simpl in *; page_appended.
  - destruct (embedPng_accepts env (blob_data blob)); simpl.
    2:{ page_skipped. }
    unfold newPdfDoc_addPage, callProgress, bind, gets, onDoc, emit, modify,
      ret; simpl.
    rewrite drawImage_new_page.
    destruct onProgress as [callback|] eqn:Hcb; simpl.
    2:{ page_appended. }
    unfold bind, emit, modify; simpl.
    pose proof (callback_keeps pageNum totalPages (w := caller s) eq_refl)
      as Hkeeps.
    destruct (callback pageNum totalPages (caller s)) as [[[]|msg] w'];
      simpl in *; page_appended.
Qed.

Lemma loopEffect_app (ps1 ps2 : list nat) (s s1 s2 : CompressState W) :
  loopEffect env settings pdfDocument onProgress totalPages Inv ps1 s s1 ->
  loopEffect env settings pdfDocument onProgress totalPages Inv ps2 s1 s2 ->
  loopEffect env settings pdfDocument onProgress totalPages Inv
    (ps1 ++ ps2) s s2.
Proof.
  intros (Hp1 & Hi1 & Hinv1 & evs1 & He1 & Hf1 & Hc1 & Hn1)
         (Hp2 & Hi2 & Hinv2 & evs2 & He2 & Hf2 & Hc2 & Hn2).
  unfold loopEffect, pageResults in *.
  rewrite flat_map_app, !map_app, !app_assoc, <- Hp1, <- Hi1.
  split; [exact Hp2|]. split; [exact Hi2|]. split; [now auto|].
  exists (evs1 ++ evs2).
  split; [now rewrite app_assoc, <- He1|].
  split; [now apply Forall_app|].
  split.
  - rewrite progressCalls_app, Hc1, Hc2.
    destruct onProgress; [|reflexivity].
    now rewrite filter_app, map_app.
  - intros Hjpeg. now rewrite embedPngCalls_app, Hn1, Hn2.
Qed.

Lemma forEach_processPage (pageNums : list nat) :
  forall s : CompressState W,
  exists s',
    forEach pageNums
      (processPage env settings pdfDocument onProgress totalPages) s
    = (Ok tt, s')
    /\ loopEffect env settings pdfDocument onProgress totalPages Inv
         pageNums s s'.
Proof.
  induction pageNums as [|p ps IH]; intros s.
  - exists s. split; [reflexivity|].
    unfold loopEffect, pageResults; simpl. rewrite !app_nil_r.
    repeat (split; [now auto|]).
    exists []. rewrite app_nil_r.
    repeat (split; [now auto|]).
    split; [destruct onProgress|]; reflexivity.
  - destruct (processPage_effect p s) as (s1 & Hrun1 & Heff1).
    destruct (IH s1) as (s2 & Hrun2 & Heff2).
    exists s2. split.
    + simpl. unfold bind. now rewrite Hrun1.
    + change (p :: ps) with ([p] ++ ps).
      now apply loopEffect_app with s1.
Qed.

End PageLoop.

(** ** [compressPDF] as a whole *)

Lemma jpeg_only (mode : CompressionMode) :
  format (compressionSettings mode) = jpeg.
Proof. destruct mode; reflexivity. Qed.

Section WholeRun.

Variable W : Type.
Variable env : Collaborators.
Variable pdfFile : File.
Variable mode : option CompressionMode.
Variable onProgress : option (nat -> nat -> M W unit).
Variable Inv : W -> Prop.
Hypothesis callback_keeps :
  forall callback c t w,
    onProgress = Some callback -> Inv w -> Inv (snd (callback c t w)).

Lemma run_compressPDF_opened (w : W) (pdfDocument : PDFDocumentProxy) :
  getDocument env (file_data pdfFile) = Some pdfDocument ->
  let settings := compressionSettings (selectedMode mode) in
  let built := compressedDocument env mode pdfDocument in
  exists s' evs,
    run_compressPDF env pdfFile mode onProgress w
    = (match serializeToBuffer env PDFStreamWriter built with
       | Some b => Ok b
       | None => Throw "save threw"
       end, s')
    /\ newPdfDoc s' = built
    /\ (Inv w -> Inv (caller s'))
    /\ events s'
       = EvGetDocument (file_data pdfFile) :: evs
         ++ [EvSave built compressSaveOptions]
    /\ Forall pageEvent evs
    /\ progressCalls evs
       = match onProgress with
         | Some _ =>
             map (fun p => (p, numPages pdfDocument))
               (filter (pageSucceeds env settings pdfDocument)
                  (seq 1 (numPages pdfDocument)))
         | None => []
         end
    /\ embedPngCalls evs = [].
Proof.
  intros Hopen settings built.
  unfold run_compressPDF, compressPDF, bind, emit, onDoc, modify, liftOption.
  simpl. rewrite Hopen. unfold ret at 1. simpl.
  destruct (forEach_processPage env settings pdfDocument
              (numPages pdfDocument) Inv callback_keeps
              (seq 1 (numPages pdfDocument))
              {| caller := w; newPdfDoc := PDFDocument_create;
                 events := [EvGetDocument (file_data pdfFile)] |})
    as (s1 & Hrun & Hpages & Himages & Hinv & evs & Hevs & Hfor & Hprog & Hpng).
  fold settings. unfold selectedMode in settings. fold settings.
  rewrite Hrun. simpl in *.
  assert (Hbuilt : newPdfDoc s1 = built).
  { destruct (newPdfDoc s1) as [imgs pgs]; simpl in *.
    unfold built, compressedDocument. now rewrite Hpages, Himages. }
  unfold newPdfDoc_save, bind, gets, emit, modify, PDFDocument_save,
    prepareForSave, writerFor; simpl.
  rewrite Hbuilt.
  eexists; exists evs.
  split.
  { destruct (serializeToBuffer env PDFStreamWriter built); reflexivity. }
  simpl. split; [reflexivity|]. split; [exact Hinv|].
  split; [now rewrite Hevs|].
  split; [exact Hfor|]. split; [exact Hprog|].
  apply Hpng. apply jpeg_only.
Qed.

Lemma run_compressPDF_unopened (w : W) :
  getDocument env (file_data pdfFile) = None ->
  run_compressPDF env pdfFile mode onProgress w
  = (Throw "getDocument rejected",
     {| caller := w; newPdfDoc := PDFDocument_create;
        events := [EvGetDocument (file_data pdfFile)] |}).
Proof.
  intros Hopen.
  unfold run_compressPDF, compressPDF, bind, emit, modify, liftOption.
  simpl. now rewrite Hopen.
Qed.

End WholeRun.

(** ** Surviving pages *)

Section Surviving.

Variable env : Collaborators.
Variable settings : CompressionSettings.
Variable pdfDocument : PDFDocumentProxy.

Lemma pageResults_survivors (pageNums : list nat) :
  Forall2 (pageFrom env settings pdfDocument)
    (filter (pageSucceeds env settings pdfDocument) pageNums)
    (map imagePage (pageResults env settings pdfDocument pageNums)).
Proof.
  unfold pageResults, pageSucceeds.
  induction pageNums as [|p ps IH]; simpl; [constructor|].
  destruct (pageResult env settings pdfDocument p) as [r|] eqn:Hr; simpl.
  - constructor; [|exact IH]. exists r. now split.
  - exact IH.
Qed.

Lemma pageResults_length (pageNums : list nat) :
  length (pageResults env settings pdfDocument pageNums)
  = length (filter (pageSucceeds env settings pdfDocument) pageNums).
Proof.
  unfold pageResults, pageSucceeds.
  induction pageNums as [|p ps IH]; simpl; [reflexivity|].
  destruct (pageResult env settings pdfDocument p); simpl; now rewrite IH.
Qed.

Lemma pageResults_all (pageNums : list nat) :
  (forall p, In p pageNums -> pageSucceeds env settings pdfDocument p = true) ->
  filter (pageSucceeds env settings pdfDocument) pageNums = pageNums.
Proof.
  intros Hall. induction pageNums as [|p ps IH]; simpl; [reflexivity|].
  rewrite Hall by now left.
  f_equal. apply IH. intros q Hq. apply Hall. now right.
Qed.

Lemma pageSucceeds_rendersAndEncodes :
  embedderAccepts env settings pdfDocument ->
  forall p,
    pageSucceeds env settings pdfDocument p
    = rendersAndEncodes env settings pdfDocument p.
Proof.
  intros Hacc p. unfold pageSucceeds, pageResult, rendersAndEncodes.
  destruct (getPage pdfDocument p) as [page|] eqn:Hpage; [|reflexivity].
  destruct (renderAndCompressPage env page settings) as [[[blob w] h]|]
    eqn:Hrender; [|reflexivity].
  now rewrite (Hacc p page blob w h Hpage Hrender).
Qed.

Lemma pageResults_In (pageNums : list nat) (r : PDFImage * Q * Q) :
  In r (pageResults env settings pdfDocument pageNums) ->
  exists p, In p pageNums /\ pageResult env settings pdfDocument p = Some r.
Proof.
  unfold pageResults. rewrite in_flat_map.
  intros (p & Hp & Hr). exists p. split; [exact Hp|].
  destruct (pageResult env settings pdfDocument p) as [r'|]; simpl in Hr.
  - destruct Hr as [->|[]]. reflexivity.
  - contradiction.
Qed.

End Surviving.

Lemma filter_ext_length (A : Type) (f g : A -> bool) (l : list A) :
  (forall a, f a = g a) -> length (filter f l) = length (filter g l).
Proof.
  intros Hfg. induction l as [|a l IH]; simpl; [reflexivity|].
  rewrite Hfg. destruct (g a); simpl; now rewrite IH.
Qed.

Lemma seq_increasing (start len : nat) : StronglySorted lt (seq start len).
Proof.
  revert start. induction len as [|len IH]; intros start; simpl.
  - constructor.
  - constructor; [apply IH|].
    apply Forall_forall. intros x Hx. apply in_seq in Hx. lia.
Qed.

Lemma filter_increasing (f : nat -> bool) (l : list nat) :
  StronglySorted lt l -> StronglySorted lt (filter f l).
Proof.
  induction 1 as [|a l Hsorted IH Hall]; simpl; [constructor|].
  destruct (f a); [|exact IH].
  constructor; [exact IH|].
  apply Forall_forall. intros x Hx. apply filter_In in Hx.
  rewrite Forall_forall in Hall. now apply Hall.
Qed.

(** ** The claims about [compressPDF] *)

(** C1.  For an input that opens as an N-page document, the document
    [compressPDF] serialises holds one image page for each input page
    whose processing reaches the append, in the order of the input pages:
    N - K pages when K pages fail, N pages when none fails.  A page that
    fails is one that is not fetched, rendered, encoded or embedded; when
    the embedder takes every encoded image, these are the pages that fail
    in the render or encode step. *)
Theorem compressPDF_keeps_surviving_pages_in_order :
  forall (W : Type) (env : Collaborators) (pdfFile : File)
         (mode : option CompressionMode)
         (onProgress : option (nat -> nat -> M W unit)) (w : W)
         (pdfDocument : PDFDocumentProxy),
    getDocument env (file_data pdfFile) = Some pdfDocument ->
    let settings := compressionSettings (selectedMode mode) in
    let N := numPages pdfDocument in
    let run := run_compressPDF env pdfFile mode onProgress w in
    let output := newPdfDoc (snd run) in
    let survives := pageSucceeds env settings pdfDocument in
    let K := length (filter (fun p => negb (survives p)) (seq 1 N)) in
    Forall2 (pageFrom env settings pdfDocument)
      (filter survives (seq 1 N)) (doc_pages output)
    /\ length (doc_pages output) = (N - K)%nat
    /\ ((forall p, In p (seq 1 N) -> survives p = true) ->
        length (doc_pages output) = N)
    /\ (embedderAccepts env settings pdfDocument ->
        length (doc_pages output)
        = (N - length
                 (filter
                    (fun p =>
                       negb (rendersAndEncodes env settings pdfDocument p))
                    (seq 1 N)))%nat)
    /\ fst run
       = match serializeToBuffer env PDFStreamWriter output with
         | Some b => Ok b
         | None => Throw "save threw"
         end.
Proof.
  intros W env pdfFile mode onProgress w pdfDocument Hopen
    settings N run output survives K.
  destruct (@run_compressPDF_opened W env pdfFile mode onProgress
              (fun _ => True) (fun _ _ _ _ _ _ => I) w pdfDocument Hopen)
    as (s' & evs & Hrun & Hdoc & _).
  assert (Houtput : doc_pages output
                    = map imagePage
                        (pageResults env settings pdfDocument (seq 1 N))).
  { unfold output, run. rewrite Hrun. simpl. now rewrite Hdoc. }
  assert (Hlen : length (doc_pages output) = length (filter survives (seq 1 N))).
  { rewrite Houtput, length_map. apply pageResults_length. }
  assert (Hsplit : (length (filter survives (seq 1 N)) + K = N)%nat).
  { unfold K. rewrite filter_length. apply length_seq. }
  split; [rewrite Houtput; apply pageResults_survivors|].
  split; [lia|].
  split.
  { intros Hall. rewrite Hlen.
    unfold survives. rewrite pageResults_all by exact Hall.
    apply length_seq. }
  split.
  { intros Hacc.
    rewrite <- (filter_ext_length
                  (fun p => negb (survives p))
                  (fun p => negb (rendersAndEncodes env settings pdfDocument p))).
    - fold K. lia.
    - intros p. unfold survives.
      now rewrite pageSucceeds_rendersAndEncodes. }
  unfold output, run. rewrite Hrun. simpl. now rewrite Hdoc.
Qed.

Lemma compressPDF_keeps_surviving_pages_in_order_witness :
  length
    (doc_pages
       (newPdfDoc
          (snd (run_compressPDF sampleBrowser sampleFile (Some extreme)
                  (Some ignoreProgress) tt))))
  = (3 - 1)%nat.
Proof.
  exact (proj1 (proj2
           (compressPDF_keeps_surviving_pages_in_order sampleBrowser
              sampleFile (Some extreme) (Some ignoreProgress) tt
              (pdfDocument := sampleDocument) eq_refl))).
Defined.

(** C2, as stated, fails: on the three-page [sampleDocument], whose second
    page does not render, the callback is invoked twice, for pages 1 and
    3, and not three times. *)
Lemma progress_skips_failed_page :
  let calls :=
    progressCalls
      (events
         (snd (run_compressPDF sampleBrowser sampleFile (Some normal)
                 (Some ignoreProgress) tt))) in
  getDocument sampleBrowser (file_data sampleFile) = Some sampleDocument
  /\ numPages sampleDocument = 3%nat
  /\ calls = [(1, 3); (3, 3)]%nat
  /\ length calls <> numPages sampleDocument.
Proof.
  vm_compute. repeat split; discriminate.
Qed.

(** C2, amended.  For an input that opens as an N-page document and a
    caller that passes a callback, the callback is invoked once for each
    page whose processing reaches the end of the [try] block, and for no
    other page: N - K times when K pages fail, and N times, for 1 to N,
    when none fails.  The current-page arguments increase strictly and lie
    between 1 and N, the total-pages argument is N every time, and every
    invocation precedes the call of [save], which is the last event. *)
Theorem compressPDF_progress_per_surviving_page :
  forall (W : Type) (env : Collaborators) (pdfFile : File)
         (mode : option CompressionMode)
         (callback : nat -> nat -> M W unit) (w : W)
         (pdfDocument : PDFDocumentProxy),
    getDocument env (file_data pdfFile) = Some pdfDocument ->
    let settings := compressionSettings (selectedMode mode) in
    let N := numPages pdfDocument in
    let survives := pageSucceeds env settings pdfDocument in
    let evs :=
      events (snd (run_compressPDF env pdfFile mode (Some callback) w)) in
    let calls := progressCalls evs in
    calls = map (fun p => (p, N)) (filter survives (seq 1 N))
    /\ length calls
       = (N - length (filter (fun p => negb (survives p)) (seq 1 N)))%nat
    /\ ((forall p, In p (seq 1 N) -> survives p = true) ->
        calls = map (fun p => (p, N)) (seq 1 N))
    /\ StronglySorted lt (map fst calls)
    /\ Forall (fun c => (1 <= fst c <= N)%nat /\ snd c = N) calls
    /\ exists before doc options,
         evs = before ++ [EvSave doc options]
         /\ saveCalls before = []
         /\ progressCalls before = calls.
Proof.
  intros W env pdfFile mode callback w pdfDocument Hopen
    settings N survives evs calls.
  destruct (@run_compressPDF_opened W env pdfFile mode (Some callback)
              (fun _ => True) (fun _ _ _ _ _ _ => I) w pdfDocument Hopen)
    as (s' & pageEvs & Hrun & _ & _ & Hevs & Hfor & Hprog & _).
  assert (Hcalls : calls = map (fun p => (p, N)) (filter survives (seq 1 N))).
  { unfold calls, evs. rewrite Hrun. simpl. rewrite Hevs.
    change (EvGetDocument (file_data pdfFile) :: pageEvs ++ ?l)
      with ([EvGetDocument (file_data pdfFile)] ++ pageEvs ++ l).
    rewrite !progressCalls_app, Hprog. simpl. now rewrite app_nil_r. }
  split; [exact Hcalls|].
  split.
  { rewrite Hcalls, length_map.
    pose proof (filter_length survives (seq 1 N)) as Hsplit.
    rewrite length_seq in Hsplit. lia. }
  split.
  { intros Hall. rewrite Hcalls. unfold survives.
    now rewrite pageResults_all by exact Hall. }
  split.
  { rewrite Hcalls, map_map. simpl. rewrite map_id.
    apply filter_increasing, seq_increasing. }
  split.
  { rewrite Hcalls. apply Forall_forall. intros c Hc.
    apply in_map_iff in Hc. destruct Hc as (p & <- & Hp).
    apply filter_In in Hp. destruct Hp as [Hp _].
    apply in_seq in Hp. simpl. split; [lia|reflexivity]. }
  exists (EvGetDocument (file_data pdfFile) :: pageEvs).
  eexists. eexists.
  split; [unfold evs; rewrite Hrun; simpl; rewrite Hevs; reflexivity|].
  split.
  { simpl. now apply pageEvent_saveCalls. }
  rewrite Hcalls. simpl. exact Hprog.
Qed.

Lemma compressPDF_progress_per_surviving_page_witness :
  progressCalls
    (events
       (snd (run_compressPDF sampleBrowser sampleFile (Some normal)
               (Some ignoreProgress) tt)))
  = [(1, 3); (3, 3)]%nat.
Proof.
  exact (proj1
           (compressPDF_progress_per_surviving_page sampleBrowser sampleFile
              (Some normal) ignoreProgress tt
              (pdfDocument := sampleDocument) eq_refl)).
Defined.







(** C7.  Every call of [save] that [compressPDF] makes passes
    [useObjectStreams: true] and [addDefaultPage: false]: the object-stream
    writer serialises the document, and the document serialised is the
    document built, with no page added, also when it has no page.  A
    document that opens is saved exactly once. *)
Theorem compressPDF_save_options :
  forall (W : Type) (env : Collaborators) (pdfFile : File)
         (mode : option CompressionMode)
         (onProgress : option (nat -> nat -> M W unit)) (w : W),
    let run := run_compressPDF env pdfFile mode onProgress w in
    let calls := saveCalls (events (snd run)) in
    Forall
      (fun c =>
         useObjectStreams (snd c) = Some true
         /\ addDefaultPage (snd c) = Some false
         /\ writerFor (snd c) = PDFStreamWriter
         /\ prepareForSave (snd c) (fst c) = fst c
         /\ newPdfDoc (snd run) = fst c
         /\ fst run
            = match serializeToBuffer env PDFStreamWriter (fst c) with
              | Some b => Ok b
              | None => Throw "save threw"
              end)
      calls
    /\ (forall pdfDocument,
          getDocument env (file_data pdfFile) = Some pdfDocument ->
          length calls = 1%nat
          /\ ((forall p, In p (seq 1 (numPages pdfDocument)) ->
                 pageSucceeds env (compressionSettings (selectedMode mode))
                   pdfDocument p = false) ->
              doc_pages (newPdfDoc (snd run)) = [])).
Proof.
  intros W env pdfFile mode onProgress w run calls.
  destruct (getDocument env (file_data pdfFile)) as [pdfDocument|] eqn:Hopen.
  - destruct (@run_compressPDF_opened W env pdfFile mode onProgress
                (fun _ => True) (fun _ _ _ _ _ _ => I) w pdfDocument Hopen)
      as (s' & evs & Hrun & Hdoc & _ & Hevs & Hfor & _).
    assert (Hcalls : calls
                     = [(compressedDocument env mode pdfDocument,
                         compressSaveOptions)]).
    { unfold calls, run. rewrite Hrun. simpl. rewrite Hevs.
      change (EvGetDocument (file_data pdfFile) :: evs ++ ?l)
        with ([EvGetDocument (file_data pdfFile)] ++ evs ++ l).
      rewrite !saveCalls_app, (pageEvent_saveCalls Hfor). reflexivity. }
    split.
    + rewrite Hcalls. constructor; [|constructor]. simpl.
      unfold run. rewrite Hrun. simpl.
      repeat (split; [reflexivity|]). split; [exact Hdoc|reflexivity].
    + intros d Hd. injection Hd as <-.
      split; [now rewrite Hcalls|].
      intros Hnone. unfold run. rewrite Hrun. simpl. rewrite Hdoc.
      unfold compressedDocument. simpl.
      replace (pageResults env (compressionSettings (selectedMode mode))
                 pdfDocument (seq 1 (numPages pdfDocument)))
        with (@nil (PDFImage * Q * Q)); [reflexivity|].
      symmetry. apply length_zero_iff_nil.
      rewrite pageResults_length.
      apply length_zero_iff_nil.
      induction (seq 1 (numPages pdfDocument)) as [|p ps IH];
        [reflexivity|].
      simpl. rewrite Hnone by now left.
      apply IH. intros q Hq. apply Hnone. now right.
  - split.
    + unfold calls, run. rewrite run_compressPDF_unopened by exact Hopen.
      constructor.
    + intros d Hd. discriminate.
Qed.

Lemma compressPDF_save_options_witness :
  length
    (saveCalls
       (events
          (snd (run_compressPDF sampleBrowser sampleFile (Some less)
                  (Some ignoreProgress) tt))))
  = 1%nat
  /\ doc_pages
       (newPdfDoc
          (snd (run_compressPDF sampleBrowser emptyFile (Some less)
                  (Some ignoreProgress) tt)))
     = [].
Proof.
  split; [|reflexivity].
  exact (proj1 (proj2
           (compressPDF_save_options sampleBrowser sampleFile (Some less)
              (Some ignoreProgress) tt)
           sampleDocument eq_refl)).
Defined.

(** C10.  Every preset's format is JPEG, so a run of [compressPDF] never
    calls [embedPng], whatever the input and the collaborators do: every
    image of the output is a JPEG image, and the canvas is encoded as
    [image/jpeg]. *)
Theorem compressPDF_never_embeds_png :
  (forall mode : CompressionMode,
     format (compressionSettings mode) = jpeg
     /\ mimeType (format (compressionSettings mode)) = "image/jpeg"%string)
  /\ forall (W : Type) (env : Collaborators) (pdfFile : File)
            (mode : option CompressionMode)
            (onProgress : option (nat -> nat -> M W unit)) (w : W),
       let s := snd (run_compressPDF env pdfFile mode onProgress w) in
       embedPngCalls (events s) = []
       /\ Forall (fun image => image_format image = jpeg)
            (doc_images (newPdfDoc s)).
Proof.
  split; [intros mode; now destruct mode|].
  intros W env pdfFile mode onProgress w s.
  destruct (getDocument env (file_data pdfFile)) as [pdfDocument|] eqn:Hopen.
  - destruct (@run_compressPDF_opened W env pdfFile mode onProgress
                (fun _ => True) (fun _ _ _ _ _ _ => I) w pdfDocument Hopen)
      as (s' & evs & Hrun & Hdoc & _ & Hevs & _ & _ & Hpng).
    unfold s. rewrite Hrun. simpl. split.
    + rewrite Hevs.
      change (EvGetDocument (file_data pdfFile) :: evs ++ ?l)
        with ([EvGetDocument (file_data pdfFile)] ++ evs ++ l).
      now rewrite !embedPngCalls_app, Hpng.
    + rewrite Hdoc. simpl. apply Forall_forall. intros image Himage.
      apply in_map_iff in Himage. destruct Himage as (r & <- & Hr).
      apply pageResults_In in Hr. destruct Hr as (p & _ & Hres).
      unfold pageResult in Hres.
      destruct (getPage pdfDocument p) as [page|]; [|discriminate].
      destruct (renderAndCompressPage env page
                  (compressionSettings (selectedMode mode)))
        as [[[blob wd] ht]|]; [|discriminate].
      destruct (match format (compressionSettings (selectedMode mode)) with
                | jpeg => embedJpg_accepts env (blob_data blob)
                | png => embedPng_accepts env (blob_data blob)
                end); [|discriminate].
      injection Hres as <-. simpl. apply jpeg_only.
  - unfold s. rewrite run_compressPDF_unopened by exact Hopen.
    simpl. split; [reflexivity|constructor].
Qed.

(** C3.  The preset table is a constant function of the mode.  In every
    preset the scale lies in (0,1] and the quality in [0,1]; two presets
    agree on either knob only if they are the same preset, so that
    changing the preset changes both knobs, and a preset with the smaller scale
    has the smaller quality; the format is the lossy one throughout.
    'extreme' is scale 0.5, JPEG, quality 0.3.  The options the route
    offers are the three modes, each showing its preset's quality. *)
Theorem presets_fix_both_knobs :
  (forall mode : CompressionMode,
     let s := compressionSettings mode in
     (0 < scale s /\ scale s <= 1
      /\ 0 <= imageQuality s /\ imageQuality s <= 1)%Q
     /\ format s = jpeg)
  /\ compressionSettings extreme
     = {| imageQuality := 0.3; scale := 0.5; format := jpeg |}
  /\ (forall m1 m2 : CompressionMode,
        ((scale (compressionSettings m1) == scale (compressionSettings m2))%Q
         <-> m1 = m2)
        /\ ((imageQuality (compressionSettings m1)
             == imageQuality (compressionSettings m2))%Q
            <-> m1 = m2))
  /\ (forall m1 m2 : CompressionMode,
        (scale (compressionSettings m1) < scale (compressionSettings m2)
         <-> imageQuality (compressionSettings m1)
             < imageQuality (compressionSettings m2))%Q)
  /\ map CompressRoute.mode CompressRoute.compressionOptions
     = [extreme; normal; less]
  /\ Forall
       (fun o =>
          CompressRoute.option_imageQuality o
          = imageQuality (compressionSettings (CompressRoute.mode o)))
       CompressRoute.compressionOptions.
Proof.
  split.
  { intros mode; destruct mode; simpl; unfold Qlt, Qle; simpl;
      repeat split; lia. }
  split; [reflexivity|].
  split.
  { intros m1 m2; destruct m1, m2; unfold Qeq; simpl;
      repeat split; intros H; try reflexivity; try discriminate H. }
  split.
  { intros m1 m2; destruct m1, m2; unfold Qlt; simpl; split; lia. }
  split; [reflexivity|].
  repeat constructor.
Qed.

(** ** The batch loop of the compress route *)

Lemma compressPDF_result_independent (W : Type) (env : Collaborators)
  (pdfFile : File) (mode : option CompressionMode)
  (onProgress : option (nat -> nat -> M W unit)) (w : W) :
  fst (run_compressPDF env pdfFile mode onProgress w)
  = compressResult env pdfFile mode.
Proof.
  unfold compressResult.
  destruct (getDocument env (file_data pdfFile)) as [pdfDocument|] eqn:Hopen.
  - destruct (@run_compressPDF_opened W env pdfFile mode onProgress
                (fun _ => True) (fun _ _ _ _ _ _ => I) w pdfDocument Hopen)
      as (s1 & evs1 & Hrun1 & _).
    destruct (@run_compressPDF_opened unit env pdfFile mode None
                (fun _ => True) (fun _ _ _ _ _ _ => I) tt pdfDocument Hopen)
      as (s2 & evs2 & Hrun2 & _).
    now rewrite Hrun1, Hrun2.
  - now rewrite !run_compressPDF_unopened by exact Hopen.
Qed.

Module CompressRouteFacts.

Import CompressRoute CompressRouteTerms.

Lemma view_withStatus (target : string) (s : Status) (l : list PDFFile) :
  view (mapMatching target (withStatus s) l) = map (setView target s) (view l).
Proof.
  unfold view, mapMatching, setView. rewrite !map_map.
  apply map_ext. intros f. simpl. now destruct (String.eqb (id f) target).
Qed.

Lemma view_withCompleted (target : string) (n : nat) (l : list PDFFile) :
  view (mapMatching target (withCompleted n) l)
  = map (setView target completed) (view l).
Proof.
  unfold view, mapMatching, setView. rewrite !map_map.
  apply map_ext. intros f. simpl. now destruct (String.eqb (id f) target).
Qed.

Lemma view_withProgress (target : string) (n : nat) (l : list PDFFile) :
  view (mapMatching target (withProgress n) l) = view l.
Proof.
  unfold view, mapMatching. rewrite !map_map.
  apply map_ext. intros f. now destruct (String.eqb (id f) target).
Qed.

Lemma setView_twice (target : string) (s1 s2 : Status)
  (v : list (string * Status)) :
  map (setView target s2) (map (setView target s1) v)
  = map (setView target s2) v.
Proof.
  rewrite map_map. apply map_ext. intros [i s]. unfold setView. simpl.
  destruct (String.eqb i target) eqn:Hi; simpl; now rewrite Hi.
Qed.

Lemma setView_same (target : string) (s s0 : Status) :
  setView target s (target, s0) = (target, s).
Proof. unfold setView. simpl. now rewrite String.eqb_refl. Qed.

Lemma setView_other (target : string) (s : Status) (l : list PDFFile)
  (g : PDFFile -> string * Status) :
  (forall f, fst (g f) = id f) ->
  ~ In target (map id l) ->
  map (setView target s) (map g l) = map g l.
Proof.
  intros Hg Hnot. rewrite map_map. apply map_ext_in. intros f Hf.
  unfold setView. rewrite Hg.
  destruct (String.eqb_spec (id f) target) as [Heq|]; [|reflexivity].
  exfalso. apply Hnot. rewrite <- Heq. now apply in_map.
Qed.

Section Batch.

Variable env : Collaborators.
Variable percent : nat -> nat -> nat.
Variable currentMode : CompressionMode.

Lemma handleCompressPDF_effect (pdfFile : PDFFile) (st : State) :
  exists st' evs,
    handleCompressPDF env percent currentMode pdfFile st
    = (compressResult env (file pdfFile) (Some currentMode), st')
    /\ view (pdfFiles st') = view (pdfFiles st)
    /\ isProcessing st' = isProcessing st
    /\ compressionMode st' = compressionMode st
    /\ log st' = log st ++ evs
    /\ openedDocuments evs = [file_data (file pdfFile)]
    /\ downloads evs = [].
Proof.
  unfold handleCompressPDF.
  set (callback := fun current total : nat =>
                     setPdfFiles
                       (mapMatching (id pdfFile)
                          (withProgress (percent current total)))).
  set (Inv := fun w : State =>
                view (pdfFiles w) = view (pdfFiles st)
                /\ isProcessing w = isProcessing st
                /\ compressionMode w = compressionMode st
                /\ log w = log st).
  assert (Hkeeps : forall cb c t w,
             Some callback = Some cb -> Inv w -> Inv (snd (cb c t w))).
  { intros cb c t w Hcb (Hv & Hp & Hm & Hl). injection Hcb as <-.
    unfold Inv, callback, setPdfFiles, modify. simpl.
    now rewrite view_withProgress. }
  pose proof (compressPDF_result_independent env (file pdfFile)
                (Some currentMode) (Some callback) st) as Hresult.
  destruct (getDocument env (file_data (file pdfFile))) as [pdfDocument|]
    eqn:Hopen.
  - destruct (@run_compressPDF_opened State env (file pdfFile)
                (Some currentMode) (Some callback) Inv Hkeeps st pdfDocument
                Hopen)
      as (cs & evs & Hrun & _ & Hinv & Hevs & Hfor & _).
    rewrite Hrun in *. simpl in Hresult.
    destruct Hinv as (Hv & Hp & Hm & Hl); [now repeat split|].
    unfold logEvents, modify. simpl.
    eexists. exists (events cs).
    split; [now rewrite Hresult|]. simpl.
    repeat (split; [assumption|]).
    split; [now rewrite Hl|].
    rewrite Hevs.
    change (EvGetDocument ?d :: evs ++ ?l) with ([EvGetDocument d] ++ evs ++ l).
    rewrite !openedDocuments_app, !downloads_app.
    rewrite (pageEvent_openedDocuments Hfor), (pageEvent_downloads Hfor).
    now split.
  - rewrite run_compressPDF_unopened in * by exact Hopen.
    simpl in Hresult. unfold logEvents, modify. simpl.
    eexists. eexists.
    split; [now rewrite Hresult|]. simpl.
    repeat (split; [reflexivity|]). now split.
Qed.

Lemma compressOne_effect (pdfFile : PDFFile) (st : State) :
  exists st',
    compressOne env percent currentMode pdfFile st = (Ok tt, st')
    /\ view (pdfFiles st')
       = map (setView (id pdfFile) (finalStatus env currentMode pdfFile))
           (view (pdfFiles st))
    /\ isProcessing st' = isProcessing st
    /\ compressionMode st' = compressionMode st
    /\ openedDocuments (log st')
       = openedDocuments (log st) ++ [file_data (file pdfFile)]
    /\ downloads (log st')
       = downloads (log st) ++ offered env currentMode pdfFile.
Proof.
  unfold compressOne, bind, tryCatch, setPdfFiles, logEvents, modify. simpl.
  match goal with
  | |- context [handleCompressPDF env percent currentMode pdfFile ?s] =>
      destruct (handleCompressPDF_effect pdfFile s)
        as (st1 & evs & Hrun & Hv & Hp & Hm & Hl & Ho & Hd)
  end.
  rewrite Hrun. simpl in *.
  unfold finalStatus, offered.
  destruct (compressResult env (file pdfFile) (Some currentMode))
    as [bytes|msg]; simpl;
    (eexists; split; [reflexivity|]; simpl;
     rewrite ?view_withCompleted, ?view_withStatus, Hv, view_withStatus,
       setView_twice, Hl;
     rewrite <- ?app_assoc, !openedDocuments_app, !downloads_app, Ho, Hd;
     simpl; rewrite ?app_nil_r;
     repeat (split; [first [reflexivity | assumption]|]); reflexivity).
Qed.

Lemma forEach_compressOne (todo : list PDFFile) :
  forall st : State,
  exists st',
    forEach todo (compressOne env percent currentMode) st = (Ok tt, st')
    /\ view (pdfFiles st')
       = fold_left
           (fun v f =>
              map (setView (id f) (finalStatus env currentMode f)) v)
           todo (view (pdfFiles st))
    /\ isProcessing st' = isProcessing st
    /\ compressionMode st' = compressionMode st
    /\ openedDocuments (log st')
       = openedDocuments (log st) ++ map (fun f => file_data (file f)) todo
    /\ downloads (log st')
       = downloads (log st) ++ flat_map (offered env currentMode) todo.
Proof.
  induction todo as [|f rest IH]; intros st.
  - exists st. simpl. rewrite !app_nil_r. now repeat split.
  - destruct (compressOne_effect f st)
      as (st1 & Hrun1 & Hv1 & Hp1 & Hm1 & Ho1 & Hd1).
    destruct (IH st1) as (st2 & Hrun2 & Hv2 & Hp2 & Hm2 & Ho2 & Hd2).
    exists st2. simpl. unfold bind. rewrite Hrun1.
    split; [exact Hrun2|].
    rewrite Hv2, Hv1, Hp2, Hp1, Hm2, Hm1, Ho2, Ho1, Hd2, Hd1.
    rewrite <- !app_assoc. now repeat split.
Qed.

Lemma fold_setView_distinct (todo : list PDFFile) :
  forall done : list PDFFile,
    NoDup (map id (done ++ todo)) ->
    fold_left
      (fun v f => map (setView (id f) (finalStatus env currentMode f)) v)
      todo
      (map (fun f => (id f, finalStatus env currentMode f)) done ++ view todo)
    = map (fun f => (id f, finalStatus env currentMode f)) (done ++ todo).
Proof.
  induction todo as [|f rest IH]; intros done Hdistinct.
  - simpl. now rewrite !app_nil_r.
  - simpl.
    rewrite map_app in Hdistinct. simpl in Hdistinct.
    pose proof (NoDup_remove_2 _ _ _ Hdistinct) as Hfresh.
    rewrite in_app_iff in Hfresh.
    rewrite map_app. simpl.
    rewrite setView_same.
    rewrite (@setView_other (id f) (finalStatus env currentMode f) done
               (fun f => (id f, finalStatus env currentMode f)))
      by (try reflexivity; tauto).
    unfold view.
    rewrite (@setView_other (id f) (finalStatus env currentMode f) rest
               (fun f => (id f, status f)))
      by (try reflexivity; tauto).
    fold (view rest).
    replace (done ++ f :: rest) with ((done ++ [f]) ++ rest)
      by now rewrite <- app_assoc.
    rewrite <- IH.
    + now rewrite map_app, <- app_assoc.
    + now rewrite <- app_assoc, map_app.
Qed.

End Batch.

(** What the batch loop does to a list of files. *)
Lemma compressPDFs_batch_effect :
  forall (env : Collaborators) (percent : nat -> nat -> nat) (st : State),
    let currentMode := compressionMode st in
    let after := snd (compressPDFs env percent st) in
    fst (compressPDFs env percent st) = Ok tt
    /\ openedDocuments (log after)
       = openedDocuments (log st)
         ++ map (fun f => file_data (file f)) (pdfFiles st)
    /\ downloads (log after)
       = downloads (log st) ++ flat_map (offered env currentMode) (pdfFiles st)
    /\ (forall f e,
          compressResult env (file f) (Some currentMode) = Throw e ->
          offered env currentMode f = [])
    /\ (NoDup (map id (pdfFiles st)) ->
        map id (pdfFiles after) = map id (pdfFiles st)
        /\ map status (pdfFiles after)
           = map (finalStatus env currentMode) (pdfFiles st)
        /\ forall i f e,
             nth_error (pdfFiles st) i = Some f ->
             compressResult env (file f) (Some currentMode) = Throw e ->
             exists f',
               nth_error (pdfFiles after) i = Some f'
               /\ id f' = id f /\ status f' = error).
Proof.
  intros env percent st currentMode after.
  subst currentMode after.
  set (currentMode := compressionMode st).
  set (after := snd (compressPDFs env percent st)).
  assert (Hmain :
            fst (compressPDFs env percent st) = Ok tt
            /\ openedDocuments (log after)
               = openedDocuments (log st)
                 ++ map (fun f => file_data (file f)) (pdfFiles st)
            /\ downloads (log after)
               = downloads (log st)
                 ++ flat_map (offered env currentMode) (pdfFiles st)
            /\ (NoDup (map id (pdfFiles st)) ->
                view (pdfFiles after)
                = map (fun f => (id f, finalStatus env currentMode f))
                    (pdfFiles st))).
  { unfold after, currentMode, compressPDFs.
    destruct (pdfFiles st) as [|f0 rest] eqn:Hfiles.
    - simpl. rewrite Hfiles. simpl.
      rewrite openedDocuments_app, downloads_app. simpl.
      now rewrite !app_nil_r.
    - cbn [length Nat.eqb].
      unfold bind, tryFinally, setIsProcessing, modify. cbn beta iota.
      match goal with
      | |- context [forEach ?l ?body ?s] =>
          destruct (forEach_compressOne env percent (compressionMode st) l s)
            as (st' & Hrun & Hv & _ & _ & Ho & Hd)
      end.
      rewrite Hrun. cbn [fst snd pdfFiles log] in *.
      rewrite Hfiles in Hv.
      repeat (split; [first [reflexivity | assumption]|]).
      intros Hdistinct.
      assert (Hfold := fold_setView_distinct env (compressionMode st)
                         (f0 :: rest) []).
      change (map ?g [] ++ ?x) with x in Hfold.
      change ([] ++ ?x) with x in Hfold.
      now rewrite Hfold in Hv by exact Hdistinct. }
  destruct Hmain as (Hok & Hopened & Hdown & Hview).
  repeat (split; [assumption|]).
  split.
  { intros f e Hthrow. unfold offered. now rewrite Hthrow. }
  intros Hdistinct. specialize (Hview Hdistinct).
  assert (Hids : map id (pdfFiles after) = map id (pdfFiles st)).
  { apply (f_equal (map fst)) in Hview. unfold view in Hview.
    rewrite !map_map in Hview. exact Hview. }
  assert (Hstatus : map status (pdfFiles after)
                    = map (finalStatus env currentMode) (pdfFiles st)).
  { apply (f_equal (map snd)) in Hview. unfold view in Hview.
    rewrite !map_map in Hview. exact Hview. }
  repeat (split; [assumption|]).
  intros i f e Hi Hthrow.
  pose proof (f_equal (fun l => nth_error l i) Hids) as Hid_i.
  pose proof (f_equal (fun l => nth_error l i) Hstatus) as Hstatus_i.
  simpl in Hid_i, Hstatus_i.
  rewrite !nth_error_map, Hi in Hid_i, Hstatus_i.
  destruct (nth_error (pdfFiles after) i) as [f'|]; [|discriminate].
  simpl in Hid_i, Hstatus_i.
  exists f'. split; [reflexivity|].
  injection Hid_i as Hid_i. injection Hstatus_i as Hstatus_i.
  split; [exact Hid_i|].
  rewrite Hstatus_i. unfold finalStatus. now rewrite Hthrow.
Qed.

(** [compressPDF] throws for a file that does not open and for a
    document that the writer does not serialise, and in no other case. *)
Lemma compressResult_cases (env : Collaborators) (pdfFile : File)
  (mode : option CompressionMode) :
  compressResult env pdfFile mode
  = match getDocument env (file_data pdfFile) with
    | None => Throw "getDocument rejected"
    | Some pdfDocument =>
        match serializeToBuffer env PDFStreamWriter
                (compressedDocument env mode pdfDocument) with
        | Some bytes => Ok bytes
        | None => Throw "save threw"
        end
    end.
Proof.
  unfold compressResult.
  destruct (getDocument env (file_data pdfFile)) as [pdfDocument|] eqn:Hopen.
  - destruct (@run_compressPDF_opened unit env pdfFile mode None
                (fun _ => True) (fun _ _ _ _ _ _ => I) tt pdfDocument Hopen)
      as (s' & evs & Hrun & _).
    now rewrite Hrun.
  - now rewrite run_compressPDF_unopened by exact Hopen.
Qed.

(** C4, as stated, fails: with no 2D context every page of
    [sampleDocument] fails to render, and yet the batch marks the file
    [completed] and offers the page-less document that [compressPDF]
    returns for it as a download; the file before it, which does not
    load, is marked [error]. *)
Lemma unrenderable_document_is_completed :
  let after := snd (compressPDFs blindBrowser wholePercent sampleBatch) in
  getDocument blindBrowser (file_data sampleFile) = Some sampleDocument
  /\ Forall
       (fun p =>
          rendersAndEncodes blindBrowser (compressionSettings normal)
            sampleDocument p = false)
       (seq 1 (numPages sampleDocument))
  /\ map file (pdfFiles sampleBatch) = [emptyFile; sampleFile]
  /\ map status (pdfFiles after) = [error; completed]
  /\ downloads (log after) = [("compressed-scan.pdf"%string, [])].
Proof.
  split; [reflexivity|].
  split; [repeat constructor|].
  repeat split; reflexivity.
Qed.

(** C4, amended.  [compressPDF] throws for a document that does not load
    and for one that the writer does not serialise, and for no other: a
    document whose pages all fail is saved without a page and returned.
    The batch loop never throws and opens every document of the list, in
    submission order, whatever happens to the others.  No download is
    offered for a document for which [compressPDF] throws; the bytes of
    every other document are offered as [compressed-<name>], in
    submission order.  When the entries have distinct identifiers, a
    document for which [compressPDF] throws ends with status [error] and
    every other document with status [completed]. *)
Theorem batch_isolates_failed_documents :
  forall (env : Collaborators) (percent : nat -> nat -> nat) (st : State),
    let currentMode := compressionMode st in
    let after := snd (compressPDFs env percent st) in
    (forall f : PDFFile,
       compressResult env (file f) (Some currentMode)
       = match getDocument env (file_data (file f)) with
         | None => Throw "getDocument rejected"
         | Some pdfDocument =>
             match serializeToBuffer env PDFStreamWriter
                     (compressedDocument env (Some currentMode) pdfDocument)
             with
             | Some bytes => Ok bytes
             | None => Throw "save threw"
             end
         end)
    /\ (forall pdfDocument : PDFDocumentProxy,
          (forall p,
             In p (seq 1 (numPages pdfDocument)) ->
             pageSucceeds env (compressionSettings currentMode) pdfDocument p
             = false) ->
          compressedDocument env (Some currentMode) pdfDocument
          = PDFDocument_create)
    /\ fst (compressPDFs env percent st) = Ok tt
    /\ openedDocuments (log after)
       = openedDocuments (log st)
         ++ map (fun f => file_data (file f)) (pdfFiles st)
    /\ downloads (log after)
       = downloads (log st) ++ flat_map (offered env currentMode) (pdfFiles st)
    /\ (forall f e,
          compressResult env (file f) (Some currentMode) = Throw e ->
          offered env currentMode f = [])
    /\ (forall f bytes,
          compressResult env (file f) (Some currentMode) = Ok bytes ->
          offered env currentMode f
          = [(("compressed-" ++ name f)%string, bytes)])
    /\ (NoDup (map id (pdfFiles st)) ->
        map id (pdfFiles after) = map id (pdfFiles st)
        /\ map status (pdfFiles after)
           = map (finalStatus env currentMode) (pdfFiles st)
        /\ (forall i f e,
              nth_error (pdfFiles st) i = Some f ->
              compressResult env (file f) (Some currentMode) = Throw e ->
              exists f',
                nth_error (pdfFiles after) i = Some f'
                /\ id f' = id f /\ status f' = error)
        /\ forall i f bytes,
             nth_error (pdfFiles st) i = Some f ->
             compressResult env (file f) (Some currentMode) = Ok bytes ->
             exists f',
               nth_error (pdfFiles after) i = Some f'
               /\ id f' = id f /\ status f' = completed).
Proof.
  intros env percent st currentMode after.
  destruct (compressPDFs_batch_effect env percent st)
    as (Hok & Hopened & Hdown & Hnone & Hdistinct).
  split; [intros f; apply compressResult_cases|].
  split.
  { intros pdfDocument Hall. unfold compressedDocument, PDFDocument_create.
    replace (pageResults env (compressionSettings (selectedMode (Some currentMode)))
               pdfDocument (seq 1 (numPages pdfDocument)))
      with (@nil (PDFImage * Q * Q)); [reflexivity|].
    symmetry. unfold pageResults, selectedMode.
    induction (seq 1 (numPages pdfDocument)) as [|p ps IH];
      [reflexivity|].
    simpl. specialize (Hall p (or_introl eq_refl)) as Hp.
    unfold pageSucceeds in Hp.
    destruct (pageResult env (compressionSettings currentMode) pdfDocument p);
      [discriminate|].
    apply IH. intros q Hq. apply Hall. now right. }
  repeat (split; [assumption|]).
  split.
  { intros f bytes Hbytes. unfold offered.
    fold currentMode. now rewrite Hbytes. }
  intros Hunique. destruct (Hdistinct Hunique) as (Hids & Hstatus & Herror).
  repeat (split; [assumption|]).
  intros i f bytes Hi Hbytes.
  pose proof (f_equal (fun l => nth_error l i) Hids) as Hid_i.
  pose proof (f_equal (fun l => nth_error l i) Hstatus) as Hstatus_i.
  simpl in Hid_i, Hstatus_i.
  rewrite !nth_error_map, Hi in Hid_i, Hstatus_i.
  fold after in Hid_i, Hstatus_i.
  destruct (nth_error (pdfFiles after) i) as [f'|]; [|discriminate].
  simpl in Hid_i, Hstatus_i.
  exists f'. split; [reflexivity|].
  injection Hid_i as Hid_i. injection Hstatus_i as Hstatus_i.
  split; [exact Hid_i|].
  rewrite Hstatus_i. unfold finalStatus. fold currentMode. now rewrite Hbytes.
Qed.

Lemma sampleBatch_distinct : NoDup (map id (pdfFiles sampleBatch)).
Proof.
  simpl. constructor.
  - simpl. intros [H|[]]. discriminate H.
  - constructor; [intros []|constructor].
Defined.

Lemma batch_isolates_failed_documents_witness :
  map status
    (pdfFiles (snd (compressPDFs sampleBrowser wholePercent sampleBatch)))
  = [error; completed]
  /\ downloads
       (log (snd (compressPDFs sampleBrowser wholePercent sampleBatch)))
     = [("compressed-scan.pdf"%string, [x25; x25])].
Proof.
  pose proof (batch_isolates_failed_documents sampleBrowser wholePercent
                sampleBatch)
    as (_ & _ & _ & _ & Hdownloads & _ & _ & Hdistinct).
  split; [|exact Hdownloads].
  exact (proj1 (proj2 (Hdistinct sampleBatch_distinct))).
Defined.

End CompressRouteFacts.

(** ** The merge route *)

Lemma copyPages_from (src : PDFDocument) (rest : list PDFPage) :
  forall prefix : list PDFPage,
    doc_pages src = prefix ++ rest ->
    copyPages src (seq (length prefix) (length rest)) = Some rest.
Proof.
  induction rest as [|p rest IH]; intros prefix Hpages; [reflexivity|].
  simpl. rewrite Hpages, nth_error_app2 by lia.
  rewrite Nat.sub_diag. simpl.
  specialize (IH (prefix ++ [p])).
  rewrite length_app, Nat.add_1_r in IH.
  rewrite IH; [reflexivity|].
  now rewrite Hpages, <- app_assoc.
Qed.

(** Copying the pages at [getPageIndices] copies every page, in order. *)
Lemma copyPages_all (src : PDFDocument) :
  copyPages src (getPageIndices src) = Some (doc_pages src).
Proof.
  unfold getPageIndices. now apply (copyPages_from src (doc_pages src) []).
Qed.

Lemma addPageObject_all (copied : list PDFPage) :
  forall merged : PDFDocument,
    fold_left (fun doc page => addPageObject page doc) copied merged
    = {| doc_images := doc_images merged;
         doc_pages := doc_pages merged ++ copied |}.
Proof.
  induction copied as [|p copied IH]; intros merged; simpl.
  - rewrite app_nil_r. now destruct merged.
  - rewrite IH. simpl. now rewrite <- app_assoc.
Qed.

Module MergeRouteFacts.

Import MergeRoute MergeRouteTerms.

Section Merge.

Variable env : Collaborators.

Lemma mergeAll_loaded (files : list PDFFile) :
  forall (docs : list PDFDocument) (merged : PDFDocument) (st : State),
    loadAs env files docs ->
    mergeAll env merged files st
    = (Ok {| doc_images := doc_images merged;
             doc_pages := doc_pages merged ++ concat (map doc_pages docs) |},
       {| pdfFiles := pdfFiles st;
          isProcessing := isProcessing st;
          log := log st ++ map (fun f => EvLoad (file_data (file f))) files |}).
Proof.
  induction files as [|f files IH]; intros docs merged st Hload;
    inversion Hload as [|f' d fs ds Hd Hrest]; subst.
  - simpl. unfold ret. rewrite !app_nil_r. now destruct merged, st.
  - simpl. unfold bind, mergeOne, logEvents, modify, liftOption. simpl.
    rewrite Hd. simpl. unfold bind, ret. simpl.
    rewrite copyPages_all. simpl.
    rewrite addPageObject_all, (IH ds) by exact Hrest. simpl.
    now rewrite <- !app_assoc.
Qed.

End Merge.

(** C8, as stated, fails: two inputs that load as documents without pages
    have page counts that sum to zero, and the merged document is written
    with one page, the default page [save()] adds. *)
Lemma merge_of_pageless_documents_has_a_page :
  let docs := [PDFDocument_create; PDFDocument_create] in
  let after := snd (mergePDFs sampleBrowser pagelessSelection) in
  loadAs sampleBrowser (pdfFiles pagelessSelection) docs
  /\ list_sum (map (fun d => length (doc_pages d)) docs) = 0%nat
  /\ map (fun d => length (doc_pages d)) (writtenDocuments (log after))
     = [1%nat]
  /\ length (downloads (log after)) = 1%nat.
Proof.
  split; [repeat constructor|].
  vm_compute. repeat split.
Qed.

(** C8, amended.  For a selection of at least two files that all load,
    [mergePDFs] opens each file once, in list order, and calls [save]
    once, on a document whose pages are the pages of the first input in
    their order, then those of the second, and so on: their number is the
    sum of the inputs' page counts.  The document written is that
    document when it has a page; when no input has a page it is written
    with the one default A4 page that [save()] adds.  If the writer
    returns, its bytes are the one download and the selection is
    cleared. *)
Theorem mergePDFs_concatenates_inputs :
  forall (env : Collaborators) (st : State) (docs : list PDFDocument),
    (2 <= length (pdfFiles st))%nat ->
    loadAs env (pdfFiles st) docs ->
    let after := snd (mergePDFs env st) in
    let allPages := concat (map doc_pages docs) in
    let written :=
      {| doc_images := [];
         doc_pages := if (length allPages =? 0)%nat
                      then [blankPage PageSizes_A4]
                      else allPages |} in
    length allPages = list_sum (map (fun d => length (doc_pages d)) docs)
    /\ exists newEvents,
         log after = log st ++ newEvents
         /\ openedDocuments newEvents
            = map (fun f => file_data (file f)) (pdfFiles st)
         /\ saveCalls newEvents
            = [({| doc_images := []; doc_pages := allPages |},
                defaultSaveOptions)]
         /\ writtenDocuments newEvents = [written]
         /\ match serializeToBuffer env PDFStreamWriter written with
            | Some bytes =>
                downloads newEvents
                = [(("merged-" ++ BigNumber_toString (Date_now env)
                     ++ ".pdf")%string, bytes)]
                /\ pdfFiles after = []
            | None =>
                downloads newEvents = [] /\ pdfFiles after = pdfFiles st
            end.
Proof.
  intros env st docs Hmany Hload after allPages written.
  split.
  { unfold allPages. now rewrite length_concat, map_map. }
  assert (Hopened : forall files : list PDFFile,
             openedDocuments (map (fun f => EvLoad (file_data (file f))) files)
             = map (fun f => file_data (file f)) files).
  { induction files as [|f files IH]; simpl; [reflexivity|now rewrite IH]. }
  assert (Hquiet : forall files : list PDFFile,
             saveCalls (map (fun f => EvLoad (file_data (file f))) files) = []
             /\ downloads (map (fun f => EvLoad (file_data (file f))) files)
                = []).
  { induction files as [|f files [IH1 IH2]]; simpl; now split. }
  assert (Hprepared :
            prepareForSave defaultSaveOptions
              {| doc_images := []; doc_pages := allPages |}
            = written).
  { unfold prepareForSave, written. simpl.
    destruct allPages; reflexivity. }
  unfold after, mergePDFs.
  destruct (Nat.ltb_spec (length (pdfFiles st)) 2) as [Hfew|_]; [lia|].
  unfold bind, tryFinally, tryCatch, setIsProcessing, modify. cbn beta iota.
  rewrite (@mergeAll_loaded env (pdfFiles st) docs) by exact Hload.
  cbn [fst snd pdfFiles isProcessing log doc_images doc_pages
       PDFDocument_create app].
  fold allPages.
  unfold logEvents, modify, liftOption, PDFDocument_save, writerFor.
  cbn [fst snd withDefault useObjectStreams].
  fold defaultSaveOptions. change ([] ++ allPages) with allPages.
  rewrite Hprepared.
  destruct (serializeToBuffer env PDFStreamWriter written) as [bytes|];
    cbn [fst snd pdfFiles isProcessing log ret throw setPdfFiles modify];
    unfold setPdfFiles, modify; cbn [fst snd pdfFiles isProcessing log];
    rewrite <- ?app_assoc;
    (eexists; split; [reflexivity|]);
    unfold writtenDocuments;
    rewrite !openedDocuments_app, !saveCalls_app, !downloads_app, Hopened;
    destruct (Hquiet (pdfFiles st)) as [-> ->];
    cbn [openedDocuments saveCalls downloads flat_map app map fst snd];
    rewrite ?app_nil_r, ?app_nil_l; cbn [map fst snd];
    rewrite ?Hprepared; now repeat split.
Qed.

Lemma mergePDFs_concatenates_inputs_witness :
  map doc_pages
    (writtenDocuments (log (snd (mergePDFs sampleBrowser sampleSelection))))
  = [[onePage; otherPage; onePage; otherPage]].
Proof.
  destruct (@mergePDFs_concatenates_inputs sampleBrowser sampleSelection
              ([ {| doc_images := [];
                            doc_pages := [onePage; otherPage] |};
                         {| doc_images := [];
                            doc_pages := [onePage; otherPage] |} ]))
    as (_ & newEvents & Hlog & _ & _ & Hwritten & _).
  - simpl. lia.
  - repeat constructor.
  - rewrite Hlog. simpl. rewrite Hwritten. reflexivity.
Defined.

End MergeRouteFacts.

(** ** Empty and insufficient selections *)

(** C6.  With no file selected, [compressPDFs] shows its alert and
    returns; with fewer than two, so does [mergePDFs].  The alert is the
    only thing that happens: the file list and the processing flag are as
    before, and no document is opened, saved or downloaded. *)
Theorem insufficient_selection_is_rejected_at_once :
  (forall (env : Collaborators) (percent : nat -> nat -> nat)
          (st : CompressRoute.State),
     length (CompressRoute.pdfFiles st) = 0%nat ->
     let r := CompressRoute.compressPDFs env percent st in
     fst r = Ok tt
     /\ CompressRoute.pdfFiles (snd r) = CompressRoute.pdfFiles st
     /\ CompressRoute.isProcessing (snd r) = CompressRoute.isProcessing st
     /\ CompressRoute.log (snd r)
        = CompressRoute.log st
          ++ [EvAlert "Please select at least 1 PDF file to compress"]
     /\ openedDocuments (CompressRoute.log (snd r))
        = openedDocuments (CompressRoute.log st))
  /\ (forall (env : Collaborators) (st : MergeRoute.State),
        (length (MergeRoute.pdfFiles st) < 2)%nat ->
        let r := MergeRoute.mergePDFs env st in
        fst r = Ok tt
        /\ MergeRoute.pdfFiles (snd r) = MergeRoute.pdfFiles st
        /\ MergeRoute.isProcessing (snd r) = MergeRoute.isProcessing st
        /\ MergeRoute.log (snd r)
           = MergeRoute.log st
             ++ [EvAlert "Please select at least 2 PDF files to merge"]
        /\ openedDocuments (MergeRoute.log (snd r))
           = openedDocuments (MergeRoute.log st)).
Proof.
  split.
  - intros env percent st Hnone r. unfold r, CompressRoute.compressPDFs.
    rewrite Hnone. simpl.
    rewrite openedDocuments_app. simpl. rewrite app_nil_r.
    now repeat split.
  - intros env st Hfew r. unfold r, MergeRoute.mergePDFs.
    destruct (Nat.ltb_spec (length (MergeRoute.pdfFiles st)) 2) as [_|Hmany];
      [|lia].
    simpl. rewrite openedDocuments_app. simpl. rewrite app_nil_r.
    now repeat split.
Qed.

Lemma insufficient_selection_is_rejected_at_once_witness :
  CompressRoute.log
    (snd (CompressRoute.compressPDFs sampleBrowser
            CompressRouteTerms.wholePercent nothingSelected))
  = [EvAlert "Please select at least 1 PDF file to compress"]
  /\ MergeRoute.log (snd (MergeRoute.mergePDFs sampleBrowser oneSelected))
     = [EvAlert "Please select at least 2 PDF files to merge"].
Proof.
  destruct insufficient_selection_is_rejected_at_once as [Hcompress Hmerge].
  split.
  - exact (proj1 (proj2 (proj2 (proj2
             (Hcompress sampleBrowser CompressRouteTerms.wholePercent
                nothingSelected eq_refl))))).
  - refine (proj1 (proj2 (proj2 (proj2
             (Hmerge sampleBrowser oneSelected _))))).
    simpl. lia.
Defined.

(** ** Pending rotations *)




Module RotateRouteFacts.

Import RotateRoute RotateRouteTerms.






End RotateRouteFacts.

Module OrganizeRouteFacts.

Import OrganizeRoute OrganizeRouteTerms.









End OrganizeRouteFacts.



(** * Further properties *)

(** ** [compressPDF] *)

(** X1.  When the input does not open as a document, [compressPDF]
    throws at once: the attempt to open it is its only event, so no page
    is fetched, the callback is never invoked and nothing is embedded or
    saved, and the caller's state is as it was. *)
Theorem compressPDF_unopened_input_is_left_alone :
  forall (W : Type) (env : Collaborators) (pdfFile : File)
         (mode : option CompressionMode)
         (onProgress : option (nat -> nat -> M W unit)) (w : W),
    getDocument env (file_data pdfFile) = None ->
    let run := run_compressPDF env pdfFile mode onProgress w in
    (exists e, fst run = Throw e)
    /\ caller (snd run) = w
    /\ events (snd run) = [EvGetDocument (file_data pdfFile)]
    /\ doc_pages (newPdfDoc (snd run)) = [].
Proof.
  intros W env pdfFile mode onProgress w Hopen run.
  unfold run. rewrite run_compressPDF_unopened by exact Hopen. simpl.
  split; [eexists; reflexivity|]. now repeat split.
Qed.

Lemma compressPDF_unopened_input_is_left_alone_witness :
  events
    (snd (run_compressPDF sampleBrowser emptyFile (Some normal)
            (Some ignoreProgress) tt))
  = [EvGetDocument []].
Proof.
  exact (proj1 (proj2 (proj2
           (compressPDF_unopened_input_is_left_alone sampleBrowser emptyFile
              (Some normal) (Some ignoreProgress) tt eq_refl)))).
Defined.

(** X2.  What the progress callback does has no effect on the output:
    whatever callback is passed, also one that throws at every call, the
    document built and the bytes returned, or the exception thrown, are
    those of a run without callback. *)
Theorem compressPDF_output_ignores_callback :
  forall (W : Type) (env : Collaborators) (pdfFile : File)
         (mode : option CompressionMode)
         (callback : nat -> nat -> M W unit) (w : W),
    let withCallback :=
      run_compressPDF env pdfFile mode (Some callback) w in
    let without :=
      run_compressPDF env pdfFile mode
        (@None (nat -> nat -> M unit unit)) tt in
    fst withCallback = fst without
    /\ newPdfDoc (snd withCallback) = newPdfDoc (snd without).
Proof.
  intros W env pdfFile mode callback w withCallback without.
  unfold withCallback, without.
  destruct (getDocument env (file_data pdfFile)) as [pdfDocument|] eqn:Hopen.
  - destruct (@run_compressPDF_opened W env pdfFile mode (Some callback)
                (fun _ => True) (fun _ _ _ _ _ _ => I) w pdfDocument Hopen)
      as (s1 & evs1 & Hrun1 & Hdoc1 & _).
    destruct (@run_compressPDF_opened unit env pdfFile mode None
                (fun _ => True) (fun _ _ _ _ _ _ => I) tt pdfDocument Hopen)
      as (s2 & evs2 & Hrun2 & Hdoc2 & _).
    rewrite Hrun1, Hrun2. simpl. now rewrite Hdoc1, Hdoc2.
  - now rewrite !run_compressPDF_unopened by exact Hopen.
Qed.

(** X3.  The output holds one embedded image per page and no other: the
    i-th image is the one drawn on the i-th page, over the whole page. *)
Theorem compressPDF_one_image_per_page :
  forall (W : Type) (env : Collaborators) (pdfFile : File)
         (mode : option CompressionMode)
         (onProgress : option (nat -> nat -> M W unit)) (w : W),
    let output :=
      newPdfDoc (snd (run_compressPDF env pdfFile mode onProgress w)) in
    Forall2
      (fun image pg =>
         page_operators pg
         = [DrawObject image
              {| di_x := 0; di_y := 0;
                 di_width := fst (page_size pg);
                 di_height := snd (page_size pg) |}])
      (doc_images output) (doc_pages output).
Proof.
  intros W env pdfFile mode onProgress w output. unfold output.
  destruct (getDocument env (file_data pdfFile)) as [pdfDocument|] eqn:Hopen.
  - destruct (@run_compressPDF_opened W env pdfFile mode onProgress
                (fun _ => True) (fun _ _ _ _ _ _ => I) w pdfDocument Hopen)
      as (s' & evs & Hrun & Hdoc & _).
    rewrite Hrun. simpl. rewrite Hdoc. unfold compressedDocument. simpl.
    induction (pageResults env (compressionSettings (selectedMode mode))
                 pdfDocument (seq 1 (numPages pdfDocument)))
      as [|[[image wd] ht] results IH]; simpl; constructor.
    + reflexivity.
    + exact IH.
  - rewrite run_compressPDF_unopened by exact Hopen. simpl. constructor.
Qed.

(** ** [formatFileSize] *)

Lemma hundredths_nearest (num den : N) :
  (0 < den)%N ->
  let n := hundredths num den in
  (2 * den * n <= 200 * num + den /\ 200 * num < 2 * den * n + den)%N.
Proof.
  intros Hden n. unfold n, hundredths.
  assert (Hpos : (2 * den <> 0)%N) by lia.
  pose proof (N.div_mod (200 * num + den) (2 * den) Hpos) as Hdiv.
  pose proof (N.mod_lt (200 * num + den) (2 * den) Hpos) as Hmod.
  remember ((200 * num + den) / (2 * den))%N as q.
  remember ((200 * num + den) mod (2 * den))%N as r.
  clear Heqq Heqr. nia.
Qed.

(** X4.  [formatFileSize] writes a size below 1024 in bytes, a size
    below 1024 * 1024 in KB and any other size, up to the integers a
    number holds exactly, in MB.  The KB and MB
    figures are the size in that unit rounded to the nearest hundredth (at
    most 0.005 off), at least 1.00, and in KB at most 1024.00; a larger
    size never gets a smaller figure in the same unit. *)
Theorem formatFileSize_rounds_to_hundredths :
  forall bytes : N,
    ((bytes < 1024)%N ->
     formatFileSize bytes = (BigNumber_toString bytes ++ " B")%string)
    /\ ((1024 <= bytes < 1024 * 1024)%N ->
        exists n,
          formatFileSize bytes = (showHundredths n ++ " KB")%string
          /\ (100 <= n <= 102400)%N
          /\ (1024 * n <= 100 * bytes + 512)%N
          /\ (100 * bytes <= 1024 * n + 512)%N)
    /\ ((1024 * 1024 <= bytes < 2 ^ 53)%N ->
        exists n,
          formatFileSize bytes = (showHundredths n ++ " MB")%string
          /\ (100 <= n)%N
          /\ (1048576 * n <= 100 * bytes + 524288)%N
          /\ (100 * bytes <= 1048576 * n + 524288)%N)
    /\ (forall (larger den : N),
          (bytes <= larger)%N ->
          (hundredths bytes den <= hundredths larger den)%N).
Proof.
  intros bytes. unfold formatFileSize.
  split; [|split; [|split]].
  - intros Hsmall. apply N.ltb_lt in Hsmall. now rewrite Hsmall.
  - intros [Hlow Hhigh].
    apply N.ltb_ge in Hlow. apply N.ltb_lt in Hhigh. rewrite Hlow, Hhigh.
    apply N.ltb_ge in Hlow. apply N.ltb_lt in Hhigh.
    exists (hundredths bytes 1024). split; [reflexivity|].
    pose proof (@hundredths_nearest bytes 1024 eq_refl) as Hnear.
    cbv zeta in Hnear.
    remember (hundredths bytes 1024) as n. clear Heqn. lia.
  - intros [Hlarge _].
    assert (Hnot1 : (bytes <? 1024)%N = false) by (apply N.ltb_ge; lia).
    assert (Hnot2 : (bytes <? 1024 * 1024)%N = false)
      by (apply N.ltb_ge; lia).
    rewrite Hnot1, Hnot2.
    exists (hundredths bytes (1024 * 1024)). split; [reflexivity|].
    pose proof (@hundredths_nearest bytes (1024 * 1024) eq_refl) as Hnear.
    cbv zeta in Hnear.
    remember (hundredths bytes (1024 * 1024)) as n. clear Heqn. lia.
  - intros larger den Hle. unfold hundredths.
    apply N.Div0.div_le_mono. lia.
Qed.

Lemma formatFileSize_rounds_to_hundredths_witness :
  formatFileSize 1536 = "1.50 KB"%string
  /\ formatFileSize 1048575 = "1024.00 KB"%string.
Proof.
  split; [reflexivity|].
  destruct (proj1 (proj2 (formatFileSize_rounds_to_hundredths 1048575)))
    as (n & Hshown & _); [split; [discriminate|reflexivity]|].
  reflexivity.
Defined.

(** ** Lists as JavaScript arrays *)

Lemma alter_app (A : Type) (f : A -> A) (pre l : list A) (k : nat) :
  alter f (length pre + k) (pre ++ l) = pre ++ alter f k l.
Proof.
  induction pre as [|a pre IH]; simpl; [reflexivity|]. now rewrite IH.
Qed.

Lemma nth_error_app_at (A : Type) (pre l : list A) (k : nat) :
  nth_error (pre ++ l) (length pre + k) = nth_error l k.
Proof.
  rewrite nth_error_app2 by lia. f_equal. lia.
Qed.

Lemma alter_app_first (A : Type) (f : A -> A) (pre l : list A) :
  alter f (length pre) (pre ++ l) = pre ++ alter f 0 l.
Proof.
  rewrite <- (Nat.add_0_r (length pre)) at 1. apply alter_app.
Qed.

Lemma nth_error_app_first (A : Type) (pre l : list A) :
  nth_error (pre ++ l) (length pre) = nth_error l 0.
Proof.
  rewrite <- (Nat.add_0_r (length pre)) at 1. apply nth_error_app_at.
Qed.

Lemma split_at_neighbours (A : Type) (l : list A) (i : nat) :
  (S i < length l)%nat ->
  exists pre a b post, l = pre ++ a :: b :: post /\ length pre = i.
Proof.
  intros Hlen.
  pose proof (firstn_skipn i l) as Hsplit.
  destruct (skipn i l) as [|a [|b post]] eqn:Hskip.
  - apply (f_equal (@length A)) in Hskip.
    rewrite length_skipn in Hskip. simpl in Hskip. lia.
  - apply (f_equal (@length A)) in Hskip.
    rewrite length_skipn in Hskip. simpl in Hskip. lia.
  - exists (firstn i l), a, b, post. split; [now symmetry|].
    rewrite length_firstn. lia.
Qed.

(** ** Ordering the merge selection *)

Module MergeOrderFacts.

Import MergeRoute.

Lemma moveFile_up_at (pre : list PDFFile) (a b : PDFFile)
  (post : list PDFFile) :
  moveFile (length pre + 1) up (pre ++ a :: b :: post)
  = Some (pre ++ b :: a :: post).
Proof.
  unfold moveFile.
  replace (Z.of_nat (length pre + 1) - 1)%Z with (Z.of_nat (length pre))
    by lia.
  rewrite Nat2Z.id.
  replace ((Z.of_nat (length pre) <? 0)%Z
           || (Z.of_nat (length pre)
               >=? Z.of_nat (length (pre ++ a :: b :: post)))%Z)
    with false.
  2:{ symmetry. apply orb_false_iff. rewrite Z.geb_leb, length_app. simpl.
      split; [apply Z.ltb_ge|apply Z.leb_gt]; lia. }
  rewrite (nth_error_app_at pre (a :: b :: post) 1).
  rewrite nth_error_app_first. simpl.
  now rewrite alter_app_first, alter_app.
Qed.

Lemma moveFile_down_at (pre : list PDFFile) (a b : PDFFile)
  (post : list PDFFile) :
  moveFile (length pre) down (pre ++ a :: b :: post)
  = Some (pre ++ b :: a :: post).
Proof.
  unfold moveFile.
  replace (Z.of_nat (length pre) + 1)%Z with (Z.of_nat (length pre + 1))
    by lia.
  rewrite Nat2Z.id.
  replace ((Z.of_nat (length pre + 1) <? 0)%Z
           || (Z.of_nat (length pre + 1)
               >=? Z.of_nat (length (pre ++ a :: b :: post)))%Z)
    with false.
  2:{ symmetry. apply orb_false_iff. rewrite Z.geb_leb, length_app. simpl.
      split; [apply Z.ltb_ge|apply Z.leb_gt]; lia. }
  rewrite (nth_error_app_at pre (a :: b :: post) 1).
  rewrite nth_error_app_first. simpl.
  now rewrite alter_app, alter_app_first.
Qed.

Lemma moveFile_permutes (index : nat) (direction : MoveDirection)
  (l : list PDFFile) :
  (index < length l)%nat ->
  exists moved, moveFile index direction l = Some moved /\ Permutation moved l.
Proof.
  intros Hindex.
  assert (Hswap : forall (pre : list PDFFile) a b post,
             Permutation (pre ++ b :: a :: post) (pre ++ a :: b :: post)).
  { intros. apply Permutation_app_head. constructor. }
  destruct direction.
  - destruct index as [|i]; [exists l; now split|].
    destruct (split_at_neighbours l Hindex) as (pre & a & b & post & -> & <-).
    replace (S (length pre)) with (length pre + 1)%nat by lia.
    rewrite moveFile_up_at. eexists. split; [reflexivity|apply Hswap].
  - destruct (Nat.lt_ge_cases (S index) (length l)) as [Hin|Hout].
    + destruct (split_at_neighbours l Hin) as (pre & a & b & post & -> & <-).
      rewrite moveFile_down_at. eexists. split; [reflexivity|apply Hswap].
    + unfold moveFile.
      replace ((Z.of_nat index + 1 <? 0)%Z
               || (Z.of_nat index + 1 >=? Z.of_nat (length l))%Z)
        with true; [exists l; now split|].
      symmetry. apply orb_true_iff. right.
      rewrite Z.geb_leb. apply Z.leb_le. lia.
Qed.

(** X5.  [moveFile] exchanges an entry with its neighbour: moving the
    entry after [a] up, or moving [a] down, turns [.. a b ..] into
    [.. b a ..] and touches nothing else.  Moving the first entry up or
    the last entry down changes nothing.  For the index of an entry,
    every call leaves a permutation of the list: no entry is lost or
    duplicated. *)
Theorem moveFile_swaps_neighbours :
  (forall (pre : list PDFFile) (a b : PDFFile) (post : list PDFFile),
     moveFile (length pre + 1) up (pre ++ a :: b :: post)
     = Some (pre ++ b :: a :: post)
     /\ moveFile (length pre) down (pre ++ a :: b :: post)
        = Some (pre ++ b :: a :: post))
  /\ (forall l : list PDFFile,
        moveFile 0 up l = Some l
        /\ moveFile (length l - 1) down l = Some l)
  /\ (forall (index : nat) (direction : MoveDirection) (l : list PDFFile),
        (index < length l)%nat ->
        exists moved,
          moveFile index direction l = Some moved
          /\ Permutation moved l
          /\ length moved = length l).
Proof.
  split; [intros; split; [apply moveFile_up_at|apply moveFile_down_at]|].
  split.
  - intros l. split; [reflexivity|].
    unfold moveFile.
    replace ((Z.of_nat (length l - 1) + 1 <? 0)%Z
             || (Z.of_nat (length l - 1) + 1 >=? Z.of_nat (length l))%Z)
      with true; [reflexivity|].
    symmetry. apply orb_true_iff. right.
    rewrite Z.geb_leb. apply Z.leb_le. lia.
  - intros index direction l Hindex.
    destruct (moveFile_permutes direction l Hindex) as (moved & Hrun & Hperm).
    exists moved. split; [exact Hrun|]. split; [exact Hperm|].
    now apply Permutation_length.
Qed.

Lemma moveFile_swaps_neighbours_witness :
  exists moved,
    moveFile 1 up (pdfFiles MergeRouteTerms.sampleSelection) = Some moved
    /\ length moved = length (pdfFiles MergeRouteTerms.sampleSelection).
Proof.
  assert (Hindex : (1 < length (pdfFiles MergeRouteTerms.sampleSelection))%nat)
    by (simpl; lia).
  destruct (proj2 (proj2 moveFile_swaps_neighbours) 1%nat up
              (pdfFiles MergeRouteTerms.sampleSelection) Hindex)
    as (moved & Hrun & _ & Hlength).
  exists moved. split; [exact Hrun|exact Hlength].
Defined.

(** X6.  Moving an entry up and then moving it down again, or down and
    then up again, gives the list back. *)
Theorem moveFile_up_then_down_restores :
  forall (index : nat) (l : list PDFFile),
    (0 < index < length l)%nat ->
    (exists moved,
       moveFile index up l = Some moved
       /\ moveFile (index - 1) down moved = Some l)
    /\ (exists moved,
          moveFile (index - 1) down l = Some moved
          /\ moveFile index up moved = Some l).
Proof.
  intros index l [Hpos Hlen].
  destruct index as [|i]; [lia|].
  destruct (split_at_neighbours l Hlen) as (pre & a & b & post & -> & <-).
  replace (S (length pre) - 1)%nat with (length pre) by lia.
  replace (S (length pre)) with (length pre + 1)%nat by lia.
  split; eexists.
  - rewrite moveFile_up_at. split; [reflexivity|apply moveFile_down_at].
  - rewrite moveFile_down_at. split; [reflexivity|apply moveFile_up_at].
Qed.

Lemma moveFile_up_then_down_restores_witness :
  exists moved,
    moveFile 1 up (pdfFiles MergeRouteTerms.sampleSelection) = Some moved
    /\ moveFile 0 down moved = Some (pdfFiles MergeRouteTerms.sampleSelection).
Proof.
  assert (Hindex :
            (0 < 1 < length (pdfFiles MergeRouteTerms.sampleSelection))%nat)
    by (simpl; lia).
  exact (proj1 (@moveFile_up_then_down_restores 1%nat
                  (pdfFiles MergeRouteTerms.sampleSelection) Hindex)).
Defined.

(** X7.  A file added under an identifier that no entry has is taken out
    again by [removeFile] of that identifier, which leaves the list as it
    was before the file was added. *)
Theorem removeFile_undoes_addFiles :
  forall (freshId : File -> string) (f : File) (prev : list PDFFile),
    ~ In (freshId f) (map id prev) ->
    removeFile (freshId f) (addFiles freshId [f] prev) = prev.
Proof.
  intros freshId f prev Hfresh.
  unfold removeFile, addFiles. rewrite filter_app. simpl.
  rewrite String.eqb_refl. simpl. rewrite app_nil_r.
  induction prev as [|g prev IH]; simpl; [reflexivity|].
  destruct (String.eqb_spec (id g) (freshId f)) as [Heq|Hneq]; simpl.
  - exfalso. apply Hfresh. left. exact Heq.
  - f_equal. apply IH. intros Hin. apply Hfresh. now right.
Qed.

Lemma removeFile_undoes_addFiles_witness :
  removeFile "new.pdf-3"
    (addFiles (fun _ => "new.pdf-3"%string) [sampleFile]
       (pdfFiles MergeRouteTerms.sampleSelection))
  = pdfFiles MergeRouteTerms.sampleSelection.
Proof.
  apply (@removeFile_undoes_addFiles (fun _ => "new.pdf-3"%string)
           sampleFile (pdfFiles MergeRouteTerms.sampleSelection)).
  simpl. intros [H|[H|[]]]; discriminate H.
Defined.

End MergeOrderFacts.

(** ** How a merge ends *)

Module MergeOutcomeFacts.

Import MergeRoute MergeRouteTerms.

Section Outcome.

Variable env : Collaborators.

Lemma loads_or_fails (files : list PDFFile) :
  (exists docs, loadAs env files docs)
  \/ (exists pre f post docs,
        files = pre ++ f :: post
        /\ loadAs env pre docs
        /\ PDFDocument_load env (file_data (file f)) = None).
Proof.
  induction files as [|f files IH].
  { left. exists []. constructor. }
  destruct IH as [[docs Hall]|(pre & g & post & docs & -> & Hpre & Hg)].
  - destruct (PDFDocument_load env (file_data (file f))) as [d|] eqn:Hf.
    + left. exists (d :: docs). now constructor.
    + right. exists [], f, files, []. repeat split; [constructor|exact Hf].
  - destruct (PDFDocument_load env (file_data (file f))) as [d|] eqn:Hf.
    + right. exists (f :: pre), g, post, (d :: docs).
      repeat split; [now constructor|exact Hg].
    + right. exists [], f, (pre ++ g :: post), [].
      repeat split; [constructor|exact Hf].
Qed.

Lemma mergeAll_fails (pre : list PDFFile) :
  forall (f : PDFFile) (post : list PDFFile) (docs : list PDFDocument)
         (merged : PDFDocument) (st : State),
    loadAs env pre docs ->
    PDFDocument_load env (file_data (file f)) = None ->
    mergeAll env merged (pre ++ f :: post) st
    = (Throw "load threw",
       {| pdfFiles := pdfFiles st;
          isProcessing := isProcessing st;
          log := log st
                 ++ map (fun g => EvLoad (file_data (file g))) (pre ++ [f]) |}).
Proof.
  induction pre as [|g pre IH]; intros f post docs merged st Hload Hf;
    inversion Hload as [|g' d gs ds Hd Hrest]; subst.
  - simpl. unfold bind, mergeOne, logEvents, modify, liftOption. simpl.
    now rewrite Hf.
  - simpl. unfold bind, mergeOne, logEvents, modify, liftOption. simpl.
    rewrite Hd. simpl. unfold bind, ret. simpl.
    rewrite copyPages_all. simpl.
    rewrite (IH f post ds) by assumption. simpl.
    now rewrite <- !app_assoc.
Qed.

Lemma mergePDFs_failed_run (st : State) (pre : list PDFFile) (f : PDFFile)
  (post : list PDFFile) (docs : list PDFDocument) :
  pdfFiles st = pre ++ f :: post ->
  (2 <= length (pdfFiles st))%nat ->
  loadAs env pre docs ->
  PDFDocument_load env (file_data (file f)) = None ->
  mergePDFs env st
  = (Ok tt,
     {| pdfFiles := pdfFiles st; isProcessing := false;
        log := log st
               ++ map (fun g => EvLoad (file_data (file g))) (pre ++ [f])
               ++ [EvConsoleError "Error merging PDFs:";
                   EvAlert
                     "An error occurred while merging PDFs. Please try again."]
     |}).
Proof.
  intros Hfiles Hmany Hload Hf.
  unfold mergePDFs.
  destruct (Nat.ltb_spec (length (pdfFiles st)) 2) as [Hfew|_]; [lia|].
  unfold bind, tryFinally, tryCatch, setIsProcessing, modify.
  cbn beta iota. rewrite Hfiles.
  rewrite (@mergeAll_fails pre f post docs) by assumption.
  unfold logEvents, modify. cbn [fst snd pdfFiles isProcessing log].
  now rewrite <- app_assoc.
Qed.

End Outcome.

(** X8.  A file that does not load as a document aborts the whole merge:
    the files before it and the file itself have been opened, the files
    after it never are, nothing is saved or downloaded, the error is
    logged and shown in an alert, the selection is kept and the
    processing flag is down again. *)
Theorem mergePDFs_aborts_on_unloadable_file :
  forall (env : Collaborators) (st : State) (pre : list PDFFile)
         (f : PDFFile) (post : list PDFFile) (docs : list PDFDocument),
    pdfFiles st = pre ++ f :: post ->
    (2 <= length (pdfFiles st))%nat ->
    loadAs env pre docs ->
    PDFDocument_load env (file_data (file f)) = None ->
    let after := snd (mergePDFs env st) in
    let newEvents :=
      map (fun g => EvLoad (file_data (file g))) (pre ++ [f])
      ++ [EvConsoleError "Error merging PDFs:";
          EvAlert "An error occurred while merging PDFs. Please try again."] in
    fst (mergePDFs env st) = Ok tt
    /\ pdfFiles after = pdfFiles st
    /\ isProcessing after = false
    /\ log after = log st ++ newEvents
    /\ openedDocuments newEvents
       = map (fun g => file_data (file g)) (pre ++ [f])
    /\ saveCalls newEvents = []
    /\ downloads newEvents = [].
Proof.
  intros env st pre f post docs Hfiles Hmany Hload Hf after newEvents.
  unfold after.
  rewrite (@mergePDFs_failed_run env st pre f post docs) by assumption. cbn [fst snd pdfFiles isProcessing log].
  repeat (split; [reflexivity|]).
  unfold newEvents.
  rewrite openedDocuments_app, saveCalls_app, downloads_app. simpl.
  rewrite !app_nil_r.
  induction (pre ++ [f]) as [|g l (IH1 & IH2 & IH3)]; simpl;
    [now repeat split|].
  now rewrite IH1, IH2, IH3.
Qed.

Lemma mergePDFs_aborts_on_unloadable_file_witness :
  openedDocuments (log (snd (mergePDFs sampleBrowser brokenSelection)))
  = [[x25]; []]
  /\ pdfFiles (snd (mergePDFs sampleBrowser brokenSelection))
     = pdfFiles brokenSelection.
Proof.
  destruct (@mergePDFs_aborts_on_unloadable_file sampleBrowser
              brokenSelection
              [ {| id := "scan.pdf-1"; file := sampleFile;
                   name := "scan.pdf"; size := 1 |} ]
              {| id := "empty.pdf-2"; file := emptyFile;
                 name := "empty.pdf"; size := 0 |}
              [ {| id := "scan.pdf-3"; file := sampleFile;
                   name := "scan.pdf"; size := 1 |} ]
              [ {| doc_images := []; doc_pages := [onePage; otherPage] |} ])
    as (_ & Hkept & _ & Hlog & Hopened & _).
  - reflexivity.
  - simpl. lia.
  - repeat constructor.
  - reflexivity.
  - split; [|exact Hkept]. rewrite Hlog. exact Hopened.
Defined.

(** X9.  [mergePDFs] never throws, and with two files or more it leaves
    the processing flag down.  It clears the selection exactly when it
    has offered a download: either one file is downloaded and the
    selection is empty afterwards, or nothing is downloaded and the
    selection is as before. *)
Theorem mergePDFs_clears_selection_iff_downloaded :
  forall (env : Collaborators) (st : State),
    let after := snd (mergePDFs env st) in
    fst (mergePDFs env st) = Ok tt
    /\ ((2 <= length (pdfFiles st))%nat -> isProcessing after = false)
    /\ exists newEvents,
         log after = log st ++ newEvents
         /\ ((downloads newEvents = [] /\ pdfFiles after = pdfFiles st)
             \/ (exists filename bytes,
                   downloads newEvents = [(filename, bytes)]
                   /\ pdfFiles after = [])).
Proof.
  intros env st after. unfold after.
  assert (Hquiet : forall files : list PDFFile,
             downloads (map (fun f => EvLoad (file_data (file f))) files)
             = []).
  { induction files as [|f files IH]; simpl; [reflexivity|exact IH]. }
  destruct (Nat.lt_ge_cases (length (pdfFiles st)) 2) as [Hfew|Hmany].
  - unfold mergePDFs.
    destruct (Nat.ltb_spec (length (pdfFiles st)) 2) as [_|Hge]; [|lia].
    simpl. split; [reflexivity|]. split; [lia|].
    eexists. split; [reflexivity|]. left. now split.
  - destruct (loads_or_fails env (pdfFiles st))
      as [[docs Hload]|(pre & f & post & docs & Hfiles & Hpre & Hf)].
    + unfold mergePDFs.
      destruct (Nat.ltb_spec (length (pdfFiles st)) 2) as [Hfew|_]; [lia|].
      unfold bind, tryFinally, tryCatch, setIsProcessing, modify.
      cbn beta iota.
      rewrite (@MergeRouteFacts.mergeAll_loaded env (pdfFiles st) docs)
        by exact Hload.
      unfold logEvents, modify, liftOption, PDFDocument_save.
      cbn [fst snd pdfFiles isProcessing log].
      destruct (serializeToBuffer env _ _) as [bytes|];
        cbn [fst snd pdfFiles isProcessing log ret throw];
        unfold setPdfFiles, modify; cbn [fst snd pdfFiles isProcessing log];
        (split; [reflexivity|]); (split; [reflexivity|]);
        rewrite <- ?app_assoc;
        (eexists; split; [reflexivity|]);
        rewrite !downloads_app, Hquiet; simpl.
      * right. eexists. eexists. now split.
      * left. now split.
    + rewrite (@mergePDFs_failed_run env st pre f post docs) by assumption.
      cbn [fst snd pdfFiles isProcessing log].
      split; [reflexivity|]. split; [reflexivity|].
      eexists. split; [reflexivity|]. left.
      rewrite downloads_app, Hquiet. now split.
Qed.

Lemma mergePDFs_clears_selection_iff_downloaded_witness :
  (2 <= length (pdfFiles sampleSelection))%nat
  /\ isProcessing (snd (mergePDFs sampleBrowser sampleSelection)) = false.
Proof.
  assert (Hmany : (2 <= length (pdfFiles sampleSelection))%nat)
    by (simpl; lia).
  split; [exact Hmany|].
  exact (proj1 (proj2
           (mergePDFs_clears_selection_iff_downloaded sampleBrowser
              sampleSelection))
           Hmany).
Defined.

End MergeOutcomeFacts.

(** ** Processing the rotations *)

Lemma quarterTurn_keeps_multiples (r pending : Z) :
  Z.rem r 90 = 0%Z -> quarterTurn pending -> Z.rem (r + pending) 90 = 0%Z.
Proof.
  intros Hr Hpending.
  apply Z.rem_divide; [discriminate|].
  apply Z.rem_divide in Hr; [|discriminate].
  apply Z.divide_add_r; [exact Hr|].
  destruct Hpending as [-> | [-> | [-> | ->]]];
    [exists 0%Z|exists 1%Z|exists 2%Z|exists 3%Z]; reflexivity.
Qed.

Module RotateProcessingFacts.

Import RotateRoute RotateRouteTerms.

Lemma rotatePages_turns_all (pending : Z) (pages : list LibPage) :
  Forall (fun p => Z.rem (page_rotation p + pending) 90 = 0%Z) pages ->
  rotatePages pending pages = Some (map (turned pending) pages).
Proof.
  induction 1 as [|p pages Hp _ IH]; simpl; [reflexivity|].
  unfold setRotation. rewrite Hp, IH. reflexivity.
Qed.

Lemma view_markStatus (target : string) (s : Status) (l : list PDFFile) :
  view (markStatus target s l) = map (setView target s) (view l).
Proof.
  unfold view, markStatus, setView. rewrite !map_map.
  apply map_ext. intros f. simpl. now destruct (String.eqb (id f) target).
Qed.

Lemma rotate_setView_twice (target : string) (s1 s2 : Status)
  (v : list (string * Status)) :
  map (setView target s2) (map (setView target s1) v)
  = map (setView target s2) v.
Proof.
  rewrite map_map. apply map_ext. intros [i s]. unfold setView. simpl.
  destruct (String.eqb i target) eqn:Hi; simpl; now rewrite Hi.
Qed.

Lemma rotate_setView_same (target : string) (s s0 : Status) :
  setView target s (target, s0) = (target, s).
Proof. unfold setView. simpl. now rewrite String.eqb_refl. Qed.

Lemma rotate_setView_other (target : string) (s : Status)
  (l : list PDFFile) (g : PDFFile -> string * Status) :
  (forall f, fst (g f) = id f) ->
  ~ In target (map id l) ->
  map (setView target s) (map g l) = map g l.
Proof.
  intros Hg Hnot. rewrite map_map. apply map_ext_in. intros f Hf.
  unfold setView. rewrite Hg.
  destruct (String.eqb_spec (id f) target) as [Heq|]; [|reflexivity].
  exfalso. apply Hnot. rewrite <- Heq. now apply in_map.
Qed.

Section Processing.

Variable env : Collaborators.

Lemma rotatePDF_effect (f : PDFFile) (st : State) :
  exists evs,
    rotatePDF env f st
    = (rotateResult env f,
       {| pdfFiles := pdfFiles st; isProcessing := isProcessing st;
          log := log st ++ evs |})
    /\ openedDocuments evs = [file_data (file f)]
    /\ downloads evs = [].
Proof.
  unfold rotateResult, rotatePDF, bind, logEvents, modify, liftOption.
  cbn [fst snd pdfFiles isProcessing log].
  destruct (PDFDocument_load env (file_data (file f))) as [doc|];
    cbn [fst snd pdfFiles isProcessing log ret throw].
  2:{ eexists. split; [reflexivity|]. now split. }
  destruct (rotatePages (rotation f) (doc_pages doc)) as [pages|];
    cbn [fst snd pdfFiles isProcessing log ret throw].
  2:{ eexists. split; [reflexivity|]. now split. }
  unfold bind, modify. cbn [fst snd pdfFiles isProcessing log].
  destruct (snd (PDFDocument_save env _ _)) as [bytes|];
    cbn [fst snd pdfFiles isProcessing log ret throw];
    (eexists; split; [rewrite <- app_assoc; reflexivity|]; now split).
Qed.

Lemma rotateOne_effect (f : PDFFile) (st : State) :
  exists st',
    rotateOne env f st = (Ok tt, st')
    /\ view (pdfFiles st')
       = map (setView (id f) (finalStatus env f)) (view (pdfFiles st))
    /\ isProcessing st' = isProcessing st
    /\ openedDocuments (log st')
       = openedDocuments (log st)
         ++ (if (rotation f =? 0)%Z then [] else [file_data (file f)])
    /\ downloads (log st') = downloads (log st) ++ offered env f.
Proof.
  unfold rotateOne, finalStatus, offered.
  destruct (rotation f =? 0)%Z.
  - unfold setPdfFiles, modify. eexists. split; [reflexivity|].
    cbn [fst snd pdfFiles isProcessing log].
    rewrite view_markStatus, !app_nil_r. now repeat split.
  - unfold bind, tryCatch, setPdfFiles, logEvents, modify.
    cbn [fst snd pdfFiles isProcessing log].
    match goal with
    | |- context [rotatePDF env f ?s] =>
        destruct (rotatePDF_effect f s) as (evs & Hrun & Ho & Hd)
    end.
    rewrite Hrun. cbn [fst snd pdfFiles isProcessing log].
    destruct (rotateResult env f) as [bytes|msg];
      cbn [fst snd pdfFiles isProcessing log];
      (eexists; split; [reflexivity|];
       cbn [fst snd pdfFiles isProcessing log];
       rewrite !view_markStatus, rotate_setView_twice;
       rewrite <- ?app_assoc, !openedDocuments_app, !downloads_app, Ho, Hd;
       simpl; rewrite ?app_nil_r; now repeat split).
Qed.

Lemma forEach_rotateOne (todo : list PDFFile) :
  forall st : State,
  exists st',
    forEach todo (rotateOne env) st = (Ok tt, st')
    /\ view (pdfFiles st')
       = fold_left
           (fun v f => map (setView (id f) (finalStatus env f)) v)
           todo (view (pdfFiles st))
    /\ isProcessing st' = isProcessing st
    /\ openedDocuments (log st')
       = openedDocuments (log st)
         ++ map (fun f => file_data (file f))
              (filter (fun f => negb (rotation f =? 0)%Z) todo)
    /\ downloads (log st')
       = downloads (log st) ++ flat_map (offered env) todo.
Proof.
  induction todo as [|f rest IH]; intros st.
  - exists st. simpl. rewrite !app_nil_r. now repeat split.
  - destruct (rotateOne_effect f st) as (st1 & Hrun1 & Hv1 & Hp1 & Ho1 & Hd1).
    destruct (IH st1) as (st2 & Hrun2 & Hv2 & Hp2 & Ho2 & Hd2).
    exists st2. simpl. unfold bind. rewrite Hrun1.
    split; [exact Hrun2|].
    rewrite Hv2, Hv1, Hp2, Hp1, Ho2, Ho1, Hd2, Hd1.
    rewrite <- !app_assoc.
    destruct (rotation f =? 0)%Z; simpl; now repeat split.
Qed.

Lemma rotate_fold_setView_distinct (todo : list PDFFile) :
  forall done : list PDFFile,
    NoDup (map id (done ++ todo)) ->
    fold_left
      (fun v f => map (setView (id f) (finalStatus env f)) v)
      todo
      (map (fun f => (id f, finalStatus env f)) done ++ view todo)
    = map (fun f => (id f, finalStatus env f)) (done ++ todo).
Proof.
  induction todo as [|f rest IH]; intros done Hdistinct.
  - simpl. now rewrite !app_nil_r.
  - simpl.
    rewrite map_app in Hdistinct. simpl in Hdistinct.
    pose proof (NoDup_remove_2 _ _ _ Hdistinct) as Hfresh.
    rewrite in_app_iff in Hfresh.
    rewrite map_app. simpl.
    rewrite rotate_setView_same.
    rewrite (@rotate_setView_other (id f) (finalStatus env f) done
               (fun f => (id f, finalStatus env f)))
      by (try reflexivity; tauto).
    unfold view.
    rewrite (@rotate_setView_other (id f) (finalStatus env f) rest
               (fun f => (id f, status f)))
      by (try reflexivity; tauto).
    fold (view rest).
    replace (done ++ f :: rest) with ((done ++ [f]) ++ rest)
      by now rewrite <- app_assoc.
    rewrite <- IH.
    + now rewrite map_app, <- app_assoc.
    + now rewrite <- app_assoc, map_app.
Qed.

End Processing.

(** X10.  When no file of the list has a pending rotation,
    [processRotations] only shows an alert, one text for an empty list
    and another for a list of unrotated files: no file is opened or
    marked, and the processing flag is not raised. *)
Theorem processRotations_needs_a_rotated_file :
  forall (env : Collaborators) (st : State),
    Forall (fun f => rotation f = 0%Z) (pdfFiles st) ->
    processRotations env st
    = (Ok tt,
       {| pdfFiles := pdfFiles st;
          isProcessing := isProcessing st;
          log := log st
                 ++ [EvAlert
                       (match pdfFiles st with
                        | [] => "Please select at least 1 PDF file to rotate"
                        | _ :: _ =>
                            "Please rotate at least one PDF file before processing"
                        end)] |}).
Proof.
  intros env st Hnone.
  assert (Hfilter :
            filter (fun f => negb (rotation f =? 0)%Z) (pdfFiles st) = []).
  { induction Hnone as [|f l Hf _ IH]; [reflexivity|].
    simpl. rewrite Hf. simpl. exact IH. }
  unfold processRotations, logEvents, modify. rewrite Hfilter.
  now destruct (pdfFiles st).
Qed.

Lemma processRotations_needs_a_rotated_file_witness :
  log
    (snd (processRotations sampleBrowser
            {| pdfFiles := resetAllRotations (pdfFiles rotateSelection);
               isProcessing := false;
               log := [] |}))
  = [EvAlert "Please rotate at least one PDF file before processing"].
Proof.
  rewrite (@processRotations_needs_a_rotated_file sampleBrowser
             {| pdfFiles := resetAllRotations (pdfFiles rotateSelection);
                isProcessing := false;
                log := [] |}).
  - reflexivity.
  - repeat constructor.
Defined.

(** X11.  When some file has a pending rotation, [processRotations]
    never throws and ends with the processing flag down.  It opens the
    rotated files, in list order, and no unrotated file; it offers
    [rotated-<name>] for each rotated file for which [rotatePDF]
    returns, and nothing for an unrotated file.  With distinct
    identifiers an unrotated file ends [completed] without having been
    touched, and a rotated file ends [completed] or [error] as [rotatePDF]
    returns or throws. *)
Theorem processRotations_skips_unrotated_files :
  forall (env : Collaborators) (st : State),
    Exists (fun f => rotation f <> 0%Z) (pdfFiles st) ->
    let after := snd (processRotations env st) in
    fst (processRotations env st) = Ok tt
    /\ isProcessing after = false
    /\ openedDocuments (log after)
       = openedDocuments (log st)
         ++ map (fun f => file_data (file f))
              (filter (fun f => negb (rotation f =? 0)%Z) (pdfFiles st))
    /\ downloads (log after)
       = downloads (log st) ++ flat_map (offered env) (pdfFiles st)
    /\ (forall f, rotation f = 0%Z ->
          offered env f = [] /\ finalStatus env f = completed)
    /\ (NoDup (map id (pdfFiles st)) ->
        map id (pdfFiles after) = map id (pdfFiles st)
        /\ map status (pdfFiles after)
           = map (finalStatus env) (pdfFiles st)).
Proof.
  intros env st Hsome after.
  assert (Hrotated :
            filter (fun f => negb (rotation f =? 0)%Z) (pdfFiles st) <> []).
  { induction Hsome as [f l Hf|f l _ IH]; simpl.
    - apply Z.eqb_neq in Hf. rewrite Hf. discriminate.
    - destruct (negb (rotation f =? 0)%Z); [discriminate|exact IH]. }
  assert (Hmain :
            fst (processRotations env st) = Ok tt
            /\ isProcessing after = false
            /\ openedDocuments (log after)
               = openedDocuments (log st)
                 ++ map (fun f => file_data (file f))
                      (filter (fun f => negb (rotation f =? 0)%Z)
                         (pdfFiles st))
            /\ downloads (log after)
               = downloads (log st) ++ flat_map (offered env) (pdfFiles st)
            /\ (NoDup (map id (pdfFiles st)) ->
                view (pdfFiles after)
                = map (fun f => (id f, finalStatus env f)) (pdfFiles st))).
  { unfold after, processRotations.
    destruct (pdfFiles st) as [|f0 rest] eqn:Hfiles; [now elim Hrotated|].
    cbn [length Nat.eqb].
    destruct (filter (fun f => negb (rotation f =? 0)%Z) (f0 :: rest))
      as [|g others] eqn:Hfilter; [now elim Hrotated|].
    cbn [length Nat.eqb].
    unfold bind, tryFinally, setIsProcessing, modify. cbn beta iota.
    match goal with
    | |- context [forEach ?l ?body ?s] =>
        destruct (forEach_rotateOne env l s)
          as (st' & Hrun & Hv & _ & Ho & Hd)
    end.
    rewrite Hrun. cbn [fst snd pdfFiles isProcessing log] in *.
    rewrite Hfiles in Hv. rewrite Hfilter in Ho.
    repeat (split; [first [reflexivity | assumption]|]).
    intros Hdistinct.
    assert (Hfold := rotate_fold_setView_distinct env (f0 :: rest) []).
    change (map ?g [] ++ ?x) with x in Hfold.
    change ([] ++ ?x) with x in Hfold.
    now rewrite Hfold in Hv by exact Hdistinct. }
  destruct Hmain as (Hok & Hflag & Hopened & Hdown & Hview).
  repeat (split; [assumption|]).
  split.
  { intros f Hf. unfold offered, finalStatus. rewrite Hf. now split. }
  intros Hdistinct. specialize (Hview Hdistinct).
  split.
  - apply (f_equal (map fst)) in Hview. unfold view in Hview.
    rewrite !map_map in Hview. exact Hview.
  - apply (f_equal (map snd)) in Hview. unfold view in Hview.
    rewrite !map_map in Hview. exact Hview.
Qed.

Lemma rotateSelection_distinct : NoDup (map id (pdfFiles rotateSelection)).
Proof.
  simpl. constructor; [simpl; intros [H|[H|[]]]; discriminate H|].
  constructor; [simpl; intros [H|[]]; discriminate H|].
  constructor; [intros []|constructor].
Defined.

Lemma processRotations_skips_unrotated_files_witness :
  openedDocuments
    (log (snd (processRotations sampleBrowser rotateSelection)))
  = [[x25]; []]
  /\ map status (pdfFiles (snd (processRotations sampleBrowser rotateSelection)))
     = [completed; completed; error].
Proof.
  destruct (@processRotations_skips_unrotated_files sampleBrowser
              rotateSelection)
    as (_ & _ & Hopened & _ & _ & Hdistinct).
  - apply Exists_cons_tl. apply Exists_cons_hd. discriminate.
  - split; [exact Hopened|].
    exact (proj2 (Hdistinct rotateSelection_distinct)).
Defined.

(** X12.  For a file that loads as a document whose page rotations are
    multiples of 90, and a pending rotation of 0, 90, 180 or 270,
    [rotatePDF] calls [save] on a document with the same pages in the
    same order, each with the pending rotation added to its own and with
    its size and content as they were; the sum is not reduced modulo 360.
    It returns what the writer makes of that document and leaves the file
    list alone. *)
Theorem rotatePDF_turns_every_page :
  forall (env : Collaborators) (st : State) (f : PDFFile)
         (doc : PDFDocument),
    PDFDocument_load env (file_data (file f)) = Some doc ->
    Forall (fun p => Z.rem (page_rotation p) 90 = 0%Z) (doc_pages doc) ->
    quarterTurn (rotation f) ->
    let rotatedDoc :=
      {| doc_images := doc_images doc;
         doc_pages := map (turned (rotation f)) (doc_pages doc) |} in
    let options := {| useObjectStreams := None; addDefaultPage := None |} in
    let run := rotatePDF env f st in
    log (snd run)
    = log st ++ [EvLoad (file_data (file f)); EvSave rotatedDoc options]
    /\ fst run
       = match serializeToBuffer env PDFStreamWriter
                 (prepareForSave options rotatedDoc) with
         | Some bytes => Ok bytes
         | None => Throw "save threw"
         end
    /\ length (doc_pages rotatedDoc) = length (doc_pages doc)
    /\ map page_rotation (doc_pages rotatedDoc)
       = map (fun p => (page_rotation p + rotation f)%Z) (doc_pages doc)
    /\ pdfFiles (snd run) = pdfFiles st.
Proof.
  intros env st f doc Hload Hpages Hpending rotatedDoc options run.
  assert (Hturn : rotatePages (rotation f) (doc_pages doc)
                  = Some (map (turned (rotation f)) (doc_pages doc))).
  { apply rotatePages_turns_all.
    eapply Forall_impl; [|exact Hpages].
    intros p Hp. now apply quarterTurn_keeps_multiples. }
  unfold run, rotatePDF, bind, logEvents, modify, liftOption.
  cbn [fst snd pdfFiles isProcessing log].
  rewrite Hload. cbn [fst snd pdfFiles isProcessing log ret].
  rewrite Hturn. cbn [fst snd pdfFiles isProcessing log ret].
  fold rotatedDoc. fold options.
  unfold PDFDocument_save, writerFor. cbn [snd withDefault useObjectStreams options].
  destruct (serializeToBuffer env PDFStreamWriter
              (prepareForSave options rotatedDoc)) as [bytes|];
    cbn [fst snd pdfFiles isProcessing log ret throw];
    rewrite <- app_assoc; simpl;
    rewrite length_map, map_map; now repeat split.
Qed.

Lemma rotatePDF_turns_every_page_witness :
  saveCalls
    (log (snd (rotatePDF sampleBrowser
                 {| id := "b.pdf-2"; file := sampleFile; name := "b.pdf";
                    size := 1; rotation := 270; status := pending;
                    pageCount := Some 2%nat; previewUrl := None |}
                 rotateSelection)))
  = [({| doc_images := [];
         doc_pages := [turned 270 onePage; turned 270 otherPage] |},
      {| useObjectStreams := None; addDefaultPage := None |})].
Proof.
  destruct (@rotatePDF_turns_every_page sampleBrowser rotateSelection
              {| id := "b.pdf-2"; file := sampleFile; name := "b.pdf";
                 size := 1; rotation := 270; status := pending;
                 pageCount := Some 2%nat; previewUrl := None |}
              {| doc_images := []; doc_pages := [onePage; otherPage] |})
    as (Hlog & _).
  - reflexivity.
  - repeat constructor.
  - right. right. right. reflexivity.
  - rewrite Hlog. reflexivity.
Defined.



End RotateProcessingFacts.

(** ** Reordering and saving pages *)

Lemma findIndex_found (A : Type) (pred : A -> bool) (l : list A) :
  forall i : nat,
    findIndex pred l = Some i ->
    exists x, nth_error l i = Some x /\ pred x = true.
Proof.
  induction l as [|a l IH]; intros i Hfound; [discriminate|].
  simpl in Hfound. destruct (pred a) eqn:Ha.
  - injection Hfound as <-. exists a. now split.
  - destruct (findIndex pred l) as [k|]; [|discriminate].
    injection Hfound as <-. simpl. now apply IH.
Qed.

Lemma spliceOut_length (A : Type) (l : list A) (i : nat) :
  (i < length l)%nat -> length (spliceOut i l) = (length l - 1)%nat.
Proof.
  intros Hi. unfold spliceOut.
  rewrite length_app, length_firstn, length_skipn. lia.
Qed.

Lemma spliceIn_lands (A : Type) (l : list A) (j : nat) (x : A) :
  (j <= length l)%nat ->
  nth_error (spliceIn j x l) j = Some x
  /\ spliceOut j (spliceIn j x l) = l.
Proof.
  intros Hj. unfold spliceIn, spliceOut.
  assert (Hlen : length (firstn j l) = j) by (rewrite length_firstn; lia).
  split.
  - rewrite nth_error_app2 by lia. rewrite Hlen, Nat.sub_diag. reflexivity.
  - rewrite firstn_app, skipn_app, Hlen, Nat.sub_diag.
    rewrite firstn_firstn, Nat.min_id.
    rewrite (skipn_all2 (firstn j l)) by lia.
    replace (S j - j)%nat with 1%nat by lia. simpl.
    rewrite app_nil_r. apply firstn_skipn.
Qed.

Lemma spliceOut_permutes (A : Type) (l : list A) (i : nat) (x : A) :
  nth_error l i = Some x -> Permutation l (x :: spliceOut i l).
Proof.
  intros Hx. unfold spliceOut.
  rewrite <- (firstn_skipn i l) at 1.
  assert (Hskip : skipn i l = x :: skipn (S i) l).
  { revert i Hx. induction l as [|a l IH]; intros [|i] Hx; simpl in *;
      try discriminate.
    - now injection Hx as ->.
    - now apply IH. }
  rewrite Hskip. symmetry. apply Permutation_middle.
Qed.

Lemma spliceIn_permutes (A : Type) (l : list A) (j : nat) (x : A) :
  Permutation (spliceIn j x l) (x :: l).
Proof.
  unfold spliceIn. rewrite <- (firstn_skipn j l) at 3.
  symmetry. apply Permutation_middle.
Qed.

Lemma Math_max_bounds (l : list nat) (m : nat) :
  Math_max l = Some m -> Forall (fun x => (x <= m)%nat) l.
Proof.
  destruct l as [|a l]; [discriminate|]. simpl. intros Hm.
  injection Hm as <-.
  assert (Hfold : forall (l : list nat) (a : nat),
             (a <= fold_left Nat.max l a)%nat
             /\ Forall (fun x => (x <= fold_left Nat.max l a)%nat) l).
  { clear. induction l as [|b l IH]; intros a; simpl.
    - split; [lia|constructor].
    - destruct (IH (Nat.max a b)) as [Hge Hall].
      split; [lia|]. constructor; [lia|exact Hall]. }
  destruct (Hfold l a) as [Hge Hall]. now constructor.
Qed.

Module OrganizeSavingFacts.

Import OrganizeRoute OrganizeRouteTerms.

Lemma copyActivePage_written (originalPdf : PDFDocument) (page : PDFPage)
  (index : nat) (source : LibPage) :
  pageNumber page = S index ->
  nth_error (doc_pages originalPdf) index = Some source ->
  Z.rem (page_rotation source + rotation page) 90 = 0%Z ->
  copyActivePage originalPdf page
  = Some (RotateRouteTerms.turned (rotation page) source).
Proof.
  intros Hnumber Hsource Hturn. unfold copyActivePage.
  rewrite Hnumber. simpl. rewrite Hsource.
  destruct (Z.eqb_spec (rotation page) 0) as [Hzero|Hturned].
  - rewrite Hzero. unfold RotateRouteTerms.turned.
    rewrite Z.add_0_r. now destruct source.
  - unfold setRotation. now rewrite Hturn.
Qed.

Lemma copyActivePage_unknown (originalPdf : PDFDocument) (page : PDFPage) :
  pageNumber page = 0%nat
  \/ (length (doc_pages originalPdf) < pageNumber page)%nat ->
  copyActivePage originalPdf page = None.
Proof.
  unfold copyActivePage. intros [Hzero|Hbeyond].
  - now rewrite Hzero.
  - destruct (pageNumber page) as [|index]; [reflexivity|]. simpl.
    now rewrite (proj2 (nth_error_None (doc_pages originalPdf) index))
      by lia.
Qed.

Lemma organizeAll_written (originalPdf : PDFDocument)
  (active : list PDFPage) :
  forall (copies : list LibPage) (newPdf : PDFDocument),
    Forall2 (fun page copied => copyActivePage originalPdf page = Some copied)
      active copies ->
    organizeAll originalPdf newPdf active
    = Some {| doc_images := doc_images newPdf;
              doc_pages := doc_pages newPdf ++ copies |}.
Proof.
  induction active as [|page active IH]; intros copies newPdf Hall;
    inversion Hall as [|p c ps cs Hc Hrest]; subst; simpl.
  - rewrite app_nil_r. now destruct newPdf.
  - rewrite Hc, (IH cs) by exact Hrest. simpl. now rewrite <- app_assoc.
Qed.

Lemma organizeAll_unknown (originalPdf : PDFDocument)
  (active : list PDFPage) (page : PDFPage) :
  In page active ->
  copyActivePage originalPdf page = None ->
  forall newPdf, organizeAll originalPdf newPdf active = None.
Proof.
  intros Hin Hnone.
  induction active as [|p active IH]; intros newPdf; [contradiction|].
  simpl. destruct Hin as [->|Hin].
  - now rewrite Hnone.
  - destruct (copyActivePage originalPdf p); [now apply IH|reflexivity].
Qed.

Section Saving.

Variable env : Collaborators.

(** What [processPDF] does once the file is opened and its pages are or
    are not all copied. *)
Lemma processPDF_run (st : State) (d : PDFFileData)
  (originalPdf : PDFDocument) :
  pdfFile st = Some d ->
  activePagesOf d <> [] ->
  PDFDocument_load env (file_data (file d)) = Some originalPdf ->
  processPDF env st
  = (Ok tt,
     match organizeAll originalPdf PDFDocument_create (activePagesOf d) with
     | None =>
         {| pdfFile := pdfFile st; isProcessing := false;
            draggedPageId := draggedPageId st;
            dragOverPageId := dragOverPageId st;
            log := log st ++ failedSave d |}
     | Some newPdf =>
         let options :=
           {| useObjectStreams := None; addDefaultPage := None |} in
         match snd (PDFDocument_save env options newPdf) with
         | Some pdfBytes =>
             {| pdfFile := None; isProcessing := false;
                draggedPageId := draggedPageId st;
                dragOverPageId := dragOverPageId st;
                log := log st
                       ++ [EvLoad (file_data (file d));
                           EvSave newPdf options;
                           EvDownload ("organized-" ++ name d) pdfBytes] |}
         | None =>
             {| pdfFile := pdfFile st; isProcessing := false;
                draggedPageId := draggedPageId st;
                dragOverPageId := dragOverPageId st;
                log := log st
                       ++ [EvLoad (file_data (file d));
                           EvSave newPdf options;
                           EvConsoleError "Error processing PDF:";
                           EvAlert "Error processing PDF. Please try again."]
             |}
         end
     end).
Proof.
  intros Hfile Hactive Hload. unfold processPDF. rewrite Hfile.
  fold (activePagesOf d).
  destruct (activePagesOf d) as [|p active] eqn:Hpages; [contradiction|].
  cbn [length Nat.eqb].
  unfold bind, tryFinally, tryCatch, setIsProcessing, logEvents, modify,
    liftOption.
  cbn [fst snd pdfFile isProcessing draggedPageId dragOverPageId log].
  rewrite Hload.
  cbn [fst snd pdfFile isProcessing draggedPageId dragOverPageId log ret].
  destruct (organizeAll originalPdf PDFDocument_create (p :: active))
    as [newPdf|];
    cbn [fst snd pdfFile isProcessing draggedPageId dragOverPageId log ret
         throw].
  2:{ unfold failedSave. now rewrite <- app_assoc, Hfile. }
  destruct (snd (PDFDocument_save env _ newPdf)) as [pdfBytes|];
    cbn [fst snd pdfFile isProcessing draggedPageId dragOverPageId log ret
         throw];
    unfold setPdfFile, modify;
    cbn [fst snd pdfFile isProcessing draggedPageId dragOverPageId log];
    rewrite <- ?app_assoc, ?Hfile; reflexivity.
Qed.

End Saving.

Lemma written_copies (originalPdf : PDFDocument) (active : list PDFPage) :
  Forall (fun p =>
            (1 <= pageNumber p <= length (doc_pages originalPdf))%nat
            /\ quarterTurn (rotation p)) active ->
  Forall (fun source => Z.rem (page_rotation source) 90 = 0%Z)
    (doc_pages originalPdf) ->
  exists copies,
    Forall2 (fun page copied => copyActivePage originalPdf page = Some copied)
      active copies
    /\ Forall2 (writtenAs originalPdf) active copies.
Proof.
  intros Hactive Hsources.
  induction Hactive as [|page active [Hrange Hturn] _ (copies & Hcopy & Hwritten)].
  - exists []. split; constructor.
  - destruct (pageNumber page) as [|index] eqn:Hnumber; [lia|].
    destruct (nth_error (doc_pages originalPdf) index) as [source|] eqn:Hsource.
    2:{ apply nth_error_None in Hsource. lia. }
    exists (RotateRouteTerms.turned (rotation page) source :: copies).
    split; constructor; try assumption.
    + apply (@copyActivePage_written originalPdf page index source
               Hnumber Hsource).
      apply quarterTurn_keeps_multiples; [|exact Hturn].
      rewrite Forall_forall in Hsources. apply Hsources.
      now apply nth_error_In with index.
    + exists index, source. now repeat split.
Qed.

Lemma loadedPages_copies (pageId : nat -> string)
  (preview : nat -> option string) (doc : PDFDocument)
  (rest : list LibPage) :
  forall prefix : list LibPage,
    doc_pages doc = prefix ++ rest ->
    Forall2 (fun page copied => copyActivePage doc page = Some copied)
      (map (fun i =>
              {| id := pageId i; pageNumber := i; rotation := 0;
                 previewUrl := preview i; isDeleted := false |})
         (seq (S (length prefix)) (length rest)))
      rest.
Proof.
  induction rest as [|p rest IH]; intros prefix Hpages; simpl;
    constructor.
  - unfold copyActivePage. simpl.
    rewrite Hpages, nth_error_app_first. reflexivity.
  - specialize (IH (prefix ++ [p])).
    rewrite length_app, Nat.add_1_r in IH. apply IH.
    now rewrite Hpages, <- app_assoc.
Qed.

Lemma loadedPages_all_active (pageId : nat -> string)
  (preview : nat -> option string) (pageCount : nat) :
  filter (fun p => negb (isDeleted p)) (loadedPages pageId preview pageCount)
  = loadedPages pageId preview pageCount.
Proof.
  unfold loadedPages.
  induction (seq 1 pageCount) as [|i l IH]; simpl; [reflexivity|].
  now rewrite IH.
Qed.

(** What [processPDF] does when an active entry has no page in the file. *)
Lemma processPDF_unknown_run (env : Collaborators) (st : State)
  (d : PDFFileData) (originalPdf : PDFDocument) (page : PDFPage) :
  pdfFile st = Some d ->
  PDFDocument_load env (file_data (file d)) = Some originalPdf ->
  In page (activePagesOf d) ->
  pageNumber page = 0%nat
  \/ (length (doc_pages originalPdf) < pageNumber page)%nat ->
  processPDF env st
  = (Ok tt,
     {| pdfFile := Some d; isProcessing := false;
        draggedPageId := draggedPageId st;
        dragOverPageId := dragOverPageId st;
        log := log st ++ failedSave d |}).
Proof.
  intros Hfile Hload Hin Hunknown.
  rewrite (@processPDF_run env st d originalPdf Hfile);
    [|intros Hnil; rewrite Hnil in Hin; contradiction|exact Hload].
  rewrite (@organizeAll_unknown originalPdf (activePagesOf d) page Hin
             (@copyActivePage_unknown originalPdf page Hunknown)).
  now rewrite Hfile.
Qed.

(** X14.  Dropping the dragged page on another page of the list moves it
    to the place of that page: the dragged page is then at the index the
    target had, the other pages keep their order, and no page is lost or
    duplicated; the drag is over. *)
Theorem handlePageDrop_moves_dragged_page :
  forall (st : State) (d : PDFFileData) (dragged target : string)
         (draggedIndex targetIndex : nat),
    pdfFile st = Some d ->
    draggedPageId st = Some dragged ->
    dragged <> ""%string ->
    dragged <> target ->
    findIndex (fun p => String.eqb (id p) dragged) (pages d)
    = Some draggedIndex ->
    findIndex (fun p => String.eqb (id p) target) (pages d)
    = Some targetIndex ->
    let after := handlePageDrop target st in
    exists d' draggedPage,
      pdfFile after = Some d'
      /\ nth_error (pages d) draggedIndex = Some draggedPage
      /\ id draggedPage = dragged
      /\ nth_error (pages d') targetIndex = Some draggedPage
      /\ spliceOut targetIndex (pages d') = spliceOut draggedIndex (pages d)
      /\ Permutation (pages d') (pages d)
      /\ draggedPageId after = None
      /\ dragOverPageId after = None.
Proof.
  intros st d dragged target draggedIndex targetIndex
    Hfile Hdrag Hnonempty Hother Hdragged Htarget after.
  destruct (@findIndex_found _ _ _ _ Hdragged) as (draggedPage & Hpage & Hid).
  destruct (@findIndex_found _ _ _ _ Htarget) as (targetPage & Htpage & _).
  assert (Hi : (draggedIndex < length (pages d))%nat)
    by (apply nth_error_Some; now rewrite Hpage).
  assert (Hj : (targetIndex < length (pages d))%nat)
    by (apply nth_error_Some; now rewrite Htpage).
  assert (Hroom : (targetIndex <= length (spliceOut draggedIndex (pages d)))%nat)
    by (rewrite spliceOut_length by exact Hi; lia).
  unfold after, handlePageDrop. rewrite Hdrag.
  apply String.eqb_neq in Hnonempty. apply String.eqb_neq in Hother.
  rewrite Hnonempty, Hother. simpl. rewrite Hfile. simpl.
  unfold reorderPages. rewrite Hdragged, Htarget, Hpage.
  eexists. exists draggedPage. split; [reflexivity|]. simpl.
  destruct (@spliceIn_lands _ (spliceOut draggedIndex (pages d))
              targetIndex draggedPage Hroom) as [Hlands Hrest].
  apply String.eqb_eq in Hid.
  repeat (split; [first [assumption | reflexivity]|]).
  split; [|now split].
  rewrite spliceIn_permutes. symmetry. now apply spliceOut_permutes.
Qed.

Lemma handlePageDrop_moves_dragged_page_witness :
  exists d' draggedPage,
    pdfFile
      (handlePageDrop "page-1" (handlePageDragStart "page-2" loadedRoute))
    = Some d'
    /\ id draggedPage = "page-2"%string
    /\ nth_error (pages d') 0 = Some draggedPage.
Proof.
  assert (Hnonempty : "page-2"%string <> ""%string) by discriminate.
  assert (Hother : "page-2"%string <> "page-1"%string) by discriminate.
  destruct (@handlePageDrop_moves_dragged_page
              (handlePageDragStart "page-2" loadedRoute)
              (scannedFile 2)
              "page-2" "page-1" 1%nat 0%nat
              eq_refl eq_refl Hnonempty Hother eq_refl eq_refl)
    as (d' & draggedPage & Hafter & _ & Hid & Hlands & _).
  exists d', draggedPage. now repeat split.
Defined.

(** X15.  Whatever is dropped where, [handlePageDrop] ends the drag and
    keeps every page: the file is still there and its pages are a
    permutation of the pages before.  The pages are exactly as before
    when no page is being dragged or the page is dropped on itself. *)
Theorem handlePageDrop_keeps_every_page :
  forall (target : string) (st : State),
    let after := handlePageDrop target st in
    draggedPageId after = None
    /\ dragOverPageId after = None
    /\ log after = log st
    /\ match pdfFile st, pdfFile after with
       | Some d, Some d' =>
           Permutation (pages d') (pages d)
           /\ file d' = file d /\ name d' = name d
       | None, None => True
       | _, _ => False
       end
    /\ (draggedPageId st = None
        \/ draggedPageId st = Some ""%string
        \/ draggedPageId st = Some target ->
        pdfFile after = pdfFile st).
Proof.
  intros target st after. unfold after, handlePageDrop.
  assert (Hsame : match pdfFile st, pdfFile st with
                  | Some d, Some d' =>
                      Permutation (pages d') (pages d)
                      /\ file d' = file d /\ name d' = name d
                  | None, None => True
                  | _, _ => False
                  end)
    by (destruct (pdfFile st); [now repeat split|exact I]).
  destruct (draggedPageId st) as [dragged|] eqn:Hdrag.
  2:{ simpl. now repeat split. }
  destruct (String.eqb dragged "" || String.eqb dragged target) eqn:Hguard.
  { simpl. now repeat split. }
  apply orb_false_iff in Hguard. destruct Hguard as [Hnonempty Hother].
  simpl. repeat (split; [reflexivity|]). split.
  - destruct (pdfFile st) as [d|]; simpl; [|exact I].
    unfold reorderPages.
    destruct (findIndex (fun p => String.eqb (id p) dragged) (pages d))
      as [i|]; [|now repeat split].
    destruct (findIndex (fun p => String.eqb (id p) target) (pages d))
      as [j|]; [|now repeat split].
    destruct (nth_error (pages d) i) as [x|] eqn:Hx; [|now repeat split].
    simpl. split; [|now split].
    rewrite spliceIn_permutes. symmetry. now apply spliceOut_permutes.
  - intros [Hnone|[Hempty|Hself]]; try discriminate.
    + injection Hempty as ->. discriminate.
    + injection Hself as ->. now rewrite String.eqb_refl in Hother.
Qed.

Lemma handlePageDrop_keeps_every_page_witness :
  pdfFile (handlePageDrop "page-1" (handlePageDragStart "page-1" loadedRoute))
  = pdfFile loadedRoute.
Proof.
  assert (Hself :
            draggedPageId (handlePageDragStart "page-1" loadedRoute) = None
            \/ draggedPageId (handlePageDragStart "page-1" loadedRoute)
               = Some ""%string
            \/ draggedPageId (handlePageDragStart "page-1" loadedRoute)
               = Some "page-1"%string)
    by (right; right; reflexivity).
  exact (proj2 (proj2 (proj2 (proj2
           (handlePageDrop_keeps_every_page "page-1"
              (handlePageDragStart "page-1" loadedRoute)))))
           Hself).
Defined.

(** X16.  [processPDF] does nothing without a file, and when every page
    of the file is deleted it only shows its alert: the file is not
    opened, the processing flag is not raised, nothing is downloaded. *)
Theorem processPDF_needs_an_active_page :
  forall (env : Collaborators) (st : State),
    (pdfFile st = None -> processPDF env st = (Ok tt, st))
    /\ (forall d,
          pdfFile st = Some d ->
          Forall (fun p => isDeleted p = true) (pages d) ->
          processPDF env st
          = (Ok tt,
             {| pdfFile := pdfFile st; isProcessing := isProcessing st;
                draggedPageId := draggedPageId st;
                dragOverPageId := dragOverPageId st;
                log := log st
                       ++ [EvAlert
                             "No pages to save. Please keep at least one page."]
             |})).
Proof.
  intros env st. split.
  - intros Hnone. unfold processPDF. now rewrite Hnone.
  - intros d Hfile Hdeleted. unfold processPDF. rewrite Hfile.
    replace (filter (fun p => negb (isDeleted p)) (pages d))
      with (@nil PDFPage);
      [simpl; unfold logEvents, modify; now rewrite ?Hfile|].
    symmetry. induction Hdeleted as [|p l Hp _ IH]; [reflexivity|].
    simpl. rewrite Hp. exact IH.
Qed.

Lemma processPDF_needs_an_active_page_witness :
  processPDF sampleBrowser clearedRoute
  = (Ok tt,
     {| pdfFile := pdfFile clearedRoute; isProcessing := false;
        draggedPageId := None; dragOverPageId := None;
        log := [EvAlert "No pages to save. Please keep at least one page."]
     |}).
Proof.
  refine (proj2 (processPDF_needs_an_active_page sampleBrowser clearedRoute)
            _ eq_refl _).
  repeat constructor.
Defined.

(** X17.  For a file that loads again, with at least one active entry,
    whose active entries carry page numbers of the file and pending
    rotations of 0, 90, 180 or 270, and whose pages have rotations that
    are multiples of 90, [processPDF] calls [save] on a document that
    holds, for each active entry in list order, the original page of
    that number turned by the pending rotation; deleted entries are left
    out and no default page is added.  If the writer returns, its bytes
    are downloaded as [organized-<name>] and the file is dropped from the
    route; if it throws, the file is kept. *)
Theorem processPDF_writes_active_pages :
  forall (env : Collaborators) (st : State) (d : PDFFileData)
         (originalPdf : PDFDocument),
    pdfFile st = Some d ->
    activePagesOf d <> [] ->
    PDFDocument_load env (file_data (file d)) = Some originalPdf ->
    Forall (fun p =>
              (1 <= pageNumber p <= length (doc_pages originalPdf))%nat
              /\ quarterTurn (rotation p)) (activePagesOf d) ->
    Forall (fun source => Z.rem (page_rotation source) 90 = 0%Z)
      (doc_pages originalPdf) ->
    let after := snd (processPDF env st) in
    let options := {| useObjectStreams := None; addDefaultPage := None |} in
    exists copies,
      Forall2 (writtenAs originalPdf) (activePagesOf d) copies
      /\ saveCalls (log after)
         = saveCalls (log st)
           ++ [({| doc_images := []; doc_pages := copies |}, options)]
      /\ prepareForSave options {| doc_images := []; doc_pages := copies |}
         = {| doc_images := []; doc_pages := copies |}
      /\ isProcessing after = false
      /\ match serializeToBuffer env PDFStreamWriter
                 {| doc_images := []; doc_pages := copies |} with
         | Some bytes =>
             downloads (log after)
             = downloads (log st)
               ++ [(("organized-" ++ name d)%string, bytes)]
             /\ pdfFile after = None
         | None =>
             downloads (log after) = downloads (log st)
             /\ pdfFile after = Some d
         end.
Proof.
  intros env st d originalPdf Hfile Hactive Hload Hpages Hsources
    after options.
  destruct (@written_copies originalPdf (activePagesOf d) Hpages Hsources)
    as (copies & Hcopy & Hwritten).
  exists copies. split; [exact Hwritten|].
  assert (Hprepared :
            prepareForSave options {| doc_images := []; doc_pages := copies |}
            = {| doc_images := []; doc_pages := copies |}).
  { unfold prepareForSave. simpl.
    destruct copies as [|c copies]; [|reflexivity].
    inversion Hcopy as [Hnil|]; subst. now elim Hactive. }
  unfold after.
  rewrite (@processPDF_run env st d originalPdf Hfile Hactive Hload).
  rewrite (@organizeAll_written originalPdf (activePagesOf d) copies
             PDFDocument_create Hcopy).
  cbn [doc_images doc_pages PDFDocument_create].
  change ([] ++ copies) with copies.
  unfold PDFDocument_save, writerFor.
  cbn [snd withDefault useObjectStreams]. fold options. rewrite Hprepared.
  destruct (serializeToBuffer env PDFStreamWriter
              {| doc_images := []; doc_pages := copies |}) as [bytes|];
    cbn [fst snd pdfFile isProcessing log];
    rewrite !saveCalls_app, !downloads_app; simpl;
    rewrite ?app_nil_r, ?Hfile; now repeat split.
Qed.

Lemma processPDF_writes_active_pages_witness :
  exists copies,
    Forall2 (writtenAs twoPages)
      (filter (fun p => negb (isDeleted p))
         (match pdfFile editedRoute with Some d => pages d | None => [] end))
      copies
    /\ saveCalls (log (snd (processPDF sampleBrowser editedRoute)))
       = [({| doc_images := []; doc_pages := copies |},
           {| useObjectStreams := None; addDefaultPage := None |})].
Proof.
  destruct (@processPDF_writes_active_pages sampleBrowser editedRoute _
              twoPages eq_refl)
    as (copies & Hwritten & Hsaved & _).
  - discriminate.
  - reflexivity.
  - constructor; [|constructor].
    split; [simpl; lia|]. right. left. reflexivity.
  - repeat constructor.
  - exists copies. split; [exact Hwritten|exact Hsaved].
Defined.

(** X18.  Loading a file with at least one page and saving it at once
    writes the file's own pages, all of them, in their order and
    unchanged, under the name [organized-<file name>]. *)
Theorem loadPdfFile_then_processPDF_rewrites_pages :
  forall (env : Collaborators) (fileId : string) (pageId : nat -> string)
         (preview : nat -> option string) (file0 : File) (st0 : State)
         (doc : PDFDocument),
    PDFDocument_load env (file_data file0) = Some doc ->
    doc_pages doc <> [] ->
    let loaded := snd (loadPdfFile env fileId pageId preview file0 st0) in
    let after := snd (processPDF env loaded) in
    let options := {| useObjectStreams := None; addDefaultPage := None |} in
    let written := {| doc_images := []; doc_pages := doc_pages doc |} in
    option_map (fun d => map pageNumber (pages d)) (pdfFile loaded)
    = Some (seq 1 (length (doc_pages doc)))
    /\ saveCalls (log after) = saveCalls (log st0) ++ [(written, options)]
    /\ prepareForSave options written = written
    /\ match serializeToBuffer env PDFStreamWriter written with
       | Some bytes =>
           downloads (log after)
           = downloads (log st0)
             ++ [(("organized-" ++ file_name file0)%string, bytes)]
           /\ pdfFile after = None
       | None =>
           downloads (log after) = downloads (log st0)
           /\ pdfFile after = pdfFile loaded
       end.
Proof.
  intros env fileId pageId preview file0 st0 doc Hload Hpages
    loaded after options written.
  set (d := {| file_id := fileId; file := file0; name := file_name file0;
               size := file_size file0;
               pages := loadedPages pageId preview (length (doc_pages doc));
               isLoading := false |}).
  assert (Hloaded :
            loaded
            = {| pdfFile := Some d; isProcessing := isProcessing st0;
                 draggedPageId := draggedPageId st0;
                 dragOverPageId := dragOverPageId st0;
                 log := log st0 ++ [EvLoad (file_data file0)] |}).
  { unfold loaded, loadPdfFile, tryCatch, bind, logEvents, setPdfFile,
      modify, liftOption.
    cbn [fst snd pdfFile isProcessing draggedPageId dragOverPageId log].
    rewrite Hload. reflexivity. }
  assert (Hactive : activePagesOf d
                    = loadedPages pageId preview (length (doc_pages doc)))
    by apply loadedPages_all_active.
  assert (Hprepared : prepareForSave options written = written).
  { unfold prepareForSave, written. simpl.
    destruct (doc_pages doc); [contradiction|reflexivity]. }
  split.
  { rewrite Hloaded. simpl. unfold loadedPages. rewrite map_map. simpl.
    now rewrite map_id. }
  unfold after.
  rewrite (@processPDF_run env loaded d doc);
    [|now rewrite Hloaded
     |rewrite Hactive; unfold loadedPages;
      destruct (doc_pages doc); [contradiction|discriminate]
     |exact Hload].
  rewrite Hactive.
  assert (Hcopies :
            Forall2 (fun page copied => copyActivePage doc page = Some copied)
              (loadedPages pageId preview (length (doc_pages doc)))
              (doc_pages doc))
    by exact (@loadedPages_copies pageId preview doc (doc_pages doc) []
                eq_refl).
  rewrite (@organizeAll_written doc _ (doc_pages doc) PDFDocument_create
             Hcopies).
  cbn [doc_images doc_pages PDFDocument_create].
  change ([] ++ doc_pages doc) with (doc_pages doc).
  unfold PDFDocument_save, writerFor.
  cbn [snd withDefault useObjectStreams]. fold options. fold written.
  rewrite Hprepared, Hloaded.
  split; [|split; [reflexivity|]];
    destruct (serializeToBuffer env PDFStreamWriter written) as [bytes|];
    cbn [fst snd pdfFile isProcessing log name d];
    rewrite <- ?app_assoc, ?saveCalls_app, ?downloads_app; simpl;
    rewrite ?app_nil_r; now repeat split.
Qed.

Lemma loadPdfFile_then_processPDF_rewrites_pages_witness :
  saveCalls (log (snd (processPDF sampleBrowser loadedRoute)))
  = [({| doc_images := []; doc_pages := [onePage; otherPage] |},
      {| useObjectStreams := None; addDefaultPage := None |})].
Proof.
  destruct (@loadPdfFile_then_processPDF_rewrites_pages sampleBrowser
              "scan.pdf-0" samplePageId (fun _ => None) sampleFile
              emptyRoute
              {| doc_images := []; doc_pages := [onePage; otherPage] |}
              eq_refl)
    as (_ & Hsaved & _).
  - discriminate.
  - exact Hsaved.
Defined.

(** X19.  When an active entry carries the page number 0 or a number
    beyond the last page of the file, [processPDF] saves and downloads
    nothing: it opens the file, reports the error on the console and in
    an alert, keeps the file with its edits and lowers the processing
    flag. *)
Theorem processPDF_rejects_unknown_page_number :
  forall (env : Collaborators) (st : State) (d : PDFFileData)
         (originalPdf : PDFDocument) (page : PDFPage),
    pdfFile st = Some d ->
    PDFDocument_load env (file_data (file d)) = Some originalPdf ->
    In page (pages d) ->
    isDeleted page = false ->
    pageNumber page = 0%nat
    \/ (length (doc_pages originalPdf) < pageNumber page)%nat ->
    let after := snd (processPDF env st) in
    pdfFile after = Some d
    /\ isProcessing after = false
    /\ log after = log st ++ failedSave d
    /\ saveCalls (log after) = saveCalls (log st)
    /\ downloads (log after) = downloads (log st).
Proof.
  intros env st d originalPdf page Hfile Hload Hin Hactive Hunknown after.
  assert (Hpage : In page (activePagesOf d))
    by (apply filter_In; split; [exact Hin|now rewrite Hactive]).
  unfold after.
  rewrite (@processPDF_unknown_run env st d originalPdf page
             Hfile Hload Hpage Hunknown).
  cbn [snd pdfFile isProcessing log].
  rewrite saveCalls_app, downloads_app. simpl.
  now rewrite !app_nil_r.
Qed.

Lemma processPDF_rejects_unknown_page_number_witness :
  downloads
    (log (snd (processPDF sampleBrowser (routeWith (Some (scannedFile 3))))))
  = [].
Proof.
  assert (Hlisted :
            In {| id := samplePageId 3; pageNumber := 3; rotation := 0;
                  previewUrl := None; isDeleted := false |}
              (pages (scannedFile 3)))
    by (right; right; left; reflexivity).
  assert (Hbeyond :
            pageNumber
              {| id := samplePageId 3; pageNumber := 3; rotation := 0;
                 previewUrl := None; isDeleted := false |} = 0%nat
            \/ (length (doc_pages twoPages) < 3)%nat)
    by (right; simpl; lia).
  exact (proj2 (proj2 (proj2 (proj2
           (@processPDF_rejects_unknown_page_number sampleBrowser
              (routeWith (Some (scannedFile 3))) (scannedFile 3) twoPages
              {| id := samplePageId 3; pageNumber := 3; rotation := 0;
                 previewUrl := None; isDeleted := false |}
              eq_refl eq_refl Hlisted eq_refl Hbeyond))))).
Defined.

(** X20.  Pages added from a second file cannot be saved.  When the
    list holds an entry numbered at or beyond the last page of the
    original file, as every loaded list does, [handleAddPages] appends
    one entry per page of the new file, each numbered beyond the
    original file, and the next [processPDF], which copies from the
    original file only, fails: nothing is saved or downloaded. *)
Theorem processPDF_fails_after_handleAddPages :
  forall (env : Collaborators) (pageId : nat -> string)
         (preview : nat -> option string) (newFile : File) (st : State)
         (d : PDFFileData) (originalPdf newDoc : PDFDocument)
         (last : PDFPage),
    pdfFile st = Some d ->
    PDFDocument_load env (file_data (file d)) = Some originalPdf ->
    In last (pages d) ->
    (length (doc_pages originalPdf) <= pageNumber last)%nat ->
    PDFDocument_load env (file_data newFile) = Some newDoc ->
    doc_pages newDoc <> [] ->
    exists st' d' newPages,
      handleAddPages env pageId preview newFile st = Some st'
      /\ pdfFile st' = Some d'
      /\ pages d' = pages d ++ newPages
      /\ length newPages = length (doc_pages newDoc)
      /\ Forall (fun p =>
                   (length (doc_pages originalPdf) < pageNumber p)%nat
                   /\ isDeleted p = false) newPages
      /\ let after := snd (processPDF env st') in
         pdfFile after = Some d'
         /\ log after = log st' ++ failedSave d'
         /\ saveCalls (log after) = saveCalls (log st')
         /\ downloads (log after) = downloads (log st').
Proof.
  intros env pageId preview newFile st d originalPdf newDoc last
    Hfile Hload Hlast Hbeyond Hnew Hpages.
  destruct (Math_max (map pageNumber (pages d))) as [currentMaxPage|] eqn:Hmax.
  2:{ destruct (pages d); [contradiction|discriminate]. }
  assert (Hbound : (pageNumber last <= currentMaxPage)%nat).
  { pose proof (Math_max_bounds _ Hmax) as Hall.
    rewrite Forall_forall in Hall. apply Hall. now apply in_map. }
  destruct (doc_pages newDoc) as [|newPage rest] eqn:Hcount;
    [contradiction|].
  set (newPages :=
         map (fun i =>
                {| id := pageId (currentMaxPage + i)%nat;
                   pageNumber := (currentMaxPage + i)%nat;
                   rotation := 0; previewUrl := preview i;
                   isDeleted := false |})
           (seq 1 (S (length rest)))).
  set (d' := withPages (pages d ++ newPages) d).
  set (st' := {| pdfFile := Some d'; isProcessing := isProcessing st;
                 draggedPageId := draggedPageId st;
                 dragOverPageId := dragOverPageId st;
                 log := log st ++ [EvLoad (file_data newFile)] |}).
  exists st', d', newPages.
  assert (Hadded : Forall (fun p =>
                             (length (doc_pages originalPdf) < pageNumber p)%nat
                             /\ isDeleted p = false) newPages).
  { unfold newPages. apply Forall_forall. intros p Hp.
    apply in_map_iff in Hp. destruct Hp as (i & <- & Hi).
    apply in_seq in Hi. simpl. split; [lia|reflexivity]. }
  split.
  { unfold handleAddPages. rewrite Hfile, Hnew, Hcount. unfold addedPages.
    simpl length. rewrite Hmax. unfold bind, logEvents, setPdfFile, modify.
    cbn [fst snd pdfFile isProcessing draggedPageId dragOverPageId log].
    now rewrite Hfile. }
  split; [reflexivity|]. split; [reflexivity|].
  split; [unfold newPages; now rewrite length_map, length_seq|].
  split; [exact Hadded|].
  cbv zeta.
  rewrite (@processPDF_unknown_run env st' d' originalPdf
             {| id := pageId (currentMaxPage + 1)%nat;
                pageNumber := (currentMaxPage + 1)%nat;
                rotation := 0; previewUrl := preview 1%nat;
                isDeleted := false |}
             eq_refl Hload).
  - cbn [snd pdfFile log].
    rewrite saveCalls_app, downloads_app. simpl.
    now rewrite !app_nil_r.
  - apply filter_In. split; [|reflexivity].
    simpl. apply in_or_app. right. left. reflexivity.
  - right. simpl. lia.
Qed.

Lemma processPDF_fails_after_handleAddPages_witness :
  exists st',
    handleAddPages sampleBrowser samplePageId (fun _ => None) sampleFile
      loadedRoute
    = Some st'
    /\ option_map (fun d => map pageNumber (pages d)) (pdfFile st')
       = Some [1; 2; 3; 4]%nat
    /\ downloads (log (snd (processPDF sampleBrowser st'))) = [].
Proof.
  assert (Hpages : doc_pages twoPages <> []) by discriminate.
  assert (Hlast :
            In {| id := samplePageId 2; pageNumber := 2; rotation := 0;
                  previewUrl := None; isDeleted := false |}
              (loadedPages samplePageId (fun _ => None) 2))
    by (right; left; reflexivity).
  destruct (@processPDF_fails_after_handleAddPages sampleBrowser
              samplePageId (fun _ => None) sampleFile loadedRoute
              (scannedFile 2)
              twoPages twoPages _
              eq_refl eq_refl Hlast (le_n 2) eq_refl Hpages)
    as (st' & d' & newPages & Hadd & Hfile & _ & _ & _ & _ & _ & _ & Hnone).
  exists st'. split; [exact Hadd|].
  rewrite Hnone. injection Hadd as <-. split; reflexivity.
Defined.

(** X21.  [deletePage] only marks: the entries stay in the list, and the
    pages that [processPDF] writes afterwards are the ones it would have
    written before, without those of the deleted identifier.
    [restorePage] undoes it when the entries of that identifier were not
    deleted before. *)
Theorem deletePage_hides_until_restored :
  forall (pageId : string) (d : PDFFileData),
    exists d',
      deletePage pageId (Some d) = Some d'
      /\ map id (pages d') = map id (pages d)
      /\ map pageNumber (pages d') = map pageNumber (pages d)
      /\ activePagesOf d'
         = filter (fun p => negb (String.eqb (id p) pageId)) (activePagesOf d)
      /\ (Forall (fun p => id p = pageId -> isDeleted p = false) (pages d) ->
          restorePage pageId (Some d') = Some d).
Proof.
  intros pageId d. eexists. split; [reflexivity|].
  unfold activePagesOf, restorePage, setDeleted, withPages.
  cbn [pages file_id file name size isLoading].
  repeat split.
  - rewrite map_map. apply map_ext. intros p.
    now destruct (String.eqb (id p) pageId).
  - rewrite map_map. apply map_ext. intros p.
    now destruct (String.eqb (id p) pageId).
  - induction (pages d) as [|p l IH]; [reflexivity|]. simpl.
    destruct (String.eqb (id p) pageId) eqn:Hid; simpl.
    + destruct (isDeleted p); simpl; rewrite ?Hid; exact IH.
    + destruct (isDeleted p); simpl; rewrite ?Hid; simpl; now rewrite IH.
  - intros Hkept. destruct d as [fid f n sz ps loading]. simpl in *.
    do 2 f_equal. induction Hkept as [|p l Hp _ IH]; [reflexivity|].
    simpl. rewrite IH. f_equal.
    destruct (String.eqb (id p) pageId) eqn:Hid; simpl; rewrite ?Hid;
      [|reflexivity].
    apply String.eqb_eq in Hid. destruct p as [i number r url deleted].
    simpl in *. now rewrite (Hp Hid).
Qed.

Lemma deletePage_hides_until_restored_witness :
  restorePage "page-1" (deletePage "page-1" (pdfFile loadedRoute))
  = pdfFile loadedRoute.
Proof.
  destruct (deletePage_hides_until_restored "page-1"
              (scannedFile 2))
    as (d' & Hdeleted & _ & _ & _ & Hrestored).
  change (pdfFile loadedRoute)
    with (Some (scannedFile 2)).
  rewrite Hdeleted. apply Hrestored.
  repeat constructor.
Defined.

(** X22.  A file that does not load changes nothing in the organize
    route but the log: [loadPdfFile] keeps the file that was loaded
    before, with its edits, and so does [handleAddPages]; each reports
    its error on the console and in an alert.  Without a loaded file
    [handleAddPages] does not even open the new one. *)
Theorem unloadable_file_leaves_route :
  forall (env : Collaborators) (fileId : string) (pageId : nat -> string)
         (preview : nat -> option string) (file0 : File) (st : State),
    (PDFDocument_load env (file_data file0) = None ->
     loadPdfFile env fileId pageId preview file0 st
     = (Ok tt,
        {| pdfFile := pdfFile st; isProcessing := isProcessing st;
           draggedPageId := draggedPageId st;
           dragOverPageId := dragOverPageId st;
           log := log st
                  ++ [EvLoad (file_data file0);
                      EvConsoleError "Error loading PDF:";
                      EvAlert "Error loading PDF file. Please try again."] |})
     /\ (pdfFile st <> None ->
         handleAddPages env pageId preview file0 st
         = Some
             {| pdfFile := pdfFile st; isProcessing := isProcessing st;
                draggedPageId := draggedPageId st;
                dragOverPageId := dragOverPageId st;
                log := log st
                       ++ [EvLoad (file_data file0);
                           EvConsoleError "Error adding pages:";
                           EvAlert "Error adding pages. Please try again."]
             |}))
    /\ (pdfFile st = None ->
        handleAddPages env pageId preview file0 st = Some st).
Proof.
  intros env fileId pageId preview file0 st. split.
  - intros Hload. split.
    + unfold loadPdfFile, tryCatch, bind, logEvents, setPdfFile, modify,
        liftOption.
      cbn [fst snd pdfFile isProcessing draggedPageId dragOverPageId log].
      rewrite Hload.
      cbn [fst snd pdfFile isProcessing draggedPageId dragOverPageId log
           throw].
      now rewrite <- app_assoc.
    + intros Hfile. unfold handleAddPages.
      destruct (pdfFile st) as [d|] eqn:Hd; [|contradiction].
      rewrite Hload. unfold logEvents, modify. simpl. now rewrite Hd.
  - intros Hnone. unfold handleAddPages. now rewrite Hnone.
Qed.

Lemma unloadable_file_leaves_route_witness :
  pdfFile
    (snd (loadPdfFile sampleBrowser "empty.pdf-1" samplePageId
            (fun _ => None) emptyFile editedRoute))
  = pdfFile editedRoute.
Proof.
  rewrite (proj1 (proj1
             (unloadable_file_leaves_route sampleBrowser "empty.pdf-1"
                samplePageId (fun _ => None) emptyFile editedRoute)
             eq_refl)).
  reflexivity.
Defined.

End OrganizeSavingFacts.

(** ** The sizes the batch records *)

Module CompressSizeFacts.

Import CompressRoute CompressRouteTerms.

Lemma sizeView_withStatus (target : string) (s : Status) (l : list PDFFile) :
  sizeView (mapMatching target (withStatus s) l) = sizeView l.
Proof.
  unfold sizeView, mapMatching. rewrite !map_map.
  apply map_ext. intros f. now destruct (String.eqb (id f) target).
Qed.

Lemma sizeView_withProgress (target : string) (n : nat) (l : list PDFFile) :
  sizeView (mapMatching target (withProgress n) l) = sizeView l.
Proof.
  unfold sizeView, mapMatching. rewrite !map_map.
  apply map_ext. intros f. now destruct (String.eqb (id f) target).
Qed.

Lemma sizeView_withCompleted (target : string) (n : nat) (l : list PDFFile) :
  sizeView (mapMatching target (withCompleted n) l)
  = map (fun p => if String.eqb (fst p) target then (fst p, Some n) else p)
      (sizeView l).
Proof.
  unfold sizeView, mapMatching. rewrite !map_map.
  apply map_ext. intros f. simpl. now destruct (String.eqb (id f) target).
Qed.

Section Batch.

Variable env : Collaborators.
Variable percent : nat -> nat -> nat.
Variable currentMode : CompressionMode.

Lemma handleCompressPDF_keeps_sizes (pdfFile : PDFFile) (st : State) :
  exists st',
    handleCompressPDF env percent currentMode pdfFile st
    = (compressResult env (file pdfFile) (Some currentMode), st')
    /\ sizeView (pdfFiles st') = sizeView (pdfFiles st)
    /\ isProcessing st' = isProcessing st
    /\ compressionMode st' = compressionMode st.
Proof.
  unfold handleCompressPDF.
  set (callback := fun current total : nat =>
                     setPdfFiles
                       (mapMatching (id pdfFile)
                          (withProgress (percent current total)))).
  set (Inv := fun w : State =>
                sizeView (pdfFiles w) = sizeView (pdfFiles st)
                /\ isProcessing w = isProcessing st
                /\ compressionMode w = compressionMode st).
  assert (Hkeeps : forall cb c t w,
             Some callback = Some cb -> Inv w -> Inv (snd (cb c t w))).
  { intros cb c t w Hcb (Hv & Hp & Hm). injection Hcb as <-.
    unfold Inv, callback, setPdfFiles, modify. simpl.
    now rewrite sizeView_withProgress. }
  pose proof (compressPDF_result_independent env (file pdfFile)
                (Some currentMode) (Some callback) st) as Hresult.
  destruct (getDocument env (file_data (file pdfFile))) as [pdfDocument|]
    eqn:Hopen.
  - destruct (@run_compressPDF_opened State env (file pdfFile)
                (Some currentMode) (Some callback) Inv Hkeeps st pdfDocument
                Hopen)
      as (cs & evs & Hrun & _ & Hinv & _).
    rewrite Hrun in *. simpl in Hresult.
    destruct Hinv as (Hv & Hp & Hm); [now repeat split|].
    unfold logEvents, modify. simpl.
    eexists. split; [now rewrite Hresult|]. simpl. now repeat split.
  - rewrite run_compressPDF_unopened in * by exact Hopen.
    simpl in Hresult. unfold logEvents, modify. simpl.
    eexists. split; [now rewrite Hresult|]. simpl. now repeat split.
Qed.

Lemma compressOne_sizes (pdfFile : PDFFile) (st : State) :
  exists st',
    compressOne env percent currentMode pdfFile st = (Ok tt, st')
    /\ sizeView (pdfFiles st')
       = map (recordSize env currentMode pdfFile) (sizeView (pdfFiles st))
    /\ isProcessing st' = isProcessing st
    /\ compressionMode st' = compressionMode st.
Proof.
  unfold compressOne, bind, tryCatch, setPdfFiles, logEvents, modify. simpl.
  match goal with
  | |- context [handleCompressPDF env percent currentMode pdfFile ?s] =>
      destruct (handleCompressPDF_keeps_sizes pdfFile s)
        as (st1 & Hrun & Hv & Hp & Hm)
  end.
  rewrite Hrun. simpl in *.
  rewrite sizeView_withStatus in Hv.
  unfold recordSize.
  destruct (compressResult env (file pdfFile) (Some currentMode))
    as [bytes|msg]; simpl;
    (eexists; split; [reflexivity|]); simpl;
    rewrite ?sizeView_withCompleted, ?sizeView_withStatus, Hv;
    repeat split; try assumption.
  now rewrite map_id.
Qed.

Lemma forEach_compressOne_sizes (todo : list PDFFile) :
  forall st : State,
  exists st',
    forEach todo (compressOne env percent currentMode) st = (Ok tt, st')
    /\ sizeView (pdfFiles st')
       = fold_left (fun v f => map (recordSize env currentMode f) v)
           todo (sizeView (pdfFiles st))
    /\ isProcessing st' = isProcessing st
    /\ compressionMode st' = compressionMode st.
Proof.
  induction todo as [|f rest IH]; intros st.
  - exists st. simpl. now repeat split.
  - destruct (compressOne_sizes f st) as (st1 & Hrun1 & Hv1 & Hp1 & Hm1).
    destruct (IH st1) as (st2 & Hrun2 & Hv2 & Hp2 & Hm2).
    exists st2. simpl. unfold bind. rewrite Hrun1.
    split; [exact Hrun2|].
    rewrite Hv2, Hv1, Hp2, Hp1, Hm2, Hm1. now repeat split.
Qed.

Lemma recordSize_own (f : PDFFile) :
  recordSize env currentMode f (id f, compressedSize f)
  = (id f, finalSize env currentMode f).
Proof.
  unfold recordSize, finalSize.
  destruct (compressResult env (file f) (Some currentMode)); simpl;
    [now rewrite String.eqb_refl|reflexivity].
Qed.

Lemma recordSize_other (f : PDFFile) (l : list PDFFile)
  (g : PDFFile -> string * option nat) :
  (forall h, fst (g h) = id h) ->
  ~ In (id f) (map id l) ->
  map (recordSize env currentMode f) (map g l) = map g l.
Proof.
  intros Hg Hnot. rewrite map_map. apply map_ext_in. intros h Hh.
  unfold recordSize.
  destruct (compressResult env (file f) (Some currentMode)); [|reflexivity].
  rewrite Hg.
  destruct (String.eqb_spec (id h) (id f)) as [Heq|]; [|reflexivity].
  exfalso. apply Hnot. rewrite <- Heq. now apply in_map.
Qed.

Lemma fold_recordSize_distinct (todo : list PDFFile) :
  forall done : list PDFFile,
    NoDup (map id (done ++ todo)) ->
    fold_left (fun v f => map (recordSize env currentMode f) v) todo
      (map (fun f => (id f, finalSize env currentMode f)) done
       ++ sizeView todo)
    = map (fun f => (id f, finalSize env currentMode f)) (done ++ todo).
Proof.
  induction todo as [|f rest IH]; intros done Hdistinct.
  - simpl. now rewrite !app_nil_r.
  - simpl.
    rewrite map_app in Hdistinct. simpl in Hdistinct.
    pose proof (NoDup_remove_2 _ _ _ Hdistinct) as Hfresh.
    rewrite in_app_iff in Hfresh.
    rewrite map_app. simpl.
    rewrite recordSize_own.
    rewrite (@recordSize_other f done
               (fun f => (id f, finalSize env currentMode f)))
      by (try reflexivity; tauto).
    unfold sizeView.
    rewrite (@recordSize_other f rest (fun f => (id f, compressedSize f)))
      by (try reflexivity; tauto).
    fold (sizeView rest).
    replace (done ++ f :: rest) with ((done ++ [f]) ++ rest)
      by now rewrite <- app_assoc.
    rewrite <- IH.
    + now rewrite map_app, <- app_assoc.
    + now rewrite <- app_assoc, map_app.
Qed.

End Batch.

(** X23.  On a list of at least one file with distinct identifiers, the
    batch loop ends with the processing flag down and the mode unchanged,
    and it records for every file that [compressPDF] returns for the
    number of bytes returned, as [compressedSize]; the entry of a file
    for which [compressPDF] throws keeps the size it had. *)
Theorem compressPDFs_records_output_sizes :
  forall (env : Collaborators) (percent : nat -> nat -> nat) (st : State),
    pdfFiles st <> [] ->
    NoDup (map id (pdfFiles st)) ->
    let currentMode := compressionMode st in
    let after := snd (compressPDFs env percent st) in
    isProcessing after = false
    /\ compressionMode after = currentMode
    /\ map compressedSize (pdfFiles after)
       = map (finalSize env currentMode) (pdfFiles st)
    /\ forall i f bytes,
         nth_error (pdfFiles st) i = Some f ->
         compressResult env (file f) (Some currentMode) = Ok bytes ->
         exists f',
           nth_error (pdfFiles after) i = Some f'
           /\ compressedSize f' = Some (length bytes).
Proof.
  intros env percent st Hsome Hdistinct currentMode after.
  assert (Hmain :
            isProcessing after = false
            /\ compressionMode after = currentMode
            /\ sizeView (pdfFiles after)
               = map (fun f => (id f, finalSize env currentMode f))
                   (pdfFiles st)).
  { unfold after, currentMode, compressPDFs.
    destruct (pdfFiles st) as [|f0 rest] eqn:Hfiles; [contradiction|].
    cbn [length Nat.eqb].
    unfold bind, tryFinally, setIsProcessing, modify. cbn beta iota.
    match goal with
    | |- context [forEach ?l ?body ?s] =>
        destruct (forEach_compressOne_sizes env percent (compressionMode st)
                    l s)
          as (st' & Hrun & Hv & _ & Hm)
    end.
    rewrite Hrun. cbn [fst snd pdfFiles isProcessing compressionMode] in *.
    split; [reflexivity|]. split; [exact Hm|].
    rewrite Hfiles in Hv.
    assert (Hfold := fold_recordSize_distinct env (compressionMode st)
                       (f0 :: rest) []).
    change (map ?g [] ++ ?x) with x in Hfold.
    change ([] ++ ?x) with x in Hfold.
    now rewrite Hfold in Hv by exact Hdistinct. }
  destruct Hmain as (Hflag & Hmode & Hview).
  assert (Hsizes : map compressedSize (pdfFiles after)
                   = map (finalSize env currentMode) (pdfFiles st)).
  { apply (f_equal (map snd)) in Hview. unfold sizeView in Hview.
    rewrite !map_map in Hview. exact Hview. }
  repeat (split; [assumption|]).
  intros i f bytes Hi Hok.
  pose proof (f_equal (fun l => nth_error l i) Hsizes) as Hsize_i.
  simpl in Hsize_i. rewrite !nth_error_map, Hi in Hsize_i.
  destruct (nth_error (pdfFiles after) i) as [f'|]; [|discriminate].
  simpl in Hsize_i. injection Hsize_i as Hsize_i.
  exists f'. split; [reflexivity|].
  rewrite Hsize_i. unfold finalSize. now rewrite Hok.
Qed.

Lemma compressPDFs_records_output_sizes_witness :
  map compressedSize
    (pdfFiles (snd (compressPDFs sampleBrowser wholePercent sampleBatch)))
  = [None; Some 2%nat].
Proof.
  assert (Hsome : pdfFiles sampleBatch <> []) by discriminate.
  assert (Hdistinct : NoDup (map id (pdfFiles sampleBatch))).
  { simpl. constructor.
    - simpl. intros [H|[]]. discriminate H.
    - constructor; [intros []|constructor]. }
  exact (proj1 (proj2 (proj2
           (@compressPDFs_records_output_sizes sampleBrowser wholePercent
              sampleBatch Hsome Hdistinct)))).
Defined.

End CompressSizeFacts.
